(** * gist command line client: model of [gist/client.py]

    A shallow embedding of the command line front end of the gist client:
    the presentation helper [elide], the resolution of the editor and of the
    configuration file, the parsing of the command line against the usage
    text, and the [main] routine with its [content] and [create] commands.

    Conventions.
    - A Python [str] is a [string]; one [ascii] stands for one character
      (code points below 256), so [String.length] is Python's [len].
    - Python integers are unbounded: [Z].
    - Dictionaries whose order is irrelevant ([args], the parsed
      configuration, [os.environ]) are [gmap]s; the ordered ones (the remote
      file mapping, the submitted payload) are association lists.
    - Everything outside the process (file system, environment, terminal,
      editor, GnuPG, the remote API) is read from a [World] record; what
      [main] does to it is recorded in a log of [Event]s. *)

From Stdlib Require Import ZArith String Ascii List Bool Lia.
From stdpp Require Import base option gmap strings list.

Import ListNotations.
Local Open Scope string_scope.
Local Open Scope Z_scope.

(** ** Strings *)

Module PyStr.

(** First [n] characters of [s] (all of [s] when it is shorter). *)
Fixpoint take (n : nat) (s : string) : string :=
  match n, s with
  | O, _ => EmptyString
  | S _, EmptyString => EmptyString
  | S n', String c s' => String c (take n' s')
  end.

(** [len(s)] as a Python integer. *)
Definition len (s : string) : Z := Z.of_nat (String.length s).

(** The slice [s[:k]]: a negative bound counts from the end and is
    clipped at the start of the string. *)
Definition slice_to (s : string) (k : Z) : string :=
  if k <? 0 then take (Z.to_nat (Z.max 0 (len s + k))) s
  else take (Z.to_nat k) s.

(** [str.isspace] on one character, for code points below 256. *)
Definition isspace (c : ascii) : bool :=
  let n := N_of_ascii c in
  ((9 <=? n) && (n <=? 13) || (28 <=? n) && (n <=? 32)
   || (n =? 133) || (n =? 160))%N.

Fixpoint lstrip (s : string) : string :=
  match s with
  | EmptyString => EmptyString
  | String c s' => if isspace c then lstrip s' else s
  end.

Fixpoint rstrip (s : string) : string :=
  match s with
  | EmptyString => EmptyString
  | String c s' =>
      match rstrip s' with
      | EmptyString => if isspace c then EmptyString else String c EmptyString
      | r => String c r
      end
  end.

(** [s.strip()] *)
Definition strip (s : string) : string := rstrip (lstrip s).

(** [sep.join(parts)] *)
Fixpoint join (sep : string) (parts : list string) : string :=
  match parts with
  | [] => EmptyString
  | [p] => p
  | p :: ps => p ++ sep ++ join sep ps
  end.

(** [s == ''] *)
Definition is_empty (s : string) : bool :=
  match s with EmptyString => true | _ => false end.

(** [s.lower()] on one character, for code points below 256. *)
Definition lower_char (c : ascii) : ascii :=
  let n := N_of_ascii c in
  if ((65 <=? n) && (n <=? 90)
      || (192 <=? n) && (n <=? 222) && negb (n =? 215))%N
  then ascii_of_N (n + 32) else c.

Fixpoint lower (s : string) : string :=
  match s with
  | EmptyString => EmptyString
  | String c s' => String (lower_char c) (lower s')
  end.

(** The line feed, the quotes and the backslash as characters. *)
Definition nl : string := String (ascii_of_N 10) EmptyString.
Definition squote : ascii := ascii_of_N 39.
Definition dquote : ascii := ascii_of_N 34.
Definition backslash : ascii := ascii_of_N 92.

Fixpoint contains (c : ascii) (s : string) : bool :=
  match s with
  | EmptyString => false
  | String d s' => Ascii.eqb c d || contains c s'
  end.

Definition hex_digit (n : N) : ascii :=
  ascii_of_N (if (n <? 10)%N then 48 + n else 87 + n).

(** One character of [repr(s)], given the quote chosen for [s]. *)
Definition repr_char (quote c : ascii) : string :=
  let n := N_of_ascii c in
  let esc (d : ascii) := String backslash (String d EmptyString) in
  if (Ascii.eqb c backslash || Ascii.eqb c quote)%bool then esc c
  else if (n =? 9)%N then esc "t"%char
  else if (n =? 10)%N then esc "n"%char
  else if (n =? 13)%N then esc "r"%char
  else if ((n <? 32) || (n =? 127) || (128 <=? n) && (n <=? 160)
           || (n =? 173))%N
  then String backslash
         (String "x"%char
            (String (hex_digit (n / 16)) (String (hex_digit (n mod 16)) EmptyString)))
  else String c EmptyString.

Fixpoint repr_body (quote : ascii) (s : string) : string :=
  match s with
  | EmptyString => EmptyString
  | String c s' => repr_char quote c ++ repr_body quote s'
  end.

(** [repr(s)]: single quotes, unless [s] holds a single quote and no
    double quote. *)
Definition repr (s : string) : string :=
  let quote :=
    if (contains squote s && negb (contains dquote s))%bool then dquote
    else squote in
  String quote (repr_body quote s ++ String quote EmptyString).

End PyStr.

(** ** Presentation: [elide] *)

(** [elide(txt, width)]: [width] is [None] when no terminal width could be
    determined.  The [try]/[except] around [len] never fires on a [str]. *)
Definition elide (txt : string) (width : option Z) : string :=
  match width with
  | Some w =>
      if 3 <? w then
        if w <? PyStr.len txt then PyStr.slice_to txt (w - 3) ++ "..."
        else txt
      else txt
  | None => txt
  end.


(** ** Values of the parsed command line *)

(** What the argument parser binds to a name of the usage text: [None],
    a flag, a string, or a list of strings (a repeated argument). *)
Inductive value : Type :=
| VNone
| VBool (b : bool)
| VStr (s : string)
| VList (l : list string).

#[global] Instance value_eq_dec : EqDecision value.
Proof. solve_decision. Defined.

(** Truth value of [v] in a condition. *)
Definition truthy (v : value) : bool :=
  match v with
  | VNone => false
  | VBool b => b
  | VStr s => negb (PyStr.is_empty s)
  | VList l => match l with [] => false | _ :: _ => true end
  end.

(** [str(v)], as used by [format]. *)
Definition py_str (v : value) : string :=
  match v with
  | VNone => "None"
  | VBool true => "True"
  | VBool false => "False"
  | VStr s => s
  | VList l => "[" ++ PyStr.join ", " (map PyStr.repr l) ++ "]"
  end.

(** Whether [v] can be the key of a dictionary. *)
Definition hashable (v : value) : bool :=
  match v with VList _ => false | _ => true end.

(** [d.get(k, dflt)] on a dictionary with string keys. *)
Definition dict_get_default {V : Type} (d : gmap string V) (k : string) (dflt : V) : V :=
  match d !! k with
  | Some v => v
  | None => dflt
  end.

(** ** Exceptions *)

Inductive exn : Type :=
| ValueError (msg : string)
| GistError (msg : string)
| NoSectionError (section : string)
| NoOptionError (option section : string)
| KeyError (key : string)
| TypeError (msg : string)
| UnicodeEncodeError
| OtherError (msg : string)
| InterpolationSyntaxError (option section msg : string)
| InterpolationMissingOptionError (option section rawval reference : string)
| InterpolationDepthError (option section rawval : string).

(** ** The parsed configuration *)

(** A parsed configuration: section name, then option name, then the text
    stored for it (an option of the default section counts as an option of
    every section). *)
Abbreviation Config := (gmap string (gmap string string)).

Module ConfigParser.

Definition MAX_INTERPOLATION_DEPTH : nat := 10.

(** Where [BasicInterpolation] stands in a value: in plain text, behind a
    [%], inside the name of a reference [%(name)s], or behind its closing
    parenthesis.  [rest] is the value from the [%] on, as the error
    messages quote it. *)
Inductive scan : Type :=
| Text
| Percent (rest : string)
| Key (rest name : string)
| Closed (rest name : string).

Definition on_ok {A B : Type} (f : A -> B) (r : exn + A) : exn + B :=
  match r with
  | inl e => inl e
  | inr a => inr (f a)
  end.

(** The loop of [BasicInterpolation._interpolate_some] over one value;
    [expand] is the nested call on a referenced value that holds a [%],
    [map] holds the options that a reference may name. *)
Fixpoint scan_from (expand : string -> exn + string) (option section rawval : string)
    (map : gmap string string) (state : scan) (s : string) : exn + string :=
  let bad_percent rest :=
    inl (InterpolationSyntaxError option section
           ("'%' must be followed by '%' or '(', found: " ++ PyStr.repr rest)) in
  let bad_reference rest :=
    inl (InterpolationSyntaxError option section
           ("bad interpolation variable reference " ++ PyStr.repr rest)) in
  match state, s with
  | Text, EmptyString => inr EmptyString
  | Text, String c s' =>
      if Ascii.eqb c "%"%char then scan_from expand option section rawval map (Percent s) s'
      else on_ok (String c) (scan_from expand option section rawval map Text s')
  | Percent rest, EmptyString => bad_percent rest
  | Percent rest, String c s' =>
      if Ascii.eqb c "%"%char
      then on_ok (String "%"%char) (scan_from expand option section rawval map Text s')
      else if Ascii.eqb c "("%char
      then scan_from expand option section rawval map (Key rest EmptyString) s'
      else bad_percent rest
  | Key rest name, EmptyString => bad_reference rest
  | Key rest name, String c s' =>
      if Ascii.eqb c ")"%char then
        if PyStr.is_empty name then bad_reference rest
        else scan_from expand option section rawval map (Closed rest name) s'
      else scan_from expand option section rawval map
             (Key rest (name ++ String c EmptyString)) s'
  | Closed rest name, EmptyString => bad_reference rest
  | Closed rest name, String c s' =>
      if Ascii.eqb c "s"%char then
        match map !! PyStr.lower name with
        | None =>
            inl (InterpolationMissingOptionError option section rawval (PyStr.lower name))
        | Some v =>
            match (if PyStr.contains "%"%char v then expand v else inr v) with
            | inl e => inl e
            | inr expanded =>
                on_ok (String.append expanded)
                      (scan_from expand option section rawval map Text s')
            end
        end
      else bad_reference rest
  end.

(** [BasicInterpolation._interpolate_some] at a depth that leaves [levels]
    nested expansions. *)
Fixpoint interpolate_some (levels : nat) (option section rawval : string)
    (map : gmap string string) (value : string) : exn + string :=
  match levels with
  | O => inl (InterpolationDepthError option section rawval)
  | S levels' =>
      scan_from (interpolate_some levels' option section rawval map)
                option section rawval map Text value
  end.

(** The exceptions of the class [InterpolationError]. *)
Definition is_InterpolationError (e : exn) : bool :=
  match e with
  | InterpolationSyntaxError _ _ _
  | InterpolationMissingOptionError _ _ _ _
  | InterpolationDepthError _ _ _ => true
  | _ => false
  end.

(** [config.get(section, option)], for the parser of [main], a
    [ConfigParser] with its default [BasicInterpolation]: the stored value
    with [%%] turned into [%] and every [%(name)s] replaced by the value of
    [name] in the same section. *)
Definition get (config : Config) (section option : string) : exn + string :=
  match config !! section with
  | None => inl (NoSectionError section)
  | Some opts =>
      match opts !! option with
      | None => inl (NoOptionError option section)
      | Some value =>
          interpolate_some MAX_INTERPOLATION_DEPTH option section value opts value
      end
  end.

(** [config.has_option(section, option)] *)
Definition has_option (config : Config) (section option : string) : bool :=
  match config !! section with
  | None => false
  | Some opts => bool_decide (is_Some (opts !! option))
  end.

Definition BOOLEAN_STATES : list (string * bool) :=
  [("1", true); ("yes", true); ("true", true); ("on", true);
   ("0", false); ("no", false); ("false", false); ("off", false)].

Fixpoint assoc {V : Type} (k : string) (l : list (string * V)) : option V :=
  match l with
  | [] => None
  | (k', v) :: l' => if String.eqb k k' then Some v else assoc k l'
  end.

(** [config.getboolean(section, option)] *)
Definition getboolean (config : Config) (section option : string) : exn + bool :=
  match get config section option with
  | inl e => inl e
  | inr v =>
      match assoc (PyStr.lower v) BOOLEAN_STATES with
      | Some b => inr b
      | None => inl (ValueError ("Not a boolean: " ++ v))
      end
  end.

End ConfigParser.

(** ** The world outside the process *)

(** A row of [gapi.list()]: the fields that [main] reads. *)
Record GistInfo : Type := {
  gi_id : string;
  gi_public : bool;
  gi_desc : option string
}.

(** A named file to submit. *)
Record FileInfo : Type := {
  name : value;
  content : string
}.

(** The calls [main] makes on the remote API object. *)
Inductive RemoteCall : Type :=
| CallList
| CallInfo (gist_id : value)
| CallEdit (gist_id : value)
| CallDescription (gist_id description : value)
| CallFork (gist_id : value)
| CallClone (gist_id gist_name : value)
| CallContent (gist_id : value)
| CallFiles (gist_id : value)
| CallArchive (gist_id : value)
| CallDelete (gist_id : string)
| CallCreate (description : value) (data : list (value * string)) (public : value).

(** The remote API object [gist.GistAPI(token, editor)] comes from the
    [gist] module, outside [client.py]: it is a parameter here, given by
    its answers.  [api_info] is the answer of [info] already rendered by
    [json.dumps]; [api_call] answers the calls whose result [main] does
    not use. *)
Record GistAPI : Type := {
  api_list : exn + list GistInfo;
  api_info : value -> exn + string;
  api_content : value -> exn + list (string * string);
  api_files : value -> exn + list string;
  api_create : value -> list (value * string) -> value -> exn + string;
  api_call : RemoteCall -> exn + unit
}.

Record World : Type := {
  (* os, os.path *)
  os_sep : string;
  expanduser : string -> string;
  path_join : string -> string -> string;
  path_basename : string -> string;
  path_isfile : string -> bool;
  path_exists : string -> bool;
  environ : gmap string string;
  (* the terminal and the standard streams *)
  terminal_width : option Z;
  stdin_isatty : bool;
  stdin_read : exn + string;
  stdout_encodable : string -> bool;
  (* opening and parsing the configuration file at a path: the parsed
     configuration, or the text of the exception *)
  read_config : string -> string + Config;
  (* open(path, 'rb').read().decode('utf-8') *)
  read_utf8 : string -> exn + string;
  (* the name of the temporary file, and its decoded content once the
     editor command has returned *)
  tmp_name : exn + string;
  edited : string -> exn + string;
  (* GnuPG with a home directory: encrypt(content, fingerprint) and
     decrypt(content), decoded *)
  gpg_encrypt : string -> string -> string -> exn + string;
  gpg_decrypt : string -> string -> exn + string;
  (* the gist package *)
  gist_version : string;
  gist_api : string -> string -> GistAPI
}.

(** ** Effects *)

Inductive Event : Type :=
| EvOpenConfig (path : string)
| EvReadFile (path : string)
| EvTempFile (path : string) (delete : bool)
| EvSystem (command : string)
| EvReadStdin
| EvEncrypt (home content fingerprint : string)
| EvDecrypt (home content : string)
| EvRemote (call : RemoteCall)
| EvPrint (text : string).

(** A computation logs events and ends in an exception or a result. *)
Definition M (A : Type) : Type := list Event * (exn + A).

Definition ret {A : Type} (a : A) : M A := ([], inr a).

Definition raise {A : Type} (e : exn) : M A := ([], inl e).

Definition emit (ev : Event) : M unit := ([ev], inr tt).

Definition bind {A B : Type} (c : M A) (k : A -> M B) : M B :=
  match c with
  | (log, inl e) => (log, inl e)
  | (log, inr a) => let '(log', r) := k a in ((log ++ log')%list, r)
  end.

(** An answer of the world, as a computation. *)
Definition lift {A : Type} (r : exn + A) : M A := ([], r).

Declare Scope py_scope.
Delimit Scope py_scope with py.
Notation "x <- c ;; k" := (bind c (fun x => k))
  (at level 100, c at next level, right associativity) : py_scope.
Notation "c ;; k" := (bind c (fun _ => k))
  (at level 100, right associativity) : py_scope.
Local Open Scope py_scope.

(** [for x in l: body(x)] *)
Fixpoint for_each {A : Type} (l : list A) (body : A -> M unit) : M unit :=
  match l with
  | [] => ret tt
  | x :: l' => body x ;; for_each l' body
  end.

(** [[f(x) for x in l]], where [f] has effects. *)
Fixpoint map_m {A B : Type} (f : A -> M B) (l : list A) : M (list B) :=
  match l with
  | [] => ret []
  | x :: l' => y <- f x ;; ys <- map_m f l' ;; ret (y :: ys)
  end.

Definition log_of {A : Type} (c : M A) : list Event := fst c.
Definition result_of {A : Type} (c : M A) : exn + A := snd c.

(** [try: c except E: handler], where [handles] recognises [E]. *)
Definition try_except {A : Type} (c : M A) (handles : exn -> bool) (handler : M A) : M A :=
  match c with
  | (log, inl e) => if handles e then bind (log, inr tt) (fun _ => handler) else c
  | (_, inr _) => c
  end.

(** A loop that carries an accumulator. *)
Fixpoint fold_m {A S : Type} (f : S -> A -> M S) (l : list A) (s : S) : M S :=
  match l with
  | [] => ret s
  | x :: l' => s' <- f s x ;; fold_m f l' s'
  end.

(** ** Dictionaries and iteration *)

(** [args[k]] *)
Definition arg (args : gmap string value) (k : string) : M value :=
  match args !! k with
  | Some v => ret v
  | None => raise (KeyError k)
  end.

Fixpoint characters (s : string) : list string :=
  match s with
  | EmptyString => []
  | String c s' => String c EmptyString :: characters s'
  end.

(** The items a [for] loop over [v] visits. *)
Definition iterate (v : value) : exn + list string :=
  match v with
  | VList l => inr l
  | VStr s => inr (characters s)
  | VNone => inl (TypeError "'NoneType' object is not iterable")
  | VBool _ => inl (TypeError "'bool' object is not iterable")
  end.

(** [d[k] = v] on an ordered dictionary: an existing key keeps its place. *)
Fixpoint dict_set {K V : Type} `{EqDecision K} (k : K) (v : V) (d : list (K * V)) : list (K * V) :=
  match d with
  | [] => [(k, v)]
  | (k', v') :: d' =>
      if decide (k = k') then (k', v) :: d' else (k', v') :: dict_set k v d'
  end.

(** [d.get(k)] on a dictionary whose keys are strings, for any [k]. *)
Definition dict_get (d : list (string * string)) (k : value) : exn + option string :=
  match k with
  | VStr s => inr (ConfigParser.assoc s d)
  | VList _ => inl (TypeError "unhashable type: 'list'")
  | VNone | VBool _ => inr None
  end.

(** ** The program *)

Section Program.

Context (w : World).

(** *** Editor and configuration file *)

Definition alternative_editor (default : option string) : option string :=
  if path_exists w "/usr/bin/editor" then Some "/usr/bin/editor" else default.

Definition environment_editor (default : option string) : option string :=
  let editor := PyStr.strip (dict_get_default (environ w) "EDITOR" "") in
  if negb (PyStr.is_empty editor) then Some editor else default.

(** Only [NoOptionError] is caught. *)
Definition configuration_editor (config : Config) (default : option string) : exn + option string :=
  match ConfigParser.get config "gist" "editor" with
  | inr editor => inr (Some editor)
  | inl (NoOptionError _ _) => inr default
  | inl e => inl e
  end.

Definition alternative_config (default : string) : string :=
  let config_path := expanduser w (PyStr.join (os_sep w) ["~"; ".config"; "gist"]) in
  if path_isfile w config_path then config_path else default.

Definition xdg_data_config (default : string) : string :=
  let config := PyStr.strip (dict_get_default (environ w) "XDG_DATA_HOME" "") in
  if negb (PyStr.is_empty config) then
    let config_path := path_join w config "gist" in
    if path_isfile w config_path then config_path else default
  else default.

(** The path [main] opens when it is given no configuration object. *)
Definition config_location : string :=
  let config_path := expanduser w (PyStr.join (os_sep w) ["~"; ".gist"]) in
  let config_path := alternative_config config_path in
  xdg_data_config config_path.

(** "Read in the configuration file". *)
Definition load_config (config : option Config) : M Config :=
  match config with
  | Some config => ret config
  | None =>
      let config_path := config_location in
      emit (EvOpenConfig config_path) ;;
      match read_config w config_path with
      | inr config => ret config
      | inl e => raise (ValueError ("Unable to load configuration file: " ++ e))
      end
  end.

(** "Determine the editor to use": the three overriding steps. *)
Definition editor_chain (config : Config) : exn + option string :=
  let editor := None in
  let editor := alternative_editor editor in
  let editor := environment_editor editor in
  configuration_editor config editor.

Definition resolve_editor (config : Config) : M string :=
  editor <- lift (editor_chain config) ;;
  match editor with
  | None => raise (ValueError "Unable to find an editor.")
  | Some editor => ret editor
  end.

(** Everything [main] does before it looks at the command.  The block that
    sets the log level swallows every exception and only tunes logging,
    which is not modelled. *)
Definition startup (config : option Config) : M (Config * string * GistAPI) :=
  config <- load_config config ;;
  editor <- resolve_editor config ;;
  token <- lift (ConfigParser.get config "gist" "token") ;;
  ret (config, editor, gist_api w token editor).

(** *** Output and remote calls *)

Definition py_print (text : string) : M unit :=
  if stdout_encodable w text then emit (EvPrint text) else raise UnicodeEncodeError.

Definition is_UnicodeEncodeError (e : exn) : bool :=
  match e with UnicodeEncodeError => true | _ => false end.

Definition remote {A : Type} (call : RemoteCall) (answer : exn + A) : M A :=
  emit (EvRemote call) ;; lift answer.

(** *** The commands other than [create] *)

Definition cmd_list (gapi : GistAPI) : M unit :=
  gists <- remote CallList (api_list gapi) ;;
  for_each gists (fun info =>
    let public := if gi_public info then "+" else "-" in
    let desc := match gi_desc info with None => "" | Some d => d end in
    let line := gi_id info ++ " " ++ public ++ " " ++ desc in
    try_except (py_print (elide line (terminal_width w)))
      is_UnicodeEncodeError (ret tt)).

Definition cmd_info (args : gmap string value) (gapi : GistAPI) : M unit :=
  gist_id <- arg args "<id>" ;;
  info <- remote (CallInfo gist_id) (api_info gapi gist_id) ;;
  py_print info.

Definition cmd_edit (args : gmap string value) (gapi : GistAPI) : M unit :=
  gist_id <- arg args "<id>" ;;
  remote (CallEdit gist_id) (api_call gapi (CallEdit gist_id)).

Definition cmd_description (args : gmap string value) (gapi : GistAPI) : M unit :=
  gist_id <- arg args "<id>" ;;
  description <- arg args "<desc>" ;;
  remote (CallDescription gist_id description)
         (api_call gapi (CallDescription gist_id description)).

Definition cmd_fork (args : gmap string value) (gapi : GistAPI) : M unit :=
  gist_id <- arg args "<id>" ;;
  remote (CallFork gist_id) (api_call gapi (CallFork gist_id)).

Definition cmd_clone (args : gmap string value) (gapi : GistAPI) : M unit :=
  gist_id <- arg args "<id>" ;;
  gist_name <- arg args "<name>" ;;
  remote (CallClone gist_id gist_name) (api_call gapi (CallClone gist_id gist_name)).

(** [u'{}:\n{}\n'.format(name, lines)] and its decrypted variant. *)
Definition content_block (name lines : string) : string :=
  name ++ ":" ++ PyStr.nl ++ lines ++ PyStr.nl.

Definition decrypted_block (name lines : string) : string :=
  name ++ " (decrypted):" ++ PyStr.nl ++ lines ++ PyStr.nl.

Definition cmd_content (args : gmap string value) (config : Config) (gapi : GistAPI) : M unit :=
  gist_id <- arg args "<id>" ;;
  content <- remote (CallContent gist_id) (api_content gapi gist_id) ;;
  filename <- arg args "<filename>" ;;
  gist_file <- lift (dict_get content filename) ;;
  decrypt <- arg args "--decrypt" ;;
  if truthy decrypt then
    if negb (ConfigParser.has_option config "gist" "gnupg-homedir") then
      raise (GistError "gnupg-homedir missing from config file")
    else
      homedir <- lift (ConfigParser.get config "gist" "gnupg-homedir") ;;
      match gist_file with
      | Some gist_file =>
          emit (EvDecrypt homedir gist_file) ;;
          text <- lift (gpg_decrypt w homedir gist_file) ;;
          py_print text
      | None =>
          for_each content (fun '(name, lines) =>
            emit (EvDecrypt homedir lines) ;;
            lines <- lift (gpg_decrypt w homedir lines) ;;
            py_print (decrypted_block name lines))
      end
  else
    match gist_file with
    | Some gist_file => py_print gist_file
    | None =>
        for_each content (fun '(name, lines) =>
          py_print (content_block name lines))
    end.

Definition cmd_files (args : gmap string value) (gapi : GistAPI) : M unit :=
  gist_id <- arg args "<id>" ;;
  files <- remote (CallFiles gist_id) (api_files gapi gist_id) ;;
  for_each files py_print.

Definition cmd_archive (args : gmap string value) (gapi : GistAPI) : M unit :=
  gist_id <- arg args "<id>" ;;
  remote (CallArchive gist_id) (api_call gapi (CallArchive gist_id)).

Definition cmd_delete (args : gmap string value) (gapi : GistAPI) : M unit :=
  gist_ids <- arg args "<ids>" ;;
  gist_ids <- lift (iterate gist_ids) ;;
  for_each gist_ids (fun gist_id =>
    remote (CallDelete gist_id) (api_call gapi (CallDelete gist_id))).

Definition cmd_version : M unit :=
  py_print ("v" ++ gist_version w).

(** *** The [create] command *)

(** "If encryption is selected, perform an initial check". *)
Definition check_encryption (args : gmap string value) (config : Config) : M unit :=
  encrypt <- arg args "--encrypt" ;;
  if truthy encrypt then
    if negb (ConfigParser.has_option config "gist" "gnupg-homedir") then
      raise (GistError "gnupg-homedir missing from config file")
    else if negb (ConfigParser.has_option config "gist" "gnupg-fingerprint") then
      raise (GistError "gnupg-fingerprint missing from config file")
    else ret tt
  else ret tt.

(** One file named on the command line. *)
Definition read_file (path : string) : M FileInfo :=
  let name := path_basename w path in
  emit (EvReadFile path) ;;
  text <- lift (read_utf8 w path) ;;
  ret {| name := VStr name; content := text |}.

(** One file written in the editor. *)
Definition read_editor (args : gmap string value) (config : Config) (editor : string) : M (list FileInfo) :=
  let filename := dict_get_default args "<filename>" (VStr "file1.txt") in
  delete <- (if ConfigParser.has_option config "gist" "delete-tempfiles"
             then lift (ConfigParser.getboolean config "gist" "delete-tempfiles")
             else ret true) ;;
  fp_name <- lift (tmp_name w) ;;
  emit (EvTempFile fp_name delete) ;;
  let command := editor ++ " " ++ fp_name in
  emit (EvSystem command) ;;
  text <- lift (edited w command) ;;
  ret [ {| name := filename; content := text |} ].

(** One file read from standard input. *)
Definition read_stdin (args : gmap string value) : M (list FileInfo) :=
  let filename := dict_get_default args "<filename>" (VStr "file1.txt") in
  emit EvReadStdin ;;
  text <- lift (stdin_read w) ;;
  ret [ {| name := filename; content := text |} ].

(** "Retrieve the data to add to the gist". *)
Definition acquire (args : gmap string value) (config : Config) (editor : string) : M (list FileInfo) :=
  if stdin_isatty w then
    FILES <- arg args "FILES" ;;
    if truthy FILES then
      paths <- lift (iterate FILES) ;;
      map_m read_file paths
    else read_editor args config editor
  else read_stdin args.

(** "Ensure that there are no empty files". *)
Definition check_not_empty (files : list FileInfo) : M unit :=
  for_each files (fun file =>
    if PyStr.len (content file) =? 0 then
      raise (GistError ("'" ++ py_str (name file) ++ "' is empty"))
    else ret tt).

(** "Encrypt the files or leave them unmodified": the payload. *)
Definition encrypt_files (config : Config) (files : list FileInfo) : M (list (value * string)) :=
  fingerprint <- lift (ConfigParser.get config "gist" "gnupg-fingerprint") ;;
  gnupghome <- lift (ConfigParser.get config "gist" "gnupg-homedir") ;;
  fold_m (fun data file =>
            emit (EvEncrypt gnupghome (content file) fingerprint) ;;
            cypher <- lift (gpg_encrypt w gnupghome (content file) fingerprint) ;;
            ret (dict_set (VStr (py_str (name file) ++ ".asc")) cypher data))
         files [].

Definition plain_files (files : list FileInfo) : M (list (value * string)) :=
  fold_m (fun data file =>
            if hashable (name file) then ret (dict_set (name file) (content file) data)
            else raise (TypeError "unhashable type: 'list'"))
         files [].

(** What [create] does once the files are gathered. *)
Definition submit (args : gmap string value) (config : Config) (gapi : GistAPI) (files : list FileInfo) : M unit :=
  check_not_empty files ;;
  description <- arg args "<desc>" ;;
  public <- arg args "--public" ;;
  encrypt <- arg args "--encrypt" ;;
  data <- (if truthy encrypt then encrypt_files config files else plain_files files) ;;
  result <- remote (CallCreate description data public)
                   (api_create gapi description data public) ;;
  py_print result.

Definition cmd_create (args : gmap string value) (config : Config) (editor : string) (gapi : GistAPI) : M unit :=
  check_encryption args config ;;
  files <- acquire args config editor ;;
  submit args config gapi files.

(** *** [main] *)

(** The chain of [if args[command]: ...; return]. *)
Fixpoint dispatch (args : gmap string value) (table : list (string * M unit)) : M unit :=
  match table with
  | [] => ret tt
  | (command, routine) :: table' =>
      selected <- arg args command ;;
      if truthy selected then routine else dispatch args table'
  end.

Definition commands (args : gmap string value) (config : Config) (editor : string) (gapi : GistAPI) : list (string * M unit) :=
  [ ("list", cmd_list gapi);
    ("info", cmd_info args gapi);
    ("edit", cmd_edit args gapi);
    ("description", cmd_description args gapi);
    ("fork", cmd_fork args gapi);
    ("clone", cmd_clone args gapi);
    ("content", cmd_content args config gapi);
    ("files", cmd_files args gapi);
    ("archive", cmd_archive args gapi);
    ("delete", cmd_delete args gapi);
    ("version", cmd_version);
    ("create", cmd_create args config editor gapi) ].

(** [main(argv, config)], from the parsed arguments on. *)
Definition main (args : gmap string value) (config : option Config) : M unit :=
  started <- startup config ;;
  let '(config, editor, gapi) := started in
  dispatch args (commands args config editor gapi).

End Program.

(** ** A POSIX world to run the program in *)

Module Posix.

(** [posixpath.basename] *)
Fixpoint basename (p : string) : string :=
  match p with
  | EmptyString => EmptyString
  | String c p' =>
      if PyStr.contains "/"%char p' then basename p'
      else if Ascii.eqb c "/"%char then p' else p
  end.

Fixpoint endswith_slash (p : string) : bool :=
  match p with
  | EmptyString => false
  | String c EmptyString => Ascii.eqb c "/"%char
  | String _ p' => endswith_slash p'
  end.

(** [posixpath.join] of two components. *)
Definition join (a b : string) : string :=
  match b with
  | String "/"%char _ => b
  | _ => if (PyStr.is_empty a || endswith_slash a)%bool then a ++ b
         else a ++ "/" ++ b
  end.

(** [posixpath.expanduser] for the current user, whose home is [home]. *)
Definition expanduser (home path : string) : string :=
  match path with
  | String "~"%char EmptyString => home
  | String "~"%char (String "/"%char _ as rest) => home ++ rest
  | _ => path
  end.

End Posix.

Module Sample.

(** The dictionary the argument parser returns: every name of the usage
    text is a key; [given] holds what the command line supplied. *)
Definition parsed (given : list (string * value)) : gmap string value :=
  list_to_map
    (given ++
     [ ("list", VBool false); ("edit", VBool false); ("description", VBool false);
       ("info", VBool false); ("fork", VBool false); ("files", VBool false);
       ("delete", VBool false); ("archive", VBool false); ("content", VBool false);
       ("create", VBool false); ("clone", VBool false); ("version", VBool false);
       ("--decrypt", VBool false); ("--public", VBool false);
       ("--encrypt", VBool false); ("--filename", VBool false);
       ("<id>", VNone); ("<desc>", VNone); ("<filename>", VNone); ("<name>", VNone);
       ("<ids>", VList []); ("FILES", VList []) ])%list.

(** A remote that holds one gist with the files [stored]. *)
Definition api (stored : list (string * string)) : GistAPI :=
  {| api_list := inr [ {| gi_id := "abc123"; gi_public := true; gi_desc := Some "notes" |} ];
     api_info := fun _ => inr "{}";
     api_content := fun _ => inr stored;
     api_files := fun _ => inr (map fst stored);
     api_create := fun _ _ _ => inr "https://gist.github.com/abc123";
     api_call := fun _ => inr tt |}.

(** A machine: [tty] tells whether standard input is a terminal, [piped]
    is what standard input holds, [env] the environment, [present] the
    regular files that exist, [disk] the text of the user's files,
    [typed] what the user leaves in the editor, [config_file] what every
    configuration file parses to. *)
Definition world (tty : bool) (piped : string) (env : list (string * string))
    (present : list string) (disk : list (string * string)) (typed : string)
    (config_file : Config) (stored : list (string * string)) : World :=
  {| os_sep := "/";
     expanduser := Posix.expanduser "/home/user";
     path_join := Posix.join;
     path_basename := Posix.basename;
     path_isfile := fun p => existsb (String.eqb p) present;
     path_exists := fun p => existsb (String.eqb p) present;
     environ := list_to_map env;
     terminal_width := if tty then Some 80 else None;
     stdin_isatty := tty;
     stdin_read := inr piped;
     stdout_encodable := fun _ => true;
     read_config := fun p =>
       if existsb (String.eqb p) present then inr config_file
       else inl ("No such file or directory: " ++ p);
     read_utf8 := fun p =>
       match ConfigParser.assoc p disk with
       | Some text => inr text
       | None => inl (OtherError ("No such file or directory: " ++ p))
       end;
     tmp_name := inr "/tmp/tmpgist";
     edited := fun _ => inr typed;
     gpg_encrypt := fun _ text fingerprint => inr ("gpg(" ++ fingerprint ++ "," ++ text ++ ")");
     gpg_decrypt := fun _ text => inr ("plain(" ++ text ++ ")");
     gist_version := "0.10.6";
     gist_api := fun _ _ => api stored |}.

(** A configuration with a token and an editor. *)
Definition config : Config :=
  {[ "gist" := {[ "token" := "t0ken"; "editor" := "vim" ]} ]}.

(** A configuration with a token only. *)
Definition config_token_only : Config :=
  {[ "gist" := {[ "token" := "t0ken" ]} ]}.

(** A configuration without the [gist] section. *)
Definition config_no_section : Config :=
  {[ "other" := {[ "token" := "t0ken" ]} ]}.

End Sample.

(** ** Invocations and events, by kind *)

(** The commands [main] tests before [create]. *)
Definition before_create : list string :=
  ["list"; "info"; "edit"; "description"; "fork"; "clone"; "content";
   "files"; "archive"; "delete"; "version"].

(** [args[command]] is there and false. *)
Definition unselected (args : gmap string value) (command : string) : bool :=
  match args !! command with
  | Some v => negb (truthy v)
  | None => false
  end.

(** [args[command]] is there and true. *)
Definition selected (args : gmap string value) (command : string) : bool :=
  match args !! command with
  | Some v => truthy v
  | None => false
  end.

(** The invocation is a [create]: no earlier command is selected. *)
Definition create_selected (args : gmap string value) : bool :=
  forallb (unselected args) before_create && selected args "create".

(** The events that read content to submit. *)
Definition reads_content (ev : Event) : bool :=
  match ev with
  | EvReadFile _ | EvTempFile _ _ | EvSystem _ | EvReadStdin => true
  | _ => false
  end.

Definition is_remote (ev : Event) : bool :=
  match ev with
  | EvRemote _ => true
  | _ => false
  end.

(** ** The entry point *)

(** How the process ends: normally, through the [GistError] handler with
    what it writes to the error stream, or through the handler of every
    other exception, which hands it to the logger. *)
Inductive Exit : Type :=
| ExitOk
| ExitGist (stderr : string)
| ExitLogged (e : exn).

Definition exit_status (x : Exit) : Z :=
  match x with
  | ExitOk => 0
  | ExitGist _ | ExitLogged _ => 1
  end.

(** [if __name__ == "__main__"]: [main()], with no configuration object,
    under its two handlers. *)
Definition script (w : World) (args : gmap string value) : list Event * Exit :=
  match main w args None with
  | (log, inr _) => (log, ExitOk)
  | (log, inl (GistError msg)) => (log, ExitGist ("GIST: " ++ msg ++ PyStr.nl))
  | (log, inl e) => (log, ExitLogged e)
  end.

(** ** The command line *)

(** [docopt.docopt] on the usage text of the module (lines 8 to 20): the
    command line is cut into positional arguments and options, a request
    for help or for the version is served, and the rest is matched
    against the pattern of the usage text. *)
Module Docopt.

(** An option the parser knows: one the usage text names, or one it met
    on the command line.  No option of the usage text has a short name,
    so an option with a short name is one met on the command line: it
    has no long name and takes no argument. *)
Inductive spec : Type :=
| Long (long : string) (argcount : nat)
| Short (short : string).

(** An element of the parsed command line: [Argument(None, v)], or
    [Option] under its name with its value, [True] when it has none. *)
Inductive token : Type :=
| Arg (v : string)
| Opt (name : string) (v : value).

#[global] Instance token_eq_dec : EqDecision token.
Proof. solve_decision. Defined.

(** [token.partition('=')]: the text before the first [=], and the text
    after it when there is one. *)
Fixpoint partition_eq (s : string) : string * option string :=
  match s with
  | EmptyString => (EmptyString, None)
  | String c s' =>
      if Ascii.eqb c "="%char then (EmptyString, Some s')
      else let '(long, value) := partition_eq s' in (String c long, value)
  end.

(** The options with a long name, with their number of arguments. *)
Definition longs (options : list spec) : list (string * nat) :=
  flat_map (fun o => match o with Long long n => [(long, n)] | Short _ => [] end) options.

Definition shorts (options : list spec) : list string :=
  flat_map (fun o => match o with Short short => [short] | Long _ _ => [] end) options.

(** What [parse_long] does with one element of the command line: it
    raises, or gives an option (and may have learnt a new one), or has
    to take the next element as the option's argument. *)
Inductive long_result : Type :=
| LongError (message : string)
| LongOption (options : list spec) (t : token)
| LongArgument (name : string).

Definition parse_long (options : list spec) (tok : string) : long_result :=
  let '(long, value) := partition_eq tok in
  let exact := List.filter (fun o => String.eqb (fst o) long) (longs options) in
  let similar :=
    match exact with
    | [] => List.filter (fun o => String.prefix long (fst o)) (longs options)
    | _ :: _ => exact
    end in
  match similar with
  | _ :: _ :: _ =>
      LongError (long ++ " is not a unique prefix: "
                 ++ PyStr.join ", " (map fst similar) ++ "?")
  | [] =>
      match value with
      | Some v => LongOption (options ++ [Long long 1]) (Opt long (VStr v))
      | None => LongOption (options ++ [Long long 0]) (Opt long (VBool true))
      end
  | [(name, O)] =>
      match value with
      | Some _ => LongError (name ++ " must not have an argument")
      | None => LongOption options (Opt name (VBool true))
      end
  | [(name, S _)] =>
      match value with
      | Some v => LongOption options (Opt name (VStr v))
      | None => LongArgument name
      end
  end.

(** [parse_shorts] on the text after the dash: one option for each
    character. *)
Fixpoint parse_shorts (options : list spec) (left : string) : list spec * list token :=
  match left with
  | EmptyString => (options, [])
  | String c left' =>
      let short := String "-"%char (String c EmptyString) in
      let options' :=
        if existsb (String.eqb short) (shorts options) then options
        else (options ++ [Short short])%list in
      let '(options'', parsed) := parse_shorts options' left' in
      (options'', Opt short (VBool true) :: parsed)
  end.

(** [token.lstrip('-')] *)
Fixpoint lstrip_dash (s : string) : string :=
  match s with
  | EmptyString => EmptyString
  | String c s' => if Ascii.eqb c "-"%char then lstrip_dash s' else s
  end.

Definition on_parsed (f : list token -> list token) (r : string + list token)
    : string + list token :=
  match r with
  | inl message => inl message
  | inr parsed => inr (f parsed)
  end.

(** [parse_argv], with [options_first] false: the elements of the
    command line in order; a message is the one of the error raised. *)
Fixpoint parse_argv (options : list spec) (argv : list string) : string + list token :=
  match argv with
  | [] => inr []
  | tok :: rest =>
      if String.eqb tok "--" then inr (map Arg argv)
      else if String.prefix "--" tok then
        match parse_long options tok with
        | LongError message => inl message
        | LongOption options' t => on_parsed (cons t) (parse_argv options' rest)
        | LongArgument name =>
            match rest with
            | [] => inl (name ++ " requires argument")
            | v :: rest' =>
                if String.eqb v "--" then inl (name ++ " requires argument")
                else on_parsed (cons (Opt name (VStr v))) (parse_argv options rest')
            end
        end
      else if String.prefix "-" tok && negb (String.eqb tok "-") then
        let '(options', parsed) := parse_shorts options (lstrip_dash tok) in
        on_parsed (app parsed) (parse_argv options' rest)
      else on_parsed (cons (Arg tok)) (parse_argv options rest)
  end.

(** How [docopt] leaves the program: [DocoptExit] with the message that
    precedes the usage text, or [sys.exit()] after printing the
    documentation or the version. *)
Inductive SystemExit : Type :=
| DocoptExit (message : string)
| ExitHelp
| ExitVersion (version : string).

Definition asks (names : list string) (t : token) : bool :=
  match t with
  | Opt name v => existsb (String.eqb name) names && truthy v
  | Arg _ => false
  end.

(** [extras], with [help] true. *)
Definition extras (version : string) (parsed : list token) : option SystemExit :=
  if existsb (asks ["-h"; "--help"]) parsed then Some ExitHelp
  else if negb (PyStr.is_empty version) && existsb (asks ["--version"]) parsed
       then Some (ExitVersion version)
       else None.

(** A usage pattern.  An argument that occurs more than once in one
    case of the usage accumulates a list: [repeating] says so. *)
#[warnings="-register-all"] Inductive pattern : Type :=
| Command (name : string)
| Argument (name : string) (repeating : bool)
| Option (name : string)
| Required (children : list pattern)
| Optional (children : list pattern)
| OneOrMore (child : pattern)
| Either (children : list pattern).

(** [Command.single_match]: the first positional argument, when it is
    the command's name; the result is the command line without it. *)
Fixpoint single_command (name : string) (left : list token) : option (list token) :=
  match left with
  | [] => None
  | Arg v :: rest => if String.eqb v name then Some rest else None
  | t :: rest =>
      match single_command name rest with
      | Some rest' => Some (t :: rest')
      | None => None
      end
  end.

(** [Argument.single_match]: the first positional argument. *)
Fixpoint single_argument (left : list token) : option (string * list token) :=
  match left with
  | [] => None
  | Arg v :: rest => Some (v, rest)
  | t :: rest =>
      match single_argument rest with
      | Some (v, rest') => Some (v, t :: rest')
      | None => None
      end
  end.

(** [Option.single_match]: the first option of that name. *)
Fixpoint single_option (name : string) (left : list token) : option (value * list token) :=
  match left with
  | [] => None
  | t :: rest =>
      let later :=
        match single_option name rest with
        | Some (v, rest') => Some (v, t :: rest')
        | None => None
        end in
      match t with
      | Opt n v => if String.eqb name n then Some (v, rest) else later
      | Arg _ => later
      end
  end.

(** What is collected for a repeating argument: a new list, or one more
    element in the list already collected under the name. *)
Fixpoint accumulate (name v : string) (collected : list (string * value))
    : list (string * value) :=
  match collected with
  | [] => [(name, VList [v])]
  | (n, x) :: rest =>
      if String.eqb n name
      then (n, match x with VList l => VList (l ++ [v]) | _ => x end) :: rest
      else (n, x) :: accumulate name v rest
  end.

Definition outcome : Type := bool * list token * list (string * value).

Definition remaining (o : outcome) : list token := snd (fst o).

(** [min(outcomes, key=lambda outcome: len(outcome[1]))]: the first of
    the outcomes that leave the fewest elements. *)
Fixpoint fewest (best : outcome) (outcomes : list outcome) : outcome :=
  match outcomes with
  | [] => best
  | o :: outcomes' =>
      fewest (if (length (remaining o) <? length (remaining best))%nat then o else best)
             outcomes'
  end.

(** The [match] methods of the patterns with children, over the
    [match] of the children: [left] and [collected] are what the method
    was called with. *)
Section Children.

Variable child_match : pattern -> list token -> list (string * value) -> outcome.
Variable left : list token.
Variable collected : list (string * value).

(** [Required.match]: every child in turn, or nothing. *)
Fixpoint Required_match (children : list pattern) (l : list token)
    (c : list (string * value)) : outcome :=
  match children with
  | [] => (true, l, c)
  | p :: children' =>
      let '(matched, l', c') := child_match p l c in
      if matched then Required_match children' l' c' else (false, left, collected)
  end.

(** [Optional.match]: every child in turn, matched or not. *)
Fixpoint Optional_match (children : list pattern) (l : list token)
    (c : list (string * value)) : outcome :=
  match children with
  | [] => (true, l, c)
  | p :: children' =>
      let '(_, l', c') := child_match p l c in Optional_match children' l' c'
  end.

(** [OneOrMore.match]: the child again and again, until it fails or
    removes nothing.  A round that is followed by another one has
    matched and, from the second round on, has removed an element: the
    rounds given by [pmatch], two more than the length of [left], are
    never used up. *)
Fixpoint OneOrMore_match (child : pattern) (rounds : nat) (l : list token)
    (c : list (string * value)) (l_ : option (list token)) (times : nat) : outcome :=
  match rounds with
  | O => if (1 <=? times)%nat then (true, l, c) else (false, left, collected)
  | S rounds' =>
      let '(matched, l', c') := child_match child l c in
      let times' := if matched then S times else times in
      if bool_decide (l_ = Some l') || negb matched
      then if (1 <=? times')%nat then (true, l', c') else (false, left, collected)
      else OneOrMore_match child rounds' l' c' (Some l') times'
  end.

(** The outcomes of the children of [Either] that match. *)
Fixpoint outcomes (children : list pattern) : list outcome :=
  match children with
  | [] => []
  | p :: children' =>
      let o := child_match p left collected in
      if fst (fst o) then o :: outcomes children' else outcomes children'
  end.

(** [Either.match] *)
Definition Either_match (children : list pattern) : outcome :=
  match outcomes children with
  | [] => (false, left, collected)
  | o :: others => fewest o others
  end.

End Children.

(** [pattern.match(left, collected)] *)
Fixpoint pmatch (p : pattern) (left : list token) (collected : list (string * value))
    {struct p} : outcome :=
  match p with
  | Command name =>
      match single_command name left with
      | Some left' => (true, left', (collected ++ [(name, VBool true)])%list)
      | None => (false, left, collected)
      end
  | Argument name repeating =>
      match single_argument left with
      | Some (v, left') =>
          (true, left',
           if repeating then accumulate name v collected
           else (collected ++ [(name, VStr v)])%list)
      | None => (false, left, collected)
      end
  | Option name =>
      match single_option name left with
      | Some (v, left') => (true, left', (collected ++ [(name, v)])%list)
      | None => (false, left, collected)
      end
  | Required children => Required_match pmatch left collected children left collected
  | Optional children => Optional_match pmatch children left collected
  | OneOrMore child =>
      OneOrMore_match pmatch left collected child (S (S (length left))) left collected None O
  | Either children => Either_match pmatch left collected children
  end.

(** [pattern.flat()]: the names of the pattern with the values they have
    when nothing matches them. *)
Fixpoint flat (p : pattern) : list (string * value) :=
  match p with
  | Command name => [(name, VBool false)]
  | Argument name repeating => [(name, if repeating then VList [] else VNone)]
  | Option name => [(name, VBool false)]
  | Required children | Optional children | Either children => flat_map flat children
  | OneOrMore child => flat child
  end.

(** [Dict(items)]: a later item replaces an earlier one of the same
    name. *)
Definition Dict (items : list (string * value)) : gmap string value :=
  fold_left (fun d item => <[fst item := snd item]> d) items ∅.

(** The pattern of the usage text, lines 8 to 20. *)
Definition usage : pattern :=
  Required [Either [
    Required [Command "list"];
    Required [Command "edit"; Argument "<id>" false];
    Required [Command "description"; Argument "<id>" false; Argument "<desc>" false];
    Required [Command "info"; Argument "<id>" false];
    Required [Command "fork"; Argument "<id>" false];
    Required [Command "files"; Argument "<id>" false];
    Required [Command "delete"; OneOrMore (Argument "<ids>" true)];
    Required [Command "archive"; Argument "<id>" false];
    Required [Command "content"; Argument "<id>" false;
              Optional [Argument "<filename>" false]; Optional [Option "--decrypt"]];
    Required [Command "create"; Argument "<desc>" false;
              Optional [Option "--public"]; Optional [Option "--encrypt"];
              Optional [OneOrMore (Argument "FILES" true)]];
    Required [Command "create"; Argument "<desc>" false;
              Optional [Option "--public"]; Optional [Option "--encrypt"];
              Optional [Option "--filename"; Argument "<filename>" false]];
    Required [Command "clone"; Argument "<id>" false; Optional [Argument "<name>" false]];
    Required [Command "version"]]].

(** The options of the usage text, in the order it names them: there is
    no section that describes options, so none takes an argument. *)
Definition usage_options : list spec :=
  [Long "--decrypt" 0; Long "--public" 0; Long "--encrypt" 0; Long "--filename" 0].

(** [docopt.docopt(__doc__, argv=argv, version=version)] *)
Definition docopt (version : string) (argv : list string)
    : SystemExit + gmap string value :=
  match parse_argv usage_options argv with
  | inl message => inl (DocoptExit message)
  | inr parsed =>
      match extras version parsed with
      | Some exit => inl exit
      | None =>
          let '(matched, rest, collected) := pmatch usage parsed [] in
          if matched && bool_decide (rest = [])
          then inr (Dict (flat usage ++ collected))
          else inl (DocoptExit "")
      end
  end.

End Docopt.

(** [main(argv, config)] from the command line: the call of line 304,
    then the rest of the function on what it returns. *)
Definition main_from_argv (w : World) (argv : list string) (config : option Config)
    : Docopt.SystemExit + M unit :=
  match Docopt.docopt ("gist-v" ++ gist_version w) argv with
  | inl exit => inl exit
  | inr args => inr (main w args config)
  end.

(** ** Command lines and patterns, by kind *)

(** The positional arguments of a parsed command line. *)
Definition arguments (parsed : list Docopt.token) : list string :=
  flat_map (fun t => match t with Docopt.Arg v => [v] | Docopt.Opt _ _ => [] end) parsed.

(** Whether the pattern names the option. *)
Fixpoint names_option (n : string) (p : Docopt.pattern) : bool :=
  match p with
  | Docopt.Option name => String.eqb name n
  | Docopt.Command _ | Docopt.Argument _ _ => false
  | Docopt.Required children | Docopt.Optional children | Docopt.Either children =>
      existsb (names_option n) children
  | Docopt.OneOrMore child => names_option n child
  end.

(** Whether the pattern has no repetition. *)
Fixpoint repeats_nothing (p : Docopt.pattern) : bool :=
  match p with
  | Docopt.Command _ | Docopt.Argument _ _ | Docopt.Option _ => true
  | Docopt.Required children | Docopt.Optional children | Docopt.Either children =>
      forallb repeats_nothing children
  | Docopt.OneOrMore _ => false
  end.

(** The commands and arguments of the pattern, counted. *)
Fixpoint arity (p : Docopt.pattern) : nat :=
  match p with
  | Docopt.Command _ | Docopt.Argument _ _ => 1
  | Docopt.Option _ => 0
  | Docopt.Required children | Docopt.Optional children | Docopt.Either children =>
      list_sum (map arity children)
  | Docopt.OneOrMore child => arity child
  end.

(** An element of the command line that does not look like an option: a
    dash alone, or a text that does not start with a dash. *)
Definition positional (s : string) : bool :=
  negb (String.prefix "-" s) || String.eqb s "-".

(** [left'] still holds the options of name [n] that [left] holds. *)
Definition keeps (n : string) (left left' : list Docopt.token) : Prop :=
  forall v, In (Docopt.Opt n v) left -> In (Docopt.Opt n v) left'.

(** [left'] is [left], or is shorter. *)
Definition shrinks (left left' : list Docopt.token) : Prop :=
  left' = left \/ (length left' < length left)%nat.

(** ** Reading logs and payloads *)

(** The remote calls of a log, in order. *)
Fixpoint remote_calls (log : list Event) : list RemoteCall :=
  match log with
  | [] => []
  | EvRemote call :: log' => call :: remote_calls log'
  | _ :: log' => remote_calls log'
  end.

(** The texts printed in a log, in order. *)
Fixpoint printed (log : list Event) : list string :=
  match log with
  | [] => []
  | EvPrint text :: log' => text :: printed log'
  | _ :: log' => printed log'
  end.

(** [d.get(k)] on an ordered dictionary. *)
Fixpoint dict_lookup {K V : Type} `{EqDecision K} (k : K) (d : list (K * V)) : option V :=
  match d with
  | [] => None
  | (k', v) :: d' => if decide (k = k') then Some v else dict_lookup k d'
  end.

(** The line [list] builds for a gist, before it is elided. *)
Definition list_line (info : GistInfo) : string :=
  gi_id info ++ " " ++ (if gi_public info then "+" else "-") ++ " "
  ++ match gi_desc info with None => "" | Some d => d end.



(** ** Facts about the presentation helper *)

Example elide_short : elide "abcdef" (Some 10) = "abcdef".
Proof. reflexivity. Qed.

Example elide_long : elide "abcdefghij" (Some 7) = "abcd...".
Proof. reflexivity. Qed.

Example elide_narrow : elide "abcdefghij" (Some 3) = "abcdefghij".
Proof. reflexivity. Qed.

Example elide_no_terminal : elide "abcdefghij" None = "abcdefghij".
Proof. reflexivity. Qed.

Lemma str_length_take (n : nat) (s : string) :
  String.length (PyStr.take n s) = Nat.min n (String.length s).
Proof.
  revert s; induction n as [|n IH]; intros [|c s]; simpl; auto.
Qed.

Lemma str_length_app (s t : string) :
  String.length (s ++ t) = (String.length s + String.length t)%nat.
Proof. induction s as [|c s IH]; simpl; auto. Qed.

(** A text that was cut fills the width exactly. *)
Lemma len_elided (txt : string) (w : Z) :
  3 < w -> w < PyStr.len txt ->
  PyStr.len (PyStr.slice_to txt (w - 3) ++ "...") = w.
Proof.
  intros Hw Hlen. unfold PyStr.slice_to, PyStr.len in *.
  destruct (Z.ltb_spec (w - 3) 0) as [Hneg|_]; [lia|].
  rewrite str_length_app, str_length_take. simpl. lia.
Qed.

(** C9. [elide] is idempotent: eliding an already elided text to the same
    width (a number, or no width at all) changes nothing. *)
Theorem elide_idempotent (txt : string) (width : option Z) :
  elide (elide txt width) width = elide txt width.
Proof.
  destruct width as [w|]; [|reflexivity].
  unfold elide.
  destruct (Z.ltb_spec 3 w) as [Hw|Hw]; [|reflexivity].
  destruct (Z.ltb_spec w (PyStr.len txt)) as [Hlen|Hlen].
  - rewrite (len_elided txt w Hw Hlen), Z.ltb_irrefl. reflexivity.
  - destruct (Z.ltb_spec w (PyStr.len txt)); [lia | reflexivity].
Qed.

(** ** Facts about computations *)

Lemma run_eta {A : Type} (c : M A) : c = (log_of c, result_of c).
Proof. destruct c; reflexivity. Qed.

Lemma bind_ok {A B : Type} (c : M A) (k : A -> M B) (a : A) :
  result_of c = inr a ->
  bind c k = ((log_of c ++ log_of (k a))%list, result_of (k a)).
Proof.
  destruct c as [log [e|a']]; simpl; intros H; inversion H; subst.
  destruct (k a); reflexivity.
Qed.

Lemma bind_err {A B : Type} (c : M A) (k : A -> M B) (e : exn) :
  result_of c = inl e -> bind c k = (log_of c, inl e).
Proof.
  destruct c as [log [e'|a]]; simpl; intros H; inversion H; subst; reflexivity.
Qed.

Lemma bind_ret {A B : Type} (a : A) (k : A -> M B) : bind (ret a) k = k a.
Proof. unfold bind, ret. destruct (k a); reflexivity. Qed.

Lemma bind_raise {A B : Type} (e : exn) (k : A -> M B) : bind (raise e) k = raise e.
Proof. reflexivity. Qed.

Lemma bind_lift {A B : Type} (r : exn + A) (k : A -> M B) :
  bind (lift r) k = match r with inl e => raise e | inr a => k a end.
Proof. destruct r as [e|a]; [reflexivity|]. apply (bind_ret a k). Qed.

Lemma log_of_bind {A B : Type} (c : M A) (k : A -> M B) :
  log_of (bind c k) =
    match result_of c with
    | inl _ => log_of c
    | inr a => (log_of c ++ log_of (k a))%list
    end.
Proof.
  destruct c as [log [e|a]]; simpl; [reflexivity|]. destruct (k a); reflexivity.
Qed.

Lemma result_of_bind {A B : Type} (c : M A) (k : A -> M B) :
  result_of (bind c k) =
    match result_of c with
    | inl e => inl e
    | inr a => result_of (k a)
    end.
Proof.
  destruct c as [log [e|a]]; simpl; [reflexivity|]. destruct (k a); reflexivity.
Qed.

(** ** The configuration file *)

Example config_location_home_only :
  config_location (Sample.world true "" [] ["/home/user/.gist"] [] "" Sample.config [])
  = "/home/user/.gist".
Proof. reflexivity. Qed.

Example config_location_dot_config :
  config_location
    (Sample.world true "" [] ["/home/user/.gist"; "/home/user/.config/gist"] [] ""
       Sample.config [])
  = "/home/user/.config/gist".
Proof. reflexivity. Qed.

Example config_location_xdg :
  config_location
    (Sample.world true "" [("XDG_DATA_HOME", "/data")]
       ["/home/user/.config/gist"; "/data/gist"] [] "" Sample.config [])
  = "/data/gist".
Proof. vm_compute. reflexivity. Qed.

(** C3, as stated, fails: when [~/.config/gist] and [$XDG_DATA_HOME/gist]
    are both regular files, the file under [$XDG_DATA_HOME] is the one
    used, not [~/.config/gist]. *)
Lemma xdg_data_overrides_dot_config :
  ~ (forall w : World,
       let dot_config := expanduser w (PyStr.join (os_sep w) ["~"; ".config"; "gist"]) in
       path_isfile w dot_config = true ->
       config_location w = dot_config).
Proof.
  intros H.
  specialize
    (H (Sample.world true "" [("XDG_DATA_HOME", "/data")]
          ["/home/user/.config/gist"; "/data/gist"] [] "" Sample.config [])).
  vm_compute in H. specialize (H eq_refl). discriminate H.
Qed.

(** C3, amended. With no configuration object from the caller, the file
    opened is [$XDG_DATA_HOME/gist] if that variable, stripped of
    surrounding white space, is not empty and the path is a regular file;
    else [~/.config/gist] if it is a regular file; else [~/.gist]. *)
Theorem config_location_order (w : World) :
  let home_path := fun parts => expanduser w (PyStr.join (os_sep w) ("~" :: parts)) in
  let xdg := PyStr.strip (dict_get_default (environ w) "XDG_DATA_HOME" "") in
  let chosen :=
    if (negb (PyStr.is_empty xdg) && path_isfile w (path_join w xdg "gist"))%bool
    then path_join w xdg "gist"
    else if path_isfile w (home_path [".config"; "gist"])
         then home_path [".config"; "gist"]
         else home_path [".gist"] in
  config_location w = chosen /\
  log_of (load_config w None) = [EvOpenConfig chosen].
Proof.
  cbv zeta.
  assert (Hloc : config_location w =
    if (negb (PyStr.is_empty (PyStr.strip (dict_get_default (environ w) "XDG_DATA_HOME" "")))
        && path_isfile w (path_join w
             (PyStr.strip (dict_get_default (environ w) "XDG_DATA_HOME" "")) "gist"))%bool
    then path_join w (PyStr.strip (dict_get_default (environ w) "XDG_DATA_HOME" "")) "gist"
    else if path_isfile w (expanduser w (PyStr.join (os_sep w) ["~"; ".config"; "gist"]))
         then expanduser w (PyStr.join (os_sep w) ["~"; ".config"; "gist"])
         else expanduser w (PyStr.join (os_sep w) ["~"; ".gist"])).
  { unfold config_location, xdg_data_config, alternative_config.
    destruct (PyStr.is_empty _); simpl; [reflexivity|].
    destruct (path_isfile w (path_join w _ _)); reflexivity. }
  split; [exact Hloc|].
  unfold load_config. rewrite <- Hloc.
  destruct (read_config w (config_location w)); reflexivity.
Qed.

(** ** The editor *)

Example editor_from_config :
  editor_chain
    (Sample.world true "" [("EDITOR", "nano")] ["/usr/bin/editor"] [] "" Sample.config [])
    Sample.config
  = inr (Some "vim").
Proof. reflexivity. Qed.

Example editor_from_environment :
  editor_chain
    (Sample.world true "" [("EDITOR", " nano ")] ["/usr/bin/editor"] [] ""
       Sample.config_token_only [])
    Sample.config_token_only
  = inr (Some "nano").
Proof. vm_compute. reflexivity. Qed.

Example editor_from_alternatives :
  editor_chain
    (Sample.world true "" [] ["/usr/bin/editor"] [] "" Sample.config_token_only [])
    Sample.config_token_only
  = inr (Some "/usr/bin/editor").
Proof. reflexivity. Qed.

Example editor_not_found :
  resolve_editor
    (Sample.world true "" [] [] [] "" Sample.config_token_only [])
    Sample.config_token_only
  = raise (ValueError "Unable to find an editor.").
Proof. reflexivity. Qed.

(** Interpolation leaves a value without [%] as it is. *)
Lemma scan_plain (expand : string -> exn + string) (option section rawval : string)
    (map : gmap string string) (text : string) :
  PyStr.contains "%"%char text = false ->
  ConfigParser.scan_from expand option section rawval map ConfigParser.Text text = inr text.
Proof.
  induction text as [|c text IH]; [reflexivity|]. intros Hplain.
  cbn [PyStr.contains] in Hplain. apply orb_false_iff in Hplain.
  destruct Hplain as [Hc Htext]. rewrite Ascii.eqb_sym in Hc.
  cbn [ConfigParser.scan_from]. rewrite Hc, (IH Htext). reflexivity.
Qed.

(** Interpolation fails with interpolation errors only. *)
Lemma scan_errors (expand : string -> exn + string) (option section rawval : string)
    (map : gmap string string) :
  (forall v e, expand v = inl e -> ConfigParser.is_InterpolationError e = true) ->
  forall (text : string) (state : ConfigParser.scan) (e : exn),
    ConfigParser.scan_from expand option section rawval map state text = inl e ->
    ConfigParser.is_InterpolationError e = true.
Proof.
  intros Hexpand. induction text as [|c text IH]; intros state e.
  - destruct state; simpl; intros H; inversion H; reflexivity.
  - destruct state as [|rest|rest name|rest name]; simpl.
    + destruct (Ascii.eqb c "%"%char); [apply IH|].
      destruct (ConfigParser.scan_from _ _ _ _ _ ConfigParser.Text text) eqn:Hrest;
        simpl; intros H; inversion H; subst. apply (IH _ _ Hrest).
    + destruct (Ascii.eqb c "%"%char).
      * destruct (ConfigParser.scan_from _ _ _ _ _ ConfigParser.Text text) eqn:Hrest;
          simpl; intros H; inversion H; subst. apply (IH _ _ Hrest).
      * destruct (Ascii.eqb c "("%char); [apply IH|].
        intros H; inversion H; reflexivity.
    + destruct (Ascii.eqb c ")"%char); [|apply IH].
      destruct (PyStr.is_empty name); [|apply IH].
      intros H; inversion H; reflexivity.
    + destruct (Ascii.eqb c "s"%char); [|intros H; inversion H; reflexivity].
      destruct (map !! PyStr.lower name) as [v|]; [|intros H; inversion H; reflexivity].
      destruct (PyStr.contains "%"%char v).
      * destruct (expand v) as [e'|expanded] eqn:Hv.
        { intros H; inversion H; subst. apply (Hexpand _ _ Hv). }
        destruct (ConfigParser.scan_from _ _ _ _ _ ConfigParser.Text text) eqn:Hrest;
          simpl; intros H; inversion H; subst. apply (IH _ _ Hrest).
      * destruct (ConfigParser.scan_from _ _ _ _ _ ConfigParser.Text text) eqn:Hrest;
          simpl; intros H; inversion H; subst. apply (IH _ _ Hrest).
Qed.

Lemma interpolate_errors (levels : nat) (option section rawval : string)
    (map : gmap string string) (value : string) (e : exn) :
  ConfigParser.interpolate_some levels option section rawval map value = inl e ->
  ConfigParser.is_InterpolationError e = true.
Proof.
  revert value e. induction levels as [|levels IH]; intros value e; simpl.
  - intros H; inversion H; reflexivity.
  - apply scan_errors. exact IH.
Qed.

(** [get] on a stored value without [%] returns the value. *)
Lemma get_plain (config : Config) (opts : gmap string string)
    (section option value : string) :
  config !! section = Some opts ->
  opts !! option = Some value ->
  PyStr.contains "%"%char value = false ->
  ConfigParser.get config section option = inr value.
Proof.
  intros Hsec Hopt Hplain. unfold ConfigParser.get. rewrite Hsec, Hopt.
  apply scan_plain, Hplain.
Qed.

(** What [get] returns, [has_option] announces. *)
Lemma get_has_option (config : Config) (section option value : string) :
  ConfigParser.get config section option = inr value ->
  ConfigParser.has_option config section option = true.
Proof.
  unfold ConfigParser.get, ConfigParser.has_option.
  destruct (config !! section) as [opts|]; [|discriminate].
  destruct (opts !! option); [|discriminate].
  intros _. apply bool_decide_eq_true_2. eexists. reflexivity.
Qed.

(** With a [gist] section, [configuration_editor] returns the interpolated
    [editor] key, or fails on its interpolation, or else returns the
    default it was given. *)
Lemma configuration_editor_section (config : Config) (opts : gmap string string)
    (default : option string) :
  config !! "gist" = Some opts ->
  configuration_editor config default =
    match opts !! "editor" with
    | Some raw =>
        ConfigParser.on_ok Some
          (ConfigParser.interpolate_some ConfigParser.MAX_INTERPOLATION_DEPTH
             "editor" "gist" raw opts raw)
    | None => inr default
    end.
Proof.
  intros Hsec. unfold configuration_editor, ConfigParser.get. rewrite Hsec.
  destruct (opts !! "editor") as [raw|]; [|reflexivity].
  destruct (ConfigParser.interpolate_some _ _ _ _ _ _) as [e|editor] eqn:Hget;
    [|reflexivity].
  apply interpolate_errors in Hget. destruct e; try discriminate Hget; reflexivity.
Qed.

(** Without a [gist] section, [configuration_editor] raises. *)
Lemma configuration_editor_no_section (config : Config) (default : option string) :
  config !! "gist" = None ->
  configuration_editor config default = inl (NoSectionError "gist").
Proof.
  intros Hsec. unfold configuration_editor, ConfigParser.get. rewrite Hsec. reflexivity.
Qed.

(** C8, as stated, fails: an [EDITOR] of white space only is not empty,
    yet it is not the resolved editor; [/usr/bin/editor] is. *)
Lemma blank_EDITOR_is_not_used :
  ~ (forall (w : World) (config : Config) (opts : gmap string string) (v : string),
       config !! "gist" = Some opts ->
       opts !! "editor" = None ->
       environ w !! "EDITOR" = Some v ->
       v <> "" ->
       editor_chain w config = inr (Some v)).
Proof.
  intros H.
  specialize
    (H (Sample.world true "" [("EDITOR", " ")] ["/usr/bin/editor"] [] ""
          Sample.config_token_only [])
       Sample.config_token_only {[ "token" := "t0ken" ]} " ").
  assert (Hrun : inr (Some "/usr/bin/editor") = inr (B := option string) (A := exn) (Some " ")).
  { rewrite <- H; [vm_compute; reflexivity | reflexivity | reflexivity | reflexivity
                  | discriminate]. }
  discriminate Hrun.
Qed.

(** C8, amended. For a configuration that has a [gist] section, the
    resolved editor is what [config.get] returns for the [editor] key of
    that section if the key is present: the stored text after
    interpolation, which is the stored text itself when it holds no [%];
    if its interpolation fails, that error leaves [main].  Else it is the
    value of [EDITOR] stripped of surrounding white space, if that is not
    empty; else [/usr/bin/editor] if it exists; else there is none, and
    [main] raises [ValueError('Unable to find an editor.')].  Both
    failures end [main] right after the configuration is loaded, for
    every command and every command line that the parser accepts. *)
Theorem editor_precedence (w : World) (config0 : option Config) (config : Config)
    (opts : gmap string string) :
  result_of (load_config w config0) = inr config ->
  config !! "gist" = Some opts ->
  let from_environment := PyStr.strip (dict_get_default (environ w) "EDITOR" "") in
  let fallback :=
    if negb (PyStr.is_empty from_environment) then Some from_environment
    else if path_exists w "/usr/bin/editor" then Some "/usr/bin/editor"
    else None in
  let resolved : exn + option string :=
    match opts !! "editor" with
    | Some raw =>
        ConfigParser.on_ok Some
          (ConfigParser.interpolate_some ConfigParser.MAX_INTERPOLATION_DEPTH
             "editor" "gist" raw opts raw)
    | None => inr fallback
    end in
  editor_chain w config = resolved /\
  (forall raw : string,
     opts !! "editor" = Some raw -> PyStr.contains "%"%char raw = false ->
     resolved = inr (Some raw)) /\
  resolve_editor w config =
    match resolved with
    | inl e => raise e
    | inr (Some editor) => ret editor
    | inr None => raise (ValueError "Unable to find an editor.")
    end /\
  (forall args : gmap string value,
     match resolved with
     | inl e => main w args config0 = (log_of (load_config w config0), inl e)
     | inr None =>
         main w args config0 =
           (log_of (load_config w config0), inl (ValueError "Unable to find an editor."))
     | inr (Some _) => True
     end) /\
  (forall (argv : list string) (args : gmap string value),
     Docopt.docopt ("gist-v" ++ gist_version w) argv = inr args ->
     match resolved with
     | inl e =>
         main_from_argv w argv config0 = inr (log_of (load_config w config0), inl e)
     | inr None =>
         main_from_argv w argv config0 =
           inr (log_of (load_config w config0),
                inl (ValueError "Unable to find an editor."))
     | inr (Some _) => True
     end).
Proof.
  intros Hload Hsec from_environment fallback resolved.
  assert (Hchain : editor_chain w config = resolved).
  { unfold editor_chain. rewrite (configuration_editor_section _ _ _ Hsec).
    subst resolved fallback from_environment.
    unfold environment_editor, alternative_editor.
    destruct (opts !! "editor"); [reflexivity|].
    destruct (PyStr.is_empty _); reflexivity. }
  assert (Hres : resolve_editor w config =
                 match resolved with
                 | inl e => raise e
                 | inr (Some editor) => ret editor
                 | inr None => raise (ValueError "Unable to find an editor.")
                 end).
  { unfold resolve_editor. rewrite Hchain, bind_lift.
    destruct resolved as [e|[editor|]]; reflexivity. }
  assert (Hmain : forall args : gmap string value,
            match resolved with
            | inl e => main w args config0 = (log_of (load_config w config0), inl e)
            | inr None =>
                main w args config0 =
                  (log_of (load_config w config0),
                   inl (ValueError "Unable to find an editor."))
            | inr (Some _) => True
            end).
  { intros args. unfold main, startup.
    rewrite (bind_ok _ _ _ Hload), Hres.
    destruct resolved as [e|[editor|]]; [|exact I|]; simpl; rewrite app_nil_r;
      reflexivity. }
  split; [exact Hchain|]. split; [|split; [exact Hres|split; [exact Hmain|]]].
  - intros raw Hraw Hplain. subst resolved. rewrite Hraw.
    unfold ConfigParser.MAX_INTERPOLATION_DEPTH. cbn [ConfigParser.interpolate_some].
    rewrite (scan_plain _ _ _ _ _ _ Hplain). reflexivity.
  - intros argv args Hargs. specialize (Hmain args). unfold main_from_argv.
    rewrite Hargs. destruct resolved as [e|[editor|]]; [|exact I|]; rewrite Hmain;
      reflexivity.
Qed.

(** The amended C8 on a machine with a configured editor, [EDITOR] set and
    [/usr/bin/editor] present. *)
Lemma editor_precedence_witness :
  let w := Sample.world true "" [("EDITOR", "nano")] ["/usr/bin/editor"] [] ""
             Sample.config [] in
  result_of (load_config w (Some Sample.config)) = inr Sample.config /\
  Sample.config !! "gist" = Some {[ "token" := "t0ken"; "editor" := "vim" ]} /\
  editor_chain w Sample.config = inr (Some "vim").
Proof.
  cbv zeta. split; [reflexivity|]. split; [reflexivity|].
  apply (proj1
           (editor_precedence
              (Sample.world true "" [("EDITOR", "nano")] ["/usr/bin/editor"] [] ""
                 Sample.config [])
              (Some Sample.config) Sample.config
              {[ "token" := "t0ken"; "editor" := "vim" ]} eq_refl eq_refl)).
Defined.

Example editor_with_a_reference :
  ConfigParser.get {[ "gist" := {[ "editor" := "%(home)s/bin/vi -c 100%%";
                                   "home" := "/opt" ]} ]} "gist" "editor"
  = inr "/opt/bin/vi -c 100%".
Proof. vm_compute. reflexivity. Qed.

Example editor_with_a_bare_percent :
  editor_chain
    (Sample.world true "" [("EDITOR", "nano")] ["/usr/bin/editor"] [] "" Sample.config [])
    {[ "gist" := {[ "token" := "t0ken"; "editor" := "vim -c %s/a/b/" ]} ]}
  = inl (InterpolationSyntaxError "editor" "gist"
           "'%' must be followed by '%' or '(', found: '%s/a/b/'").
Proof. vm_compute. reflexivity. Qed.

(** Nothing is logged while the editor and the token are looked up. *)
Lemma startup_log (w : World) (config0 : option Config) :
  log_of (startup w config0) = log_of (load_config w config0).
Proof.
  unfold startup. rewrite log_of_bind.
  destruct (result_of (load_config w config0)) as [e|config]; [reflexivity|].
  unfold resolve_editor. rewrite bind_lift.
  destruct (editor_chain w config) as [e|[editor|]];
    [apply app_nil_r | | apply app_nil_r].
  rewrite bind_ret, bind_lift.
  destruct (ConfigParser.get config "gist" "token"); apply app_nil_r.
Qed.

(** C10. When the configuration (the file read, or the object passed in)
    has no [gist] section, the look-up of the editor raises
    [NoSectionError], which nothing catches: [main] ends with it whatever
    [EDITOR] and [/usr/bin/editor] offer.  When the section is there and
    only the [editor] key is missing, the earlier default is returned. *)
Theorem missing_section_is_fatal (w : World) (args : gmap string value)
    (config0 : option Config) (config : Config) :
  result_of (load_config w config0) = inr config ->
  config !! "gist" = None ->
  editor_chain w config = inl (NoSectionError "gist") /\
  main w args config0 = (log_of (load_config w config0), inl (NoSectionError "gist")) /\
  (forall (config' : Config) (opts : gmap string string) (default : option string),
     config' !! "gist" = Some opts -> opts !! "editor" = None ->
     configuration_editor config' default = inr default).
Proof.
  intros Hload Hsec.
  assert (Hchain : editor_chain w config = inl (NoSectionError "gist")).
  { unfold editor_chain. apply configuration_editor_no_section, Hsec. }
  repeat split.
  - exact Hchain.
  - unfold main, startup. rewrite (bind_ok _ _ _ Hload).
    unfold resolve_editor. rewrite Hchain. simpl. rewrite app_nil_r. reflexivity.
  - intros config' opts default Hsec' Hkey.
    rewrite (configuration_editor_section _ _ _ Hsec'), Hkey. reflexivity.
Qed.

(** C10 on a machine where [EDITOR] is set and [/usr/bin/editor] exists,
    with a configuration file that has no [gist] section. *)
Lemma missing_section_is_fatal_witness :
  let w := Sample.world true "" [("EDITOR", "nano")]
             ["/usr/bin/editor"; "/home/user/.gist"] [] "" Sample.config_no_section [] in
  let args := Sample.parsed [("list", VBool true)] in
  result_of (load_config w None) = inr Sample.config_no_section /\
  Sample.config_no_section !! "gist" = None /\
  main w args None = ([EvOpenConfig "/home/user/.gist"], inl (NoSectionError "gist")).
Proof.
  cbv zeta. split; [reflexivity|]. split; [reflexivity|].
  apply (proj1 (proj2
    (missing_section_is_fatal
       (Sample.world true "" [("EDITOR", "nano")]
          ["/usr/bin/editor"; "/home/user/.gist"] [] "" Sample.config_no_section [])
       (Sample.parsed [("list", VBool true)]) None Sample.config_no_section
       eq_refl eq_refl))).
Defined.

(** ** Which command runs *)

Lemma dispatch_skip (args : gmap string value) (command : string) (routine : M unit)
    (table : list (string * M unit)) :
  unselected args command = true ->
  dispatch args ((command, routine) :: table) = dispatch args table.
Proof.
  unfold unselected. simpl. unfold arg.
  destruct (args !! command) as [v|]; [|discriminate].
  intros Hv. rewrite bind_ret.
  destruct (truthy v); [discriminate | reflexivity].
Qed.

Lemma dispatch_take (args : gmap string value) (command : string) (routine : M unit)
    (table : list (string * M unit)) :
  selected args command = true ->
  dispatch args ((command, routine) :: table) = routine.
Proof.
  unfold selected. simpl. unfold arg.
  destruct (args !! command) as [v|]; [|discriminate].
  intros Hv. rewrite bind_ret, Hv. reflexivity.
Qed.

(** A [create] invocation reaches the [create] routine. *)
Lemma dispatch_create (w : World) (args : gmap string value) (config : Config)
    (editor : string) (gapi : GistAPI) :
  create_selected args = true ->
  dispatch args (commands w args config editor gapi) = cmd_create w args config editor gapi.
Proof.
  intros Hsel. unfold create_selected, before_create in Hsel. simpl in Hsel.
  rewrite !andb_true_iff in Hsel.
  destruct Hsel as [(H1 & H2 & H3 & H4 & H5 & H6 & H7 & H8 & H9 & H10 & H11 & _) Hcreate].
  unfold commands.
  rewrite (dispatch_skip _ _ _ _ H1), (dispatch_skip _ _ _ _ H2),
    (dispatch_skip _ _ _ _ H3), (dispatch_skip _ _ _ _ H4),
    (dispatch_skip _ _ _ _ H5), (dispatch_skip _ _ _ _ H6),
    (dispatch_skip _ _ _ _ H7), (dispatch_skip _ _ _ _ H8),
    (dispatch_skip _ _ _ _ H9), (dispatch_skip _ _ _ _ H10),
    (dispatch_skip _ _ _ _ H11).
  apply dispatch_take, Hcreate.
Qed.

(** ** [create]: the check that comes before any content is read *)

Lemma startup_config (w : World) (config0 : option Config) (config : Config)
    (editor : string) (gapi : GistAPI) :
  result_of (startup w config0) = inr (config, editor, gapi) ->
  result_of (load_config w config0) = inr config.
Proof.
  unfold startup. rewrite result_of_bind.
  destruct (result_of (load_config w config0)) as [e|config']; [discriminate|].
  rewrite result_of_bind.
  destruct (result_of (resolve_editor w config')) as [e|editor']; [discriminate|].
  rewrite bind_lift.
  destruct (ConfigParser.get config' "gist" "token"); simpl; intros H;
    inversion H; reflexivity.
Qed.

Lemma load_config_log (w : World) (config0 : option Config) :
  Forall (fun ev => reads_content ev = false /\ is_remote ev = false)
         (log_of (load_config w config0)).
Proof.
  destruct config0 as [config|]; simpl; [constructor|].
  destruct (read_config w (config_location w)); simpl; repeat constructor.
Qed.

Lemma check_encryption_missing (args : gmap string value) (config : Config) :
  selected args "--encrypt" = true ->
  (ConfigParser.has_option config "gist" "gnupg-homedir"
   && ConfigParser.has_option config "gist" "gnupg-fingerprint")%bool = false ->
  check_encryption args config =
    raise (GistError
             (if ConfigParser.has_option config "gist" "gnupg-homedir"
              then "gnupg-fingerprint missing from config file"
              else "gnupg-homedir missing from config file")).
Proof.
  unfold selected, check_encryption, arg.
  destruct (args !! "--encrypt") as [v|]; [|discriminate].
  intros Hv Hmiss. rewrite bind_ret, Hv.
  destruct (ConfigParser.has_option config "gist" "gnupg-homedir"); simpl in *;
    [rewrite Hmiss|]; reflexivity.
Qed.

(** C7. In a [create] invocation that asks for encryption, when the
    configuration lacks [gnupg-homedir] or [gnupg-fingerprint], [main]
    raises right after its start-up, with the [GistError] that names the
    missing key unless the start-up itself failed; the only thing it may
    have opened is the configuration file: no file, editor or standard
    input is read, and nothing is sent. *)
Theorem encryption_is_checked_first (w : World) (args : gmap string value)
    (config0 : option Config) (config : Config) :
  create_selected args = true ->
  selected args "--encrypt" = true ->
  result_of (load_config w config0) = inr config ->
  (ConfigParser.has_option config "gist" "gnupg-homedir"
   && ConfigParser.has_option config "gist" "gnupg-fingerprint")%bool = false ->
  let missing :=
    GistError (if ConfigParser.has_option config "gist" "gnupg-homedir"
               then "gnupg-fingerprint missing from config file"
               else "gnupg-homedir missing from config file") in
  result_of (main w args config0) =
    match result_of (startup w config0) with
    | inl e => inl e
    | inr _ => inl missing
    end /\
  log_of (main w args config0) = log_of (load_config w config0) /\
  Forall (fun ev => reads_content ev = false /\ is_remote ev = false)
         (log_of (main w args config0)).
Proof.
  intros Hcreate Hencrypt Hload Hmiss missing.
  assert (Hmain : main w args config0 = bind (startup w config0) (fun _ => raise missing)).
  { unfold main.
    destruct (result_of (startup w config0)) as [e|[[config' editor] gapi]] eqn:Hstart.
    - rewrite !(bind_err _ _ _ Hstart). reflexivity.
    - rewrite !(bind_ok _ _ _ Hstart).
      pose proof (startup_config _ _ _ _ _ Hstart) as Hload'.
      rewrite Hload in Hload'. inversion Hload'; subst config'.
      rewrite (dispatch_create w args config editor gapi Hcreate).
      unfold cmd_create.
      rewrite (check_encryption_missing args config Hencrypt Hmiss).
      reflexivity. }
  assert (Hlog : log_of (main w args config0) = log_of (load_config w config0)).
  { rewrite Hmain, log_of_bind, <- startup_log.
    destruct (result_of (startup w config0)); [reflexivity | apply app_nil_r]. }
  repeat split.
  - rewrite Hmain, result_of_bind.
    destruct (result_of (startup w config0)); reflexivity.
  - exact Hlog.
  - rewrite Hlog. apply load_config_log.
Qed.

(** C7 on a machine with files to submit and a configuration that has no
    GnuPG keys: the command ends before [foo.txt] is opened. *)
Lemma encryption_is_checked_first_witness :
  let w := Sample.world true "" [] [] [("foo.txt", "foo")] "" Sample.config [] in
  let args := Sample.parsed [("create", VBool true); ("--encrypt", VBool true);
                             ("<desc>", VStr "notes"); ("FILES", VList ["foo.txt"])] in
  create_selected args = true /\
  selected args "--encrypt" = true /\
  result_of (load_config w (Some Sample.config)) = inr Sample.config /\
  (ConfigParser.has_option Sample.config "gist" "gnupg-homedir"
   && ConfigParser.has_option Sample.config "gist" "gnupg-fingerprint")%bool = false /\
  result_of (main w args (Some Sample.config))
  = inl (GistError "gnupg-homedir missing from config file") /\
  log_of (main w args (Some Sample.config)) = [].
Proof.
  cbv zeta. do 4 (split; [reflexivity|]).
  pose proof
    (encryption_is_checked_first
       (Sample.world true "" [] [] [("foo.txt", "foo")] "" Sample.config [])
       (Sample.parsed [("create", VBool true); ("--encrypt", VBool true);
                       ("<desc>", VStr "notes"); ("FILES", VList ["foo.txt"])])
       (Some Sample.config) Sample.config eq_refl eq_refl eq_refl eq_refl) as H.
  cbv zeta in H. destruct H as (Hres & Hlog & _).
  split; [exact Hres | exact Hlog].
Defined.

(** ** [create]: what the log of the acquisition holds *)

Lemma Forall_log_bind {A B : Type} (P : Event -> Prop) (c : M A) (k : A -> M B) :
  Forall P (log_of c) -> (forall a, Forall P (log_of (k a))) ->
  Forall P (log_of (bind c k)).
Proof.
  intros Hc Hk. rewrite log_of_bind.
  destruct (result_of c) as [e|a]; [exact Hc|].
  apply Forall_app; split; [exact Hc | apply Hk].
Qed.

Lemma Forall_log_lift {A : Type} (P : Event -> Prop) (r : exn + A) :
  Forall P (log_of (lift r)).
Proof. constructor. Qed.

Lemma Forall_log_map_m {A B : Type} (P : Event -> Prop) (f : A -> M B) (l : list A) :
  (forall x, Forall P (log_of (f x))) -> Forall P (log_of (map_m f l)).
Proof.
  intros Hf. induction l as [|x l IH]; simpl; [constructor|].
  apply Forall_log_bind; [apply Hf|]. intros y.
  apply Forall_log_bind; [exact IH|]. intros ys. constructor.
Qed.

(** The acquisition sends nothing to the remote and prints nothing. *)
Lemma acquire_log_local (w : World) (args : gmap string value) (config : Config)
    (editor : string) :
  Forall (fun ev => is_remote ev = false) (log_of (acquire w args config editor)).
Proof.
  unfold acquire. destruct (stdin_isatty w).
  - apply Forall_log_bind.
    + unfold arg. destruct (args !! "FILES"); constructor.
    + intros FILES. destruct (truthy FILES).
      * apply Forall_log_bind; [apply Forall_log_lift|]. intros paths.
        apply Forall_log_map_m. intros path. unfold read_file.
        apply Forall_log_bind; [repeat constructor|]. intros _.
        apply Forall_log_bind; [apply Forall_log_lift|]. intros text. constructor.
      * unfold read_editor.
        apply Forall_log_bind.
        { destruct (ConfigParser.has_option config "gist" "delete-tempfiles");
            [apply Forall_log_lift | constructor]. }
        intros delete.
        apply Forall_log_bind; [apply Forall_log_lift|]. intros fp_name.
        apply Forall_log_bind; [repeat constructor|]. intros _.
        apply Forall_log_bind; [repeat constructor|]. intros _.
        apply Forall_log_bind; [apply Forall_log_lift|]. intros text. constructor.
  - unfold read_stdin.
    apply Forall_log_bind; [repeat constructor|]. intros _.
    apply Forall_log_bind; [apply Forall_log_lift|]. intros text. constructor.
Qed.

Lemma check_encryption_log (args : gmap string value) (config : Config) :
  log_of (check_encryption args config) = [].
Proof.
  unfold check_encryption, arg.
  destruct (args !! "--encrypt") as [v|]; [|reflexivity].
  rewrite bind_ret.
  destruct (truthy v); [|reflexivity].
  destruct (ConfigParser.has_option config "gist" "gnupg-homedir"); [|reflexivity].
  destruct (ConfigParser.has_option config "gist" "gnupg-fingerprint"); reflexivity.
Qed.

(** ** [create]: empty files *)

Lemma len_zero (s : string) : (PyStr.len s =? 0) = true <-> s = "".
Proof.
  unfold PyStr.len. destruct s as [|c s]; simpl; [tauto|].
  split; intros H; discriminate H.
Qed.

(** The check stops at the first empty file and names it. *)
Lemma check_not_empty_first (before after : list FileInfo) (file : FileInfo) :
  Forall (fun f => content f <> "") before ->
  content file = "" ->
  check_not_empty (before ++ file :: after) =
    raise (GistError ("'" ++ py_str (name file) ++ "' is empty")).
Proof.
  intros Hbefore Hfile. unfold check_not_empty.
  induction Hbefore as [|f before Hf _ IH]; simpl.
  - rewrite (proj2 (len_zero (content file)) Hfile). reflexivity.
  - destruct (PyStr.len (content f) =? 0) eqn:Hlen.
    + apply len_zero in Hlen. contradiction.
    + rewrite bind_ret. exact IH.
Qed.

(** With no empty file the check passes. *)
Lemma check_not_empty_pass (files : list FileInfo) :
  Forall (fun f => content f <> "") files -> check_not_empty files = ret tt.
Proof.
  unfold check_not_empty.
  induction 1 as [|f files Hf _ IH]; simpl; [reflexivity|].
  destruct (PyStr.len (content f) =? 0) eqn:Hlen.
  - apply len_zero in Hlen. contradiction.
  - rewrite bind_ret. exact IH.
Qed.

(** Among files of which one is empty, there is a first empty one. *)
Lemma first_empty_file (files : list FileInfo) :
  Exists (fun f => content f = "") files ->
  exists (before after : list FileInfo) (file : FileInfo),
    files = (before ++ file :: after)%list /\
    Forall (fun f => content f <> "") before /\
    content file = "".
Proof.
  induction files as [|f files IH]; intros Hex; [inversion Hex|].
  destruct (content f) as [|c rest] eqn:Hf.
  - exists [], files, f. repeat split; [constructor | exact Hf].
  - assert (Htail : Exists (fun f => content f = "") files).
    { inversion Hex as [? ? Hhead|? ? Htail]; subst; [|exact Htail].
      rewrite Hf in Hhead. discriminate Hhead. }
    destruct (IH Htail) as (before & after & file & -> & Hbefore & Hfile).
    exists (f :: before), after, file. repeat split; [|exact Hfile].
    constructor; [|exact Hbefore]. rewrite Hf. discriminate.
Qed.

(** C6. Whatever files the acquisition of [create] returns, if one of them
    has empty content then [create] raises the [GistError] naming the
    first such file, having done nothing beyond the acquisition: nothing
    is encrypted, and no call reaches the remote. *)
Theorem empty_file_aborts_create (w : World) (args : gmap string value) (config : Config)
    (editor : string) (gapi : GistAPI) (files : list FileInfo) :
  result_of (check_encryption args config) = inr tt ->
  result_of (acquire w args config editor) = inr files ->
  Exists (fun f => content f = "") files ->
  exists (before after : list FileInfo) (file : FileInfo),
    files = (before ++ file :: after)%list /\
    Forall (fun f => content f <> "") before /\
    content file = "" /\
    cmd_create w args config editor gapi =
      (log_of (acquire w args config editor),
       inl (GistError ("'" ++ py_str (name file) ++ "' is empty"))) /\
    Forall (fun ev => is_remote ev = false)
           (log_of (cmd_create w args config editor gapi)).
Proof.
  intros Hcheck Hacquire Hex.
  destruct (first_empty_file files Hex) as (before & after & file & -> & Hbefore & Hfile).
  exists before, after, file.
  assert (Hrun : cmd_create w args config editor gapi =
                 (log_of (acquire w args config editor),
                  inl (GistError ("'" ++ py_str (name file) ++ "' is empty")))).
  { unfold cmd_create.
    rewrite (bind_ok _ _ _ Hcheck), check_encryption_log.
    rewrite (bind_ok _ _ _ Hacquire). unfold submit.
    rewrite (check_not_empty_first before after file Hbefore Hfile), bind_raise.
    simpl. rewrite app_nil_r. reflexivity. }
  repeat split; [exact Hbefore | exact Hfile | exact Hrun |].
  rewrite Hrun. apply acquire_log_local.
Qed.

Example create_with_an_empty_file :
  main (Sample.world true "" [] []
          [("foo.txt", "foo"); ("empty.txt", ""); ("bar.txt", "bar"); ("void.txt", "")] ""
          Sample.config [])
       (Sample.parsed [("create", VBool true); ("<desc>", VStr "notes");
                       ("FILES", VList ["foo.txt"; "empty.txt"; "bar.txt"; "void.txt"])])
       (Some Sample.config)
  = ([EvReadFile "foo.txt"; EvReadFile "empty.txt"; EvReadFile "bar.txt";
      EvReadFile "void.txt"],
     inl (GistError "'empty.txt' is empty")).
Proof. vm_compute. reflexivity. Qed.

(** C6 on three files given on the command line, the second one empty. *)
Lemma empty_file_aborts_create_witness :
  let w := Sample.world true "" [] []
             [("foo.txt", "foo"); ("empty.txt", ""); ("bar.txt", "bar")] ""
             Sample.config [] in
  let args := Sample.parsed [("create", VBool true); ("<desc>", VStr "notes");
                             ("FILES", VList ["foo.txt"; "empty.txt"; "bar.txt"])] in
  let files := [ {| name := VStr "foo.txt"; content := "foo" |};
                 {| name := VStr "empty.txt"; content := "" |};
                 {| name := VStr "bar.txt"; content := "bar" |} ] in
  result_of (check_encryption args Sample.config) = inr tt /\
  result_of (acquire w args Sample.config "vim") = inr files /\
  Exists (fun f => content f = "") files /\
  exists (before after : list FileInfo) (file : FileInfo),
    files = (before ++ file :: after)%list /\
    Forall (fun f => content f <> "") before /\
    content file = "" /\
    cmd_create w args Sample.config "vim" (Sample.api []) =
      (log_of (acquire w args Sample.config "vim"),
       inl (GistError ("'" ++ py_str (name file) ++ "' is empty"))) /\
    Forall (fun ev => is_remote ev = false)
           (log_of (cmd_create w args Sample.config "vim" (Sample.api []))).
Proof.
  cbv zeta.
  assert (Hex : Exists (fun f => content f = "")
                  [ {| name := VStr "foo.txt"; content := "foo" |};
                    {| name := VStr "empty.txt"; content := "" |};
                    {| name := VStr "bar.txt"; content := "bar" |} ]).
  { apply Exists_cons_tl, Exists_cons_hd. reflexivity. }
  split; [reflexivity|]. split; [reflexivity|]. split; [exact Hex|].
  exact (empty_file_aborts_create
           (Sample.world true "" [] []
              [("foo.txt", "foo"); ("empty.txt", ""); ("bar.txt", "bar")] ""
              Sample.config [])
           (Sample.parsed [("create", VBool true); ("<desc>", VStr "notes");
                           ("FILES", VList ["foo.txt"; "empty.txt"; "bar.txt"])])
           Sample.config "vim" (Sample.api []) _ eq_refl eq_refl Hex).
Defined.

(** ** [create]: where the content comes from *)

(** Reading the listed files: one event per path, in order; each entry is
    named by the base name of its path and holds the decoded text. *)
Lemma read_files_run (w : World) (paths texts : list string) :
  Forall2 (fun path text => read_utf8 w path = inr text) paths texts ->
  map_m (read_file w) paths =
    (map EvReadFile paths,
     inr (zip_with (fun path text =>
                      {| name := VStr (path_basename w path); content := text |})
                   paths texts)).
Proof.
  induction 1 as [|path text paths texts Hread _ IH]; [reflexivity|].
  simpl. unfold read_file at 1. simpl. rewrite Hread. simpl.
  rewrite IH. simpl. rewrite app_nil_r. reflexivity.
Qed.

Lemma read_stdin_run (w : World) (args : gmap string value) (text : string) :
  stdin_read w = inr text ->
  read_stdin w args =
    ([EvReadStdin],
     inr [ {| name := dict_get_default args "<filename>" (VStr "file1.txt");
              content := text |} ]).
Proof. intros Hread. unfold read_stdin. simpl. rewrite Hread. reflexivity. Qed.


Example create_from_two_files :
  main (Sample.world true "" [] []
          [("foo.txt", "foo"); ("notes/bar.txt", "bar")] "" Sample.config [])
       (Sample.parsed [("create", VBool true); ("<desc>", VStr "desc");
                       ("FILES", VList ["foo.txt"; "notes/bar.txt"])])
       (Some Sample.config)
  = ([EvReadFile "foo.txt"; EvReadFile "notes/bar.txt";
      EvRemote (CallCreate (VStr "desc")
                  [(VStr "foo.txt", "foo"); (VStr "bar.txt", "bar")] (VBool false));
      EvPrint "https://gist.github.com/abc123"],
     inr tt).
Proof. vm_compute. reflexivity. Qed.




(** ** [create]: the name of the single file *)

(** In the editor and standard input modes the entry carries whatever
    [args.get('<filename>', 'file1.txt')] returns: the default only when the
    key is absent from [args]. *)
Lemma single_file_name (w : World) (args : gmap string value) (config : Config)
    (editor text : string) :
  stdin_isatty w = false ->
  stdin_read w = inr text ->
  result_of (acquire w args config editor) =
    inr [ {| name := match args !! "<filename>" with
                     | Some v => v
                     | None => VStr "file1.txt"
                     end;
             content := text |} ].
Proof.
  intros Htty Hread. unfold acquire. rewrite Htty.
  rewrite (read_stdin_run w args text Hread). reflexivity.
Qed.

Example create_piped_with_filename :
  acquire (Sample.world false "hello" [] [] [] "" Sample.config [])
          (Sample.parsed [("create", VBool true); ("<desc>", VStr "desc");
                          ("--filename", VBool true); ("<filename>", VStr "foo.md")])
          Sample.config "vim"
  = ([EvReadStdin], inr [ {| name := VStr "foo.md"; content := "hello" |} ]).
Proof. vm_compute. reflexivity. Qed.

(** C4 at [gist create desc], whose parsed arguments bind [<filename>] to
    [None]: the entry read from standard input, and the one written in the
    editor, is named [None] and not [file1.txt], and is submitted under
    that key. *)
Theorem default_name_is_not_applied :
  let args := Sample.parsed [("create", VBool true); ("<desc>", VStr "desc")] in
  let piped := Sample.world false "hello" [] [] [] "" Sample.config [] in
  let terminal := Sample.world true "" [] [] [] "hello" Sample.config [] in
  args !! "<filename>" = Some VNone /\
  acquire piped args Sample.config "vim"
  = ([EvReadStdin], inr [ {| name := VNone; content := "hello" |} ]) /\
  acquire terminal args Sample.config "vim"
  = ([EvTempFile "/tmp/tmpgist" true; EvSystem "vim /tmp/tmpgist"],
     inr [ {| name := VNone; content := "hello" |} ]) /\
  main piped args (Some Sample.config)
  = ([EvReadStdin;
      EvRemote (CallCreate (VStr "desc") [(VNone, "hello")] (VBool false));
      EvPrint "https://gist.github.com/abc123"],
     inr tt).
Proof. cbv zeta. repeat split; vm_compute; reflexivity. Qed.

Lemma arg_insert_ne (args : gmap string value) (k k' : string) (v : value) :
  k <> k' -> arg (<[k := v]> args) k' = arg args k'.
Proof. intros Hne. unfold arg. rewrite lookup_insert_ne by exact Hne. reflexivity. Qed.

(** ** The argument parser *)

(** Facts about the patterns of the usage text and the way they are
    matched. *)
Module DocoptFacts.
Import Docopt.

Lemma pattern_induction (P : pattern -> Prop) :
  (forall name, P (Command name)) ->
  (forall name repeating, P (Argument name repeating)) ->
  (forall name, P (Option name)) ->
  (forall children, Forall P children -> P (Required children)) ->
  (forall children, Forall P children -> P (Optional children)) ->
  (forall child, P child -> P (OneOrMore child)) ->
  (forall children, Forall P children -> P (Either children)) ->
  forall p, P p.
Proof.
  intros HC HA HO HR HOp H1 HE.
  fix IH 1. intros [name|name repeating|name|children|children|child|children].
  - apply HC.
  - apply HA.
  - apply HO.
  - apply HR. induction children; constructor; [apply IH | assumption].
  - apply HOp. induction children; constructor; [apply IH | assumption].
  - apply H1, IH.
  - apply HE. induction children; constructor; [apply IH | assumption].
Qed.

Lemma single_command_keeps (n name : string) (left left' : list token) :
  single_command name left = Some left' -> keeps n left left'.
Proof.
  revert left'. induction left as [|t left IH]; intros left' H; [discriminate|].
  destruct t as [v|name' v]; simpl in H.
  - destruct (String.eqb v name); [|discriminate]. injection H as <-.
    intros x [Hx|Hx]; [discriminate|exact Hx].
  - destruct (single_command name left) as [rest|]; [|discriminate].
    injection H as <-. intros x [Hx|Hx]; [left; exact Hx|right; exact (IH rest eq_refl x Hx)].
Qed.

Lemma single_argument_keeps (n : string) (left left' : list token) (v : string) :
  single_argument left = Some (v, left') -> keeps n left left'.
Proof.
  revert left'. induction left as [|t left IH]; intros left' H; [discriminate|].
  destruct t as [v'|name' v']; simpl in H.
  - injection H as <- <-. intros x [Hx|Hx]; [discriminate|exact Hx].
  - destruct (single_argument left) as [[v0 rest]|]; [|discriminate].
    injection H as <- <-. intros x [Hx|Hx]; [left; exact Hx|right; exact (IH rest eq_refl x Hx)].
Qed.

Lemma single_option_keeps (n name : string) (left left' : list token) (v : value) :
  String.eqb name n = false ->
  single_option name left = Some (v, left') -> keeps n left left'.
Proof.
  intros Hne. revert left'. induction left as [|t left IH]; intros left' H; [discriminate|].
  simpl in H. destruct t as [v'|name' v'].
  - destruct (single_option name left) as [[v0 rest]|]; [|discriminate].
    injection H as <- <-. intros x [Hx|Hx]; [left; exact Hx|right; exact (IH rest eq_refl x Hx)].
  - destruct (String.eqb_spec name name') as [<-|Hname].
    + injection H as <- <-. intros x [Hx|Hx]; [|exact Hx].
      injection Hx as Hx _. rewrite Hx, String.eqb_refl in Hne. discriminate.
    + destruct (single_option name left) as [[v0 rest]|]; [|discriminate].
      injection H as <- <-.
      intros x [Hx|Hx]; [left; exact Hx|right; exact (IH rest eq_refl x Hx)].
Qed.

Lemma fewest_In (best : outcome) (others : list outcome) :
  In (fewest best others) (best :: others).
Proof.
  revert best. induction others as [|o others IH]; intros best; [left; reflexivity|].
  simpl fewest. destruct (IH (if (length (remaining o) <? length (remaining best))%nat
                              then o else best)) as [H|H].
  - rewrite <- H. destruct (_ <? _)%nat; [right; left|left]; reflexivity.
  - right; right; exact H.
Qed.

Lemma outcomes_In (m : pattern -> list token -> list (string * value) -> outcome)
    (left : list token) (collected : list (string * value)) (children : list pattern)
    (o : outcome) :
  In o (outcomes m left collected children) ->
  exists p, In p children /\ o = m p left collected.
Proof.
  induction children as [|p children IH]; [intros []|].
  simpl. destruct (fst (fst (m p left collected))).
  - intros [<-|H]; [exists p; split; [left|]; reflexivity|].
    destruct (IH H) as [q [Hq ->]]. exists q; split; [right; exact Hq|reflexivity].
  - intros H. destruct (IH H) as [q [Hq ->]]. exists q; split; [right; exact Hq|reflexivity].
Qed.

(** [Either] gives what it was called with, or the outcome of one of
    its children. *)
Lemma Either_match_cases (m : pattern -> list token -> list (string * value) -> outcome)
    (left : list token) (collected : list (string * value)) (children : list pattern) :
  Either_match m left collected children = (false, left, collected) \/
  exists p, In p children /\ Either_match m left collected children = m p left collected.
Proof.
  unfold Either_match.
  destruct (outcomes m left collected children) as [|o others] eqn:Ho; [left; reflexivity|].
  right. apply (outcomes_In m left collected children). rewrite Ho. apply fewest_In.
Qed.

(** No pattern removes an option that it does not name. *)
Lemma pmatch_keeps (n : string) (p : pattern) :
  names_option n p = false ->
  forall left collected, keeps n left (remaining (pmatch p left collected)).
Proof.
  induction p as [name|name repeating|name|children IH|children IH|child IH|children IH]
    using pattern_induction; intros Hn left collected.
  - simpl. destruct (single_command name left) as [left'|] eqn:H; [|intros v Hv; exact Hv].
    exact (single_command_keeps n name left left' H).
  - simpl. destruct (single_argument left) as [[v left']|] eqn:H; [|intros x Hx; exact Hx].
    exact (single_argument_keeps n left left' v H).
  - simpl. destruct (single_option name left) as [[v left']|] eqn:H; [|intros x Hx; exact Hx].
    exact (single_option_keeps n name left left' v Hn H).
  - simpl in Hn |- *.
    assert (Hall : forall l c, keeps n left l ->
              keeps n left (remaining (Required_match pmatch left collected children l c))).
    { clear - IH Hn. induction children as [|p children IHc]; intros l c Hl; [exact Hl|].
      simpl in Hn. apply orb_false_iff in Hn as [Hp Hps].
      inversion IH as [|? ? IHp IHps]; subst. simpl.
      specialize (IHp Hp l c). destruct (pmatch p l c) as [[matched l'] c'].
      destruct matched; [|intros v Hv; exact Hv].
      apply (IHc IHps Hps). intros v Hv. apply IHp, Hl, Hv. }
    apply Hall. intros v Hv; exact Hv.
  - simpl in Hn |- *.
    assert (Hall : forall l c, keeps n left l ->
              keeps n left (remaining (Optional_match pmatch children l c))).
    { clear - IH Hn. induction children as [|p children IHc]; intros l c Hl; [exact Hl|].
      simpl in Hn. apply orb_false_iff in Hn as [Hp Hps].
      inversion IH as [|? ? IHp IHps]; subst. simpl.
      specialize (IHp Hp l c). destruct (pmatch p l c) as [[matched l'] c'].
      apply (IHc IHps Hps). intros v Hv. apply IHp, Hl, Hv. }
    apply Hall. intros v Hv; exact Hv.
  - simpl in Hn. specialize (IH Hn). cbn [pmatch].
    assert (Hall : forall rounds l c l_ times, keeps n left l ->
              keeps n left
                (remaining (OneOrMore_match pmatch left collected child rounds l c l_ times))).
    { induction rounds as [|rounds IHr]; intros l c l_ times Hl; cbn [OneOrMore_match].
      - destruct (1 <=? times)%nat; [exact Hl|intros v Hv; exact Hv].
      - specialize (IH l c). destruct (pmatch child l c) as [[matched l'] c'].
        assert (Hl' : keeps n left l') by (intros v Hv; apply IH, Hl, Hv).
        destruct (bool_decide (l_ = Some l') || negb matched).
        + destruct (1 <=? _)%nat; [exact Hl'|intros v Hv; exact Hv].
        + apply IHr, Hl'. }
    apply Hall. intros v Hv; exact Hv.
  - simpl in Hn |- *.
    destruct (Either_match_cases pmatch left collected children) as [->|[p [Hp ->]]];
      [intros v Hv; exact Hv|].
    rewrite Forall_forall in IH. apply (IH p); [apply list_elem_of_In; exact Hp|].
    apply not_true_is_false. intros Htrue.
    assert (existsb (names_option n) children = true)
      by (apply existsb_exists; exists p; split; assumption).
    congruence.
Qed.

Lemma shrinks_trans (a b c : list token) : shrinks a b -> shrinks b c -> shrinks a c.
Proof. unfold shrinks. intros [->|Hab] [->|Hbc]; auto. right. lia. Qed.

Lemma single_command_length (name : string) (left left' : list token) :
  single_command name left = Some left' -> length left = S (length left').
Proof.
  revert left'. induction left as [|t left IH]; intros left' H; [discriminate|].
  destruct t as [v|name' v]; simpl in H.
  - destruct (String.eqb v name); [|discriminate]. injection H as <-. reflexivity.
  - destruct (single_command name left) as [rest|]; [|discriminate].
    injection H as <-. simpl. f_equal. apply IH. reflexivity.
Qed.

Lemma single_argument_length (left left' : list token) (v : string) :
  single_argument left = Some (v, left') -> length left = S (length left').
Proof.
  revert left'. induction left as [|t left IH]; intros left' H; [discriminate|].
  destruct t as [v'|name' v']; simpl in H.
  - injection H as <- <-. reflexivity.
  - destruct (single_argument left) as [[v0 rest]|]; [|discriminate].
    injection H as <- <-. simpl. f_equal. apply IH. reflexivity.
Qed.

Lemma single_option_length (name : string) (left left' : list token) (v : value) :
  single_option name left = Some (v, left') -> length left = S (length left').
Proof.
  revert left'. induction left as [|t left IH]; intros left' H; [discriminate|].
  simpl in H. destruct t as [v'|name' v'].
  - destruct (single_option name left) as [[v0 rest]|]; [|discriminate].
    injection H as <- <-. simpl. f_equal. apply IH. reflexivity.
  - destruct (String.eqb name name').
    + injection H as <- <-. reflexivity.
    + destruct (single_option name left) as [[v0 rest]|]; [|discriminate].
      injection H as <- <-. simpl. f_equal. apply IH. reflexivity.
Qed.

(** A pattern leaves the command line as it is, or shorter. *)
Lemma pmatch_shrinks (p : pattern) :
  forall left collected, shrinks left (remaining (pmatch p left collected)).
Proof.
  induction p as [name|name repeating|name|children IH|children IH|child IH|children IH]
    using pattern_induction; intros left collected.
  - simpl. destruct (single_command name left) as [left'|] eqn:H; [|left; reflexivity].
    right. rewrite (single_command_length name left left' H). unfold remaining. simpl. lia.
  - simpl. destruct (single_argument left) as [[v left']|] eqn:H; [|left; reflexivity].
    right. rewrite (single_argument_length left left' v H). unfold remaining. simpl. lia.
  - simpl. destruct (single_option name left) as [[v left']|] eqn:H; [|left; reflexivity].
    right. rewrite (single_option_length name left left' v H). unfold remaining. simpl. lia.
  - cbn [pmatch].
    assert (Hall : forall l c, shrinks left l ->
              shrinks left (remaining (Required_match pmatch left collected children l c))).
    { clear - IH. induction children as [|p children IHc]; intros l c Hl; [exact Hl|].
      inversion IH as [|? ? IHp IHps]; subst. simpl.
      specialize (IHp l c). destruct (pmatch p l c) as [[matched l'] c'].
      destruct matched; [|left; reflexivity].
      apply (IHc IHps). exact (shrinks_trans _ _ _ Hl IHp). }
    apply Hall. left; reflexivity.
  - cbn [pmatch].
    assert (Hall : forall l c, shrinks left l ->
              shrinks left (remaining (Optional_match pmatch children l c))).
    { clear - IH. induction children as [|p children IHc]; intros l c Hl; [exact Hl|].
      inversion IH as [|? ? IHp IHps]; subst. simpl.
      specialize (IHp l c). destruct (pmatch p l c) as [[matched l'] c'].
      apply (IHc IHps). exact (shrinks_trans _ _ _ Hl IHp). }
    apply Hall. left; reflexivity.
  - cbn [pmatch].
    assert (Hall : forall rounds l c l_ times, shrinks left l ->
              shrinks left
                (remaining (OneOrMore_match pmatch left collected child rounds l c l_ times))).
    { induction rounds as [|rounds IHr]; intros l c l_ times Hl; cbn [OneOrMore_match].
      - destruct (1 <=? times)%nat; [exact Hl|left; reflexivity].
      - specialize (IH l c). destruct (pmatch child l c) as [[matched l'] c'].
        assert (Hl' : shrinks left l') by exact (shrinks_trans _ _ _ Hl IH).
        destruct (bool_decide (l_ = Some l') || negb matched).
        + destruct (1 <=? _)%nat; [exact Hl'|left; reflexivity].
        + apply IHr, Hl'. }
    apply Hall. left; reflexivity.
  - cbn [pmatch].
    destruct (Either_match_cases pmatch left collected children) as [->|[p [Hp ->]]];
      [left; reflexivity|].
    rewrite Forall_forall in IH. apply (IH p). apply list_elem_of_In. exact Hp.
Qed.

Lemma OneOrMore_match_rounds (child : pattern) (left : list token)
    (collected : list (string * value)) (rounds more : nat) :
  forall l c times,
    (length l < rounds)%nat ->
    OneOrMore_match pmatch left collected child (rounds + more) l c (Some l) times
    = OneOrMore_match pmatch left collected child rounds l c (Some l) times.
Proof.
  induction rounds as [|rounds IH]; intros l c times Hl; [lia|].
  cbn [Nat.add OneOrMore_match].
  pose proof (pmatch_shrinks child l c) as Hshrinks.
  destruct (pmatch child l c) as [[matched l'] c']. unfold remaining in Hshrinks.
  simpl in Hshrinks.
  destruct (bool_decide (Some l = Some l') || negb matched) eqn:Hstop; [reflexivity|].
  apply orb_false_iff in Hstop as [Hstop _]. apply bool_decide_eq_false in Hstop.
  destruct Hshrinks as [->|Hshort]; [contradiction Hstop; reflexivity|].
  apply IH. lia.
Qed.

(** The rounds given to [OneOrMore] are enough: more of them give the
    same outcome, the loop has ended by itself. *)
Lemma OneOrMore_rounds (child : pattern) (left : list token)
    (collected : list (string * value)) (more : nat) :
  OneOrMore_match pmatch left collected child (S (S (length left)) + more)
    left collected None O
  = pmatch (OneOrMore child) left collected.
Proof.
  cbn [pmatch]. change (S (S (length left)) + more)%nat with (S (S (length left) + more)).
  remember (S (length left)) as rounds eqn:Hrounds. cbn [OneOrMore_match].
  pose proof (pmatch_shrinks child left collected) as Hshrinks.
  destruct (pmatch child left collected) as [[matched l'] c']. unfold remaining in Hshrinks.
  simpl in Hshrinks.
  destruct (bool_decide (None = Some l') || negb matched); [reflexivity|].
  apply OneOrMore_match_rounds. destruct Hshrinks as [->|Hshort]; lia.
Qed.

Lemma single_command_arguments (name : string) (left left' : list token) :
  single_command name left = Some left' -> arguments left = name :: arguments left'.
Proof.
  revert left'. induction left as [|t left IH]; intros left' H; [discriminate|].
  destruct t as [v|name' v]; simpl in H.
  - destruct (String.eqb_spec v name) as [->|]; [|discriminate]. injection H as <-. reflexivity.
  - destruct (single_command name left) as [rest|]; [|discriminate].
    injection H as <-. simpl. apply IH. reflexivity.
Qed.

Lemma single_argument_arguments (left left' : list token) (v : string) :
  single_argument left = Some (v, left') -> arguments left = v :: arguments left'.
Proof.
  revert left'. induction left as [|t left IH]; intros left' H; [discriminate|].
  destruct t as [v'|name' v']; simpl in H.
  - injection H as <- <-. reflexivity.
  - destruct (single_argument left) as [[v0 rest]|]; [|discriminate].
    injection H as <- <-. simpl. apply IH. reflexivity.
Qed.

Lemma single_option_arguments (name : string) (left left' : list token) (v : value) :
  single_option name left = Some (v, left') -> arguments left = arguments left'.
Proof.
  revert left'. induction left as [|t left IH]; intros left' H; [discriminate|].
  simpl in H. destruct t as [v'|name' v'].
  - destruct (single_option name left) as [[v0 rest]|]; [|discriminate].
    injection H as <- <-. simpl. f_equal. apply IH. reflexivity.
  - destruct (String.eqb name name').
    + injection H as <- <-. reflexivity.
    + destruct (single_option name left) as [[v0 rest]|]; [|discriminate].
      injection H as <- <-. simpl. apply IH. reflexivity.
Qed.

(** A pattern without repetition removes at most as many positional
    arguments as it has commands and arguments. *)
Lemma pmatch_arity (p : pattern) :
  repeats_nothing p = true ->
  forall left collected,
    (length (arguments left)
     <= length (arguments (remaining (pmatch p left collected))) + arity p)%nat.
Proof.
  induction p as [name|name repeating|name|children IH|children IH|child IH|children IH]
    using pattern_induction; intros Hp left collected.
  - simpl. destruct (single_command name left) as [left'|] eqn:H; unfold remaining; simpl; [|lia].
    rewrite (single_command_arguments name left left' H). simpl. lia.
  - simpl. destruct (single_argument left) as [[v left']|] eqn:H; unfold remaining; simpl; [|lia].
    rewrite (single_argument_arguments left left' v H). simpl. lia.
  - simpl. destruct (single_option name left) as [[v left']|] eqn:H; unfold remaining; simpl; [|lia].
    rewrite (single_option_arguments name left left' v H). lia.
  - simpl in Hp |- *.
    assert (Hall : forall l c k,
              (length (arguments left) <= length (arguments l) + k)%nat ->
              (length (arguments left)
               <= length (arguments
                            (remaining (Required_match pmatch left collected children l c)))
                  + (k + list_sum (map arity children)))%nat).
    { clear - IH Hp. induction children as [|p children IHc]; intros l c k Hl; simpl; [unfold remaining; simpl; lia|].
      simpl in Hp. apply andb_true_iff in Hp as [Hp Hps].
      inversion IH as [|? ? IHp IHps]; subst.
      specialize (IHp Hp l c). destruct (pmatch p l c) as [[matched l'] c'].
      destruct matched; [|unfold remaining; simpl; lia].
      specialize (IHc IHps Hps l' c' (k + arity p)%nat). unfold remaining in IHp; simpl in IHp. lia. }
    specialize (Hall left collected O). simpl in Hall. apply Hall. lia.
  - simpl in Hp |- *.
    assert (Hall : forall l c k,
              (length (arguments left) <= length (arguments l) + k)%nat ->
              (length (arguments left)
               <= length (arguments (remaining (Optional_match pmatch children l c)))
                  + (k + list_sum (map arity children)))%nat).
    { clear - IH Hp. induction children as [|p children IHc]; intros l c k Hl; simpl; [unfold remaining; simpl; lia|].
      simpl in Hp. apply andb_true_iff in Hp as [Hp Hps].
      inversion IH as [|? ? IHp IHps]; subst.
      specialize (IHp Hp l c). destruct (pmatch p l c) as [[matched l'] c'].
      specialize (IHc IHps Hps l' c' (k + arity p)%nat). unfold remaining in IHp; simpl in IHp. lia. }
    specialize (Hall left collected O). simpl in Hall. apply Hall. lia.
  - discriminate Hp.
  - simpl in Hp |- *.
    destruct (Either_match_cases pmatch left collected children) as [->|[p [Hin ->]]];
      [unfold remaining; simpl; lia|].
    rewrite Forall_forall in IH. rewrite forallb_forall in Hp.
    specialize (IH p (proj2 (list_elem_of_In _ _) Hin) (Hp p Hin) left collected).
    assert (arity p <= list_sum (map arity children))%nat; [|lia].
    clear - Hin. induction children as [|q children IHc]; [destruct Hin|].
    simpl. destruct Hin as [->|Hin]; [lia|]. specialize (IHc Hin). lia.
Qed.

(** The usage text accepts no command line that has the option
    [--filename] and four positional arguments or more. *)
Lemma usage_rejects (parsed : list token) (v : value) :
  In (Opt "--filename" v) parsed ->
  (4 <= length (arguments parsed))%nat ->
  forall matched rest collected,
    pmatch usage parsed [] = (matched, rest, collected) ->
    matched && bool_decide (rest = []) = false.
Proof.
  intros Hopt Hargs matched rest collected H.
  unfold usage in H. cbn [pmatch Required_match] in H.
  match type of H with
  | context [Either_match pmatch parsed [] ?cs] =>
      destruct (Either_match_cases pmatch parsed [] cs) as [Hnone|[p [Hp Hsome]]]
  end.
  - rewrite Hnone in H. injection H as <- _ _. reflexivity.
  - rewrite Hsome in H. clear Hsome.
    assert (Hrest : remaining (pmatch p parsed []) <> []).
    { simpl in Hp.
      repeat (destruct Hp as [<-|Hp];
              [match goal with
               | |- remaining (pmatch ?q _ _) <> [] =>
                   first [ intros Hnil;
                           pose proof (pmatch_keeps "--filename" q eq_refl parsed [] v Hopt)
                             as Hin;
                           rewrite Hnil in Hin; exact Hin
                         | intros Hnil;
                           pose proof (pmatch_arity q eq_refl parsed []) as Hle;
                           rewrite Hnil in Hle; simpl in Hle; lia ]
               end|]).
      destruct Hp. }
    destruct (pmatch p parsed []) as [[matched' rest'] collected'].
    simpl in Hrest. destruct matched'; injection H as <- <- _; [|reflexivity].
    rewrite bool_decide_eq_false_2 by exact Hrest. reflexivity.
Qed.

Lemma positional_tests (tok : string) :
  positional tok = true ->
  String.eqb tok "--" = false /\ String.prefix "--" tok = false /\
  String.prefix "-" tok && negb (String.eqb tok "-") = false.
Proof.
  unfold positional. intros H.
  assert (Hlong : String.prefix "--" tok = true ->
                  String.prefix "-" tok = true /\ String.eqb tok "-" = false).
  { destruct tok as [|a [|b tok]]; cbn [String.prefix]; try discriminate.
    - destruct (ascii_dec "-" a); discriminate.
    - destruct (ascii_dec "-" a) as [<-|]; [|discriminate]. intros _. split; reflexivity. }
  destruct (String.prefix "--" tok) eqn:E.
  - destruct (Hlong eq_refl) as [H1 H2]. rewrite H1, H2 in H. discriminate H.
  - split; [|split; [reflexivity|]].
    + destruct (String.eqb_spec tok "--") as [->|]; [discriminate E|reflexivity].
    + destruct (String.prefix "-" tok), (String.eqb tok "-"); simpl in *; congruence.
Qed.

Lemma parse_argv_positional (options : list spec) (tok : string) (rest : list string) :
  positional tok = true ->
  parse_argv options (tok :: rest) = on_parsed (cons (Arg tok)) (parse_argv options rest).
Proof.
  intros Htok. destruct (positional_tests tok Htok) as [H1 [H2 H3]].
  cbn [parse_argv]. rewrite H1, H2, H3. reflexivity.
Qed.

Lemma parse_argv_positionals (options : list spec) (argv : list string) :
  forallb positional argv = true -> parse_argv options argv = inr (map Arg argv).
Proof.
  induction argv as [|tok argv IH]; [reflexivity|].
  simpl forallb. intros [Htok Hargv]%andb_true_iff.
  rewrite (parse_argv_positional options tok argv Htok), (IH Hargv). reflexivity.
Qed.

Lemma arguments_map_Arg (l : list string) : arguments (map Arg l) = l.
Proof. induction l as [|v l IH]; [reflexivity|]. simpl. f_equal. exact IH. Qed.

Lemma asks_map_Arg (names l : list string) : existsb (asks names) (map Arg l) = false.
Proof. induction l as [|v l IH]; [reflexivity|exact IH]. Qed.

(** A command line with the option [--filename] and four positional
    arguments or more stops in the argument parser. *)
Lemma docopt_rejects (version : string) (argv : list string) (parsed : list token)
    (v : value) :
  parse_argv usage_options argv = inr parsed ->
  In (Opt "--filename" v) parsed ->
  (4 <= length (arguments parsed))%nat ->
  docopt version argv
  = inl (match extras version parsed with
         | Some exit => exit
         | None => DocoptExit ""
         end).
Proof.
  intros Hparse Hopt Hargs. unfold docopt. rewrite Hparse.
  destruct (extras version parsed) as [exit|]; [reflexivity|].
  destruct (pmatch usage parsed []) as [[matched rest] collected] eqn:Hmatch.
  rewrite (usage_rejects parsed v Hopt Hargs matched rest collected Hmatch). reflexivity.
Qed.

End DocoptFacts.

Lemma docopt_returns (version : string) (argv : list string) (args : gmap string value) :
  match Docopt.docopt version argv with
  | inr args' => bool_decide (args' = args)
  | inl _ => false
  end = true ->
  Docopt.docopt version argv = inr args.
Proof.
  destruct (Docopt.docopt version argv) as [exit|args']; [discriminate|].
  intros H%bool_decide_eq_true_1. rewrite H. reflexivity.
Qed.

(** The dictionaries of the sample invocations are the ones the parser
    returns for their command lines. *)
Example docopt_create_from_the_editor :
  Docopt.docopt "gist-v0.10.6" ["create"; "desc"]
  = inr (Sample.parsed [("create", VBool true); ("<desc>", VStr "desc")]).
Proof. apply docopt_returns. vm_compute. reflexivity. Qed.

Example docopt_create_from_files :
  Docopt.docopt "gist-v0.10.6" ["create"; "desc"; "--public"; "foo.txt"; "bar.txt"]
  = inr (Sample.parsed [("create", VBool true); ("<desc>", VStr "desc");
                        ("--public", VBool true);
                        ("FILES", VList ["foo.txt"; "bar.txt"])]).
Proof. apply docopt_returns. vm_compute. reflexivity. Qed.

Example docopt_create_with_a_file_name :
  Docopt.docopt "gist-v0.10.6" ["create"; "desc"; "--filename"; "bar.md"]
  = inr (Sample.parsed [("create", VBool true); ("<desc>", VStr "desc");
                        ("--filename", VBool true); ("<filename>", VStr "bar.md")]).
Proof. apply docopt_returns. vm_compute. reflexivity. Qed.

Example docopt_content :
  Docopt.docopt "gist-v0.10.6" ["content"; "abc123"; "--decrypt"]
  = inr (Sample.parsed [("content", VBool true); ("<id>", VStr "abc123");
                        ("--decrypt", VBool true)]).
Proof. apply docopt_returns. vm_compute. reflexivity. Qed.

(** ** [create]: a file list together with a file name *)

(** C5, as stated, fails: [create] with a description, [--filename], a
    file name and a path raises no [GistError]; on the command line
    [create desc --filename bar.md foo.txt], [main] stops in the
    argument parser. *)
Lemma files_with_filename_raise_no_GistError :
  ~ (forall (w : World) (config : option Config) (desc name path : string)
            (paths : list string),
       forallb positional (desc :: name :: path :: paths) = true ->
       exists log msg,
         main_from_argv w ("create" :: desc :: "--filename" :: name :: path :: paths) config
         = inr (log, inl (GistError msg))).
Proof.
  intros H.
  destruct (H (Sample.world true "" [] [] [("foo.txt", "foo")] "" Sample.config [])
              (Some Sample.config) "desc" "bar.md" "foo.txt" [] eq_refl)
    as [log [msg Hmsg]].
  vm_compute in Hmsg. discriminate Hmsg.
Qed.

(** C5, amended. A [create] command line that has the option
    [--filename] and, after the description, two positional arguments
    or more (a file name and a path, in any order among the options)
    fits no line of the usage text: [main] stops at line 304, in the
    argument parser, with [DocoptExit] and no message before the usage
    text (or with the exit of a request for help or for the version,
    when the command line holds one).  It reads no configuration, reads
    no file and makes no remote call, and raises no [GistError].  So
    does the plain form [create desc --filename name path ...]. *)
Theorem files_with_filename_stop_in_the_parser (w : World) (config : option Config) :
  (forall (argv : list string) (parsed : list Docopt.token) (v : value)
          (desc name path : string) (paths : list string),
     Docopt.parse_argv Docopt.usage_options argv = inr parsed ->
     In (Docopt.Opt "--filename" v) parsed ->
     arguments parsed = "create" :: desc :: name :: path :: paths ->
     main_from_argv w argv config
     = inl (match Docopt.extras ("gist-v" ++ gist_version w) parsed with
            | Some exit => exit
            | None => Docopt.DocoptExit ""
            end)) /\
  (forall (desc name path : string) (paths : list string),
     forallb positional (desc :: name :: path :: paths) = true ->
     main_from_argv w ("create" :: desc :: "--filename" :: name :: path :: paths) config
     = inl (Docopt.DocoptExit "")).
Proof.
  assert (Hgeneral : forall (argv : list string) (parsed : list Docopt.token) (v : value)
            (desc name path : string) (paths : list string),
     Docopt.parse_argv Docopt.usage_options argv = inr parsed ->
     In (Docopt.Opt "--filename" v) parsed ->
     arguments parsed = "create" :: desc :: name :: path :: paths ->
     main_from_argv w argv config
     = inl (match Docopt.extras ("gist-v" ++ gist_version w) parsed with
            | Some exit => exit
            | None => Docopt.DocoptExit ""
            end)).
  { intros argv parsed v desc name path paths Hparse Hopt Hargs. unfold main_from_argv.
    rewrite (DocoptFacts.docopt_rejects _ argv parsed v Hparse Hopt); [reflexivity|].
    rewrite Hargs. simpl. lia. }
  split; [exact Hgeneral|].
  intros desc name path paths Hwords.
  simpl forallb in Hwords.
  apply andb_true_iff in Hwords as [Hdesc Hwords].
  rewrite (Hgeneral _
             (Docopt.Arg "create" :: Docopt.Arg desc
              :: Docopt.Opt "--filename" (VBool true)
              :: map Docopt.Arg (name :: path :: paths))
             (VBool true) desc name path paths).
  - unfold Docopt.extras. cbn [existsb Docopt.asks andb orb].
    rewrite !DocoptFacts.asks_map_Arg.
    rewrite andb_false_r. reflexivity.
  - rewrite (DocoptFacts.parse_argv_positional _ "create" _ eq_refl).
    rewrite (DocoptFacts.parse_argv_positional _ desc _ Hdesc).
    change (Docopt.parse_argv Docopt.usage_options ("--filename" :: name :: path :: paths))
      with (Docopt.on_parsed (cons (Docopt.Opt "--filename" (VBool true)))
              (Docopt.parse_argv Docopt.usage_options (name :: path :: paths))).
    rewrite (DocoptFacts.parse_argv_positionals _ (name :: path :: paths)) by exact Hwords.
    reflexivity.
  - right; right; left; reflexivity.
  - cbn [arguments flat_map app]. fold (arguments (map Docopt.Arg (name :: path :: paths))).
    rewrite DocoptFacts.arguments_map_Arg. reflexivity.
Qed.

(** The amended C5 on [create desc a.txt --filename x.md]. *)
Lemma files_with_filename_stop_in_the_parser_witness :
  let w := Sample.world true "" [] [] [("a.txt", "text")] "" Sample.config [] in
  let argv := ["create"; "desc"; "a.txt"; "--filename"; "x.md"] in
  let parsed := [Docopt.Arg "create"; Docopt.Arg "desc"; Docopt.Arg "a.txt";
                 Docopt.Opt "--filename" (VBool true); Docopt.Arg "x.md"] in
  Docopt.parse_argv Docopt.usage_options argv = inr parsed /\
  In (Docopt.Opt "--filename" (VBool true)) parsed /\
  arguments parsed = ["create"; "desc"; "a.txt"; "x.md"] /\
  main_from_argv w argv (Some Sample.config) = inl (Docopt.DocoptExit "").
Proof.
  cbv zeta. split; [reflexivity|]. split; [right; right; right; left; reflexivity|].
  split; [reflexivity|].
  refine (proj1
    (files_with_filename_stop_in_the_parser
       (Sample.world true "" [] [] [("a.txt", "text")] "" Sample.config [])
       (Some Sample.config))
    ["create"; "desc"; "a.txt"; "--filename"; "x.md"]
    [Docopt.Arg "create"; Docopt.Arg "desc"; Docopt.Arg "a.txt";
     Docopt.Opt "--filename" (VBool true); Docopt.Arg "x.md"]
    (VBool true) "desc" "a.txt" "x.md" [] eq_refl _ eq_refl).
  right; right; right; left; reflexivity.
Defined.

(** ** [content] *)

Lemma for_each_print (w : World) (texts : list string) :
  Forall (fun text => stdout_encodable w text = true) texts ->
  for_each texts (py_print w) = (map EvPrint texts, inr tt).
Proof.
  induction 1 as [|text texts Hok _ IH]; [reflexivity|].
  simpl. unfold py_print at 1. rewrite Hok. simpl. rewrite IH. reflexivity.
Qed.

(** A file name found in the gist: its content alone is printed. *)
Lemma content_of_present_file (w : World) (args : gmap string value) (config : Config)
    (gapi : GistAPI) (gist_id decrypt : value) (stored : list (string * string))
    (filename text : string) :
  args !! "<id>" = Some gist_id ->
  args !! "<filename>" = Some (VStr filename) ->
  args !! "--decrypt" = Some decrypt ->
  truthy decrypt = false ->
  api_content gapi gist_id = inr stored ->
  ConfigParser.assoc filename stored = Some text ->
  stdout_encodable w text = true ->
  cmd_content w args config gapi
  = ([EvRemote (CallContent gist_id); EvPrint text], inr tt).
Proof.
  intros Hid Hname Hflag Hplain Hstored Hfound Hok.
  unfold cmd_content, arg, remote. rewrite Hid, bind_ret.
  rewrite Hstored, Hname, Hflag. simpl. rewrite Hfound. simpl.
  rewrite Hplain. unfold py_print. rewrite Hok. reflexivity.
Qed.

(** A file name not found in the gist is treated like no file name: every
    file is printed. *)
Lemma content_of_absent_file (w : World) (args : gmap string value) (config : Config)
    (gapi : GistAPI) (gist_id decrypt : value) (stored : list (string * string))
    (filename : string) :
  args !! "<id>" = Some gist_id ->
  args !! "<filename>" = Some (VStr filename) ->
  args !! "--decrypt" = Some decrypt ->
  truthy decrypt = false ->
  api_content gapi gist_id = inr stored ->
  ConfigParser.assoc filename stored = None ->
  cmd_content w args config gapi
  = cmd_content w (<["<filename>" := VNone]> args) config gapi.
Proof.
  intros Hid Hname Hflag Hplain Hstored Hfound.
  unfold cmd_content.
  rewrite (arg_insert_ne args "<filename>" "<id>") by discriminate.
  rewrite (arg_insert_ne args "<filename>" "--decrypt") by discriminate.
  unfold arg, remote. rewrite Hid, !bind_ret.
  rewrite Hstored, Hname, Hflag, lookup_insert_eq. simpl.
  rewrite Hfound. reflexivity.
Qed.

Example content_all_files :
  main (Sample.world true "" [] [] [] "" Sample.config
          [("a.txt", "hello"); ("b.txt", "world")])
       (Sample.parsed [("content", VBool true); ("<id>", VStr "abc123")])
       (Some Sample.config)
  = ([EvRemote (CallContent (VStr "abc123"));
      EvPrint (content_block "a.txt" "hello");
      EvPrint (content_block "b.txt" "world")],
     inr tt).
Proof. vm_compute. reflexivity. Qed.

Example content_one_file :
  main (Sample.world true "" [] [] [] "" Sample.config
          [("a.txt", "hello"); ("b.txt", "world")])
       (Sample.parsed [("content", VBool true); ("<id>", VStr "abc123");
                       ("<filename>", VStr "b.txt")])
       (Some Sample.config)
  = ([EvRemote (CallContent (VStr "abc123")); EvPrint "world"], inr tt).
Proof. vm_compute. reflexivity. Qed.

(** C2 at [gist content abc123 c.txt] on a gist that holds [a.txt] and
    [b.txt] only: instead of printing nothing, [main] prints both files,
    as it does when no file name is given. *)
Theorem absent_filename_prints_every_file :
  let w := Sample.world true "" [] [] [] "" Sample.config
             [("a.txt", "hello"); ("b.txt", "world")] in
  let args := Sample.parsed [("content", VBool true); ("<id>", VStr "abc123");
                             ("<filename>", VStr "c.txt")] in
  main w args (Some Sample.config)
  = ([EvRemote (CallContent (VStr "abc123"));
      EvPrint (content_block "a.txt" "hello");
      EvPrint (content_block "b.txt" "world")],
     inr tt).
Proof. vm_compute. reflexivity. Qed.

(** ** More on [elide] *)

(** X1. For a width above 3, the elided text has the length of the text
    or the width, whichever is smaller: it never exceeds the width. *)
Theorem elide_fits_width (txt : string) (w : Z) :
  3 < w -> PyStr.len (elide txt (Some w)) = Z.min (PyStr.len txt) w.
Proof.
  intros Hw. unfold elide.
  destruct (Z.ltb_spec 3 w) as [_|Hle]; [|lia].
  destruct (Z.ltb_spec w (PyStr.len txt)) as [Hlen|Hlen].
  - rewrite (len_elided txt w Hw Hlen). lia.
  - lia.
Qed.

Lemma elide_fits_width_witness :
  3 < 7 /\ PyStr.len (elide "abcdefghij" (Some 7)) = Z.min (PyStr.len "abcdefghij") 7.
Proof. split; [lia | apply (elide_fits_width "abcdefghij" 7); lia]. Defined.

(** X2. [elide] returns the text unchanged exactly when the width is at
    most 3 or the text is not longer than the width; so with a width of
    at most 3 a longer text comes back in full, wider than the width. *)
Theorem elide_unchanged_iff (txt : string) (w : Z) :
  elide txt (Some w) = txt <-> w <= 3 \/ PyStr.len txt <= w.
Proof.
  unfold elide.
  destruct (Z.ltb_spec 3 w) as [Hw|Hw]; [|split; [lia | reflexivity]].
  destruct (Z.ltb_spec w (PyStr.len txt)) as [Hlen|Hlen];
    [|split; [lia | reflexivity]].
  split; [|lia].
  intros Heq. apply (f_equal PyStr.len) in Heq.
  rewrite (len_elided txt w Hw Hlen) in Heq. lia.
Qed.

(** ** More on the editor and the configuration file *)

Lemma lstrip_head (s : string) (c : ascii) (s' : string) :
  PyStr.lstrip s = String c s' -> PyStr.isspace c = false.
Proof.
  induction s as [|d s IH]; simpl; [discriminate|].
  destruct (PyStr.isspace d) eqn:Hd; [exact IH|].
  intros H. inversion H; subst. exact Hd.
Qed.

Lemma rstrip_cons (c : ascii) (s : string) :
  PyStr.isspace c = false ->
  PyStr.rstrip (String c s) = String c (PyStr.rstrip s).
Proof.
  intros Hc. simpl. destruct (PyStr.rstrip s); [rewrite Hc|]; reflexivity.
Qed.

Lemma rstrip_rstrip (s : string) : PyStr.rstrip (PyStr.rstrip s) = PyStr.rstrip s.
Proof.
  induction s as [|c s IH]; [reflexivity|]. simpl.
  destruct (PyStr.rstrip s) as [|d r] eqn:Hr.
  - destruct (PyStr.isspace c) eqn:Hc; [reflexivity|]. simpl. rewrite Hc. reflexivity.
  - change (PyStr.rstrip (String c (String d r)))
      with (match PyStr.rstrip (String d r) with
            | EmptyString =>
                if PyStr.isspace c then EmptyString else String c EmptyString
            | r' => String c r'
            end).
    rewrite IH. reflexivity.
Qed.

(** Stripping a stripped string changes nothing. *)
Lemma strip_strip (s : string) : PyStr.strip (PyStr.strip s) = PyStr.strip s.
Proof.
  unfold PyStr.strip.
  destruct (PyStr.lstrip s) as [|c t] eqn:Ht; [reflexivity|].
  pose proof (lstrip_head s c t Ht) as Hc.
  rewrite (rstrip_cons c t Hc). simpl PyStr.lstrip. rewrite Hc.
  rewrite (rstrip_cons c _ Hc), rstrip_rstrip. reflexivity.
Qed.

Lemma is_empty_spec (s : string) : PyStr.is_empty s = true <-> s = "".
Proof. destruct s; simpl; split; intros H; try reflexivity; discriminate H. Qed.

(** X3. Whatever [EDITOR] holds, [environment_editor] returns either the
    default it was given or the stripped value of [EDITOR], which is then
    not empty and has no white space left around it. *)
Theorem environment_editor_is_clean (w : World) (default : option string) :
  environment_editor w default = default \/
  exists editor : string,
    environment_editor w default = Some editor /\
    editor = PyStr.strip (dict_get_default (environ w) "EDITOR" "") /\
    editor <> "" /\
    PyStr.strip editor = editor.
Proof.
  unfold environment_editor.
  destruct (PyStr.is_empty (PyStr.strip (dict_get_default (environ w) "EDITOR" "")))
    eqn:Hempty; simpl; [left; reflexivity|].
  right. eexists. split; [reflexivity|]. split; [reflexivity|]. split.
  - intros Heq. apply is_empty_spec in Heq. rewrite Heq in Hempty. discriminate Hempty.
  - apply strip_strip.
Qed.

(** X4. The configuration file [main] opens is the fallback [~/.gist],
    which is not tested, or a path that is a regular file. *)
Theorem config_location_is_regular_or_fallback (w : World) :
  config_location w = expanduser w (PyStr.join (os_sep w) ["~"; ".gist"]) \/
  path_isfile w (config_location w) = true.
Proof.
  unfold config_location, xdg_data_config, alternative_config.
  destruct (PyStr.is_empty _); simpl.
  - destruct (path_isfile w (expanduser w _)) eqn:Hdot; [right; exact Hdot | left; reflexivity].
  - destruct (path_isfile w (path_join w _ _)) eqn:Hxdg; [right; exact Hxdg|].
    destruct (path_isfile w (expanduser w _)) eqn:Hdot; [right; exact Hdot | left; reflexivity].
Qed.

(** X5. When the configuration file cannot be read or parsed, [main]
    raises [ValueError] with the text of the failure, whatever the
    command: nothing but the opening of that file has happened. *)
Theorem unreadable_config_stops_main (w : World) (args : gmap string value) (e : string) :
  read_config w (config_location w) = inl e ->
  main w args None =
    ([EvOpenConfig (config_location w)],
     inl (ValueError ("Unable to load configuration file: " ++ e))).
Proof.
  intros Hread. unfold main, startup, load_config. rewrite Hread. reflexivity.
Qed.

Lemma unreadable_config_stops_main_witness :
  let w := Sample.world true "" [] [] [] "" Sample.config [] in
  read_config w (config_location w) = inl "No such file or directory: /home/user/.gist" /\
  main w (Sample.parsed [("version", VBool true)]) None =
    ([EvOpenConfig "/home/user/.gist"],
     inl (ValueError
            "Unable to load configuration file: No such file or directory: /home/user/.gist")).
Proof.
  cbv zeta. split; [reflexivity|].
  apply (unreadable_config_stops_main
           (Sample.world true "" [] [] [] "" Sample.config [])
           (Sample.parsed [("version", VBool true)])
           "No such file or directory: /home/user/.gist" eq_refl).
Defined.

(** X6. A configuration whose [gist] section has no [token] stops [main]
    before any command: once an editor is resolved, [main] raises
    [NoOptionError] for [token], whatever the command, and nothing has
    happened. *)
Theorem missing_token_stops_main (w : World) (args : gmap string value) (config : Config)
    (opts : gmap string string) (editor : string) :
  config !! "gist" = Some opts ->
  opts !! "token" = None ->
  editor_chain w config = inr (Some editor) ->
  main w args (Some config) = raise (NoOptionError "token" "gist").
Proof.
  intros Hsec Htoken Heditor. unfold main, startup, load_config.
  rewrite bind_ret. unfold resolve_editor. rewrite Heditor, bind_lift, bind_ret.
  unfold ConfigParser.get. rewrite Hsec, Htoken. reflexivity.
Qed.

Lemma missing_token_stops_main_witness :
  let w := Sample.world true "" [("EDITOR", "nano")] [] [] "" Sample.config [] in
  let config : Config := {[ "gist" := {[ "editor" := "vim" ]} ]} in
  config !! "gist" = Some {[ "editor" := "vim" ]} /\
  ({[ "editor" := "vim" ]} : gmap string string) !! "token" = None /\
  editor_chain w config = inr (Some "vim") /\
  main w (Sample.parsed [("list", VBool true)]) (Some config)
  = raise (NoOptionError "token" "gist").
Proof.
  cbv zeta. split; [reflexivity|]. split; [reflexivity|]. split; [reflexivity|].
  apply (missing_token_stops_main
           (Sample.world true "" [("EDITOR", "nano")] [] [] "" Sample.config [])
           (Sample.parsed [("list", VBool true)])
           {[ "gist" := {[ "editor" := "vim" ]} ]} {[ "editor" := "vim" ]} "vim");
    reflexivity.
Defined.

(** ** [delete] *)

Lemma delete_loop_ok (gapi : GistAPI) (gist_ids : list string) :
  Forall (fun gist_id => api_call gapi (CallDelete gist_id) = inr tt) gist_ids ->
  for_each gist_ids
    (fun gist_id => remote (CallDelete gist_id) (api_call gapi (CallDelete gist_id)))
  = (map (fun gist_id => EvRemote (CallDelete gist_id)) gist_ids, inr tt).
Proof.
  induction 1 as [|gist_id gist_ids Hok _ IH]; [reflexivity|].
  cbn [for_each]. rewrite IH. unfold remote. rewrite Hok. reflexivity.
Qed.

Lemma delete_loop_fails (gapi : GistAPI) (before after : list string) (gist_id : string)
    (e : exn) :
  Forall (fun gist_id => api_call gapi (CallDelete gist_id) = inr tt) before ->
  api_call gapi (CallDelete gist_id) = inl e ->
  for_each (before ++ gist_id :: after)
    (fun gist_id => remote (CallDelete gist_id) (api_call gapi (CallDelete gist_id)))
  = (map (fun gist_id => EvRemote (CallDelete gist_id)) (before ++ [gist_id]), inl e).
Proof.
  intros Hbefore Hfail.
  induction Hbefore as [|first before Hok _ IH]; simpl.
  - unfold remote. rewrite Hfail. reflexivity.
  - cbn [for_each app]. rewrite IH. unfold remote. rewrite Hok. reflexivity.
Qed.

(** X7. [delete] with a list of identifiers, all of which the remote
    accepts, deletes each of them once, in the order given. *)
Theorem delete_deletes_in_order (args : gmap string value) (gapi : GistAPI)
    (gist_ids : list string) :
  args !! "<ids>" = Some (VList gist_ids) ->
  Forall (fun gist_id => api_call gapi (CallDelete gist_id) = inr tt) gist_ids ->
  cmd_delete args gapi
  = (map (fun gist_id => EvRemote (CallDelete gist_id)) gist_ids, inr tt).
Proof.
  intros Hids Hok. unfold cmd_delete, arg. rewrite Hids, bind_ret.
  simpl iterate. rewrite bind_lift. apply delete_loop_ok, Hok.
Qed.

Lemma delete_deletes_in_order_witness :
  let args := Sample.parsed [("delete", VBool true); ("<ids>", VList ["a1"; "b2"])] in
  args !! "<ids>" = Some (VList ["a1"; "b2"]) /\
  Forall (fun gist_id => api_call (Sample.api []) (CallDelete gist_id) = inr tt)
         ["a1"; "b2"] /\
  cmd_delete args (Sample.api [])
  = ([EvRemote (CallDelete "a1"); EvRemote (CallDelete "b2")], inr tt).
Proof.
  cbv zeta. split; [reflexivity|]. split; [repeat constructor|].
  apply (delete_deletes_in_order
           (Sample.parsed [("delete", VBool true); ("<ids>", VList ["a1"; "b2"])])
           (Sample.api []) ["a1"; "b2"]); [reflexivity | repeat constructor].
Defined.

(** X8. [delete] stops at the first identifier the remote refuses: the
    identifiers before it are deleted, the exception of the refusal leaves
    the command, and the identifiers after it are never tried. *)
Theorem delete_stops_at_first_failure (args : gmap string value) (gapi : GistAPI)
    (before after : list string) (gist_id : string) (e : exn) :
  args !! "<ids>" = Some (VList (before ++ gist_id :: after)) ->
  Forall (fun gist_id => api_call gapi (CallDelete gist_id) = inr tt) before ->
  api_call gapi (CallDelete gist_id) = inl e ->
  cmd_delete args gapi
  = (map (fun gist_id => EvRemote (CallDelete gist_id)) (before ++ [gist_id]), inl e).
Proof.
  intros Hids Hok Hfail. unfold cmd_delete, arg. rewrite Hids, bind_ret.
  simpl iterate. rewrite bind_lift. apply delete_loop_fails; assumption.
Qed.

Lemma delete_stops_at_first_failure_witness :
  let gapi :=
    {| api_list := inr []; api_info := fun _ => inr "{}";
       api_content := fun _ => inr []; api_files := fun _ => inr [];
       api_create := fun _ _ _ => inr "";
       api_call := fun call =>
         match call with
         | CallDelete "b2" => inl (OtherError "404")
         | _ => inr tt
         end |} in
  let args := Sample.parsed [("delete", VBool true); ("<ids>", VList ["a1"; "b2"; "c3"])] in
  args !! "<ids>" = Some (VList (["a1"] ++ "b2" :: ["c3"])) /\
  Forall (fun gist_id => api_call gapi (CallDelete gist_id) = inr tt) ["a1"] /\
  api_call gapi (CallDelete "b2") = inl (OtherError "404") /\
  cmd_delete args gapi
  = ([EvRemote (CallDelete "a1"); EvRemote (CallDelete "b2")], inl (OtherError "404")).
Proof.
  cbv zeta. split; [reflexivity|]. split; [repeat constructor|]. split; [reflexivity|].
  apply (delete_stops_at_first_failure
           (Sample.parsed [("delete", VBool true); ("<ids>", VList ["a1"; "b2"; "c3"])])
           _ ["a1"] ["c3"] "b2" (OtherError "404"));
    [reflexivity | repeat constructor | reflexivity].
Defined.

(** ** [list] *)

Lemma for_each_cons {A : Type} (x : A) (l : list A) (body : A -> M unit) :
  for_each (x :: l) body = bind (body x) (fun _ => for_each l body).
Proof. reflexivity. Qed.

Lemma list_loop (w : World) (gists : list GistInfo) :
  for_each gists (fun info =>
    let public := if gi_public info then "+" else "-" in
    let desc := match gi_desc info with None => "" | Some d => d end in
    let line := gi_id info ++ " " ++ public ++ " " ++ desc in
    try_except (py_print w (elide line (terminal_width w)))
      is_UnicodeEncodeError (ret tt))
  = (map EvPrint
       (List.filter (stdout_encodable w)
          (map (fun info => elide (list_line info) (terminal_width w)) gists)),
     inr tt).
Proof.
  induction gists as [|info gists IH]; [reflexivity|].
  rewrite for_each_cons, IH. simpl. unfold py_print, list_line.
  destruct (stdout_encodable w _); reflexivity.
Qed.

Lemma len_elide_le (txt : string) (w : Z) :
  3 < w -> PyStr.len (elide txt (Some w)) <= w.
Proof.
  intros Hw. unfold elide.
  destruct (Z.ltb_spec 3 w) as [_|Hle]; [|lia].
  destruct (Z.ltb_spec w (PyStr.len txt)) as [Hlen|Hlen]; [|lia].
  rewrite (len_elided txt w Hw Hlen). lia.
Qed.

Lemma printed_map_print (texts : list string) : printed (map EvPrint texts) = texts.
Proof. induction texts as [|t texts IH]; simpl; [|rewrite IH]; reflexivity. Qed.

(** X9. Once the remote has answered, [list] prints one elided line
    [id +/- description] per gist, in the order of the answer, leaving out
    exactly the lines that the output stream cannot encode; it does not
    fail on them. *)
Theorem list_prints_the_encodable_rows (w : World) (gapi : GistAPI) (gists : list GistInfo) :
  api_list gapi = inr gists ->
  cmd_list w gapi
  = (EvRemote CallList ::
     map EvPrint
       (List.filter (stdout_encodable w)
          (map (fun info => elide (list_line info) (terminal_width w)) gists)),
     inr tt).
Proof.
  intros Hlist. unfold cmd_list, remote. rewrite Hlist. simpl.
  rewrite list_loop. reflexivity.
Qed.

Lemma list_prints_the_encodable_rows_witness :
  let w := Sample.world true "" [] [] [] "" Sample.config [] in
  api_list (Sample.api []) =
    inr [ {| gi_id := "abc123"; gi_public := true; gi_desc := Some "notes" |} ] /\
  cmd_list w (Sample.api []) = ([EvRemote CallList; EvPrint "abc123 + notes"], inr tt).
Proof.
  cbv zeta. split; [reflexivity|].
  apply (list_prints_the_encodable_rows
           (Sample.world true "" [] [] [] "" Sample.config []) (Sample.api [])
           [ {| gi_id := "abc123"; gi_public := true; gi_desc := Some "notes" |} ] eq_refl).
Defined.

(** X10. On a terminal wider than 3 columns, no line that [list] prints
    is longer than the terminal is wide. *)
Theorem list_lines_fit_the_terminal (w : World) (gapi : GistAPI) (width : Z) :
  terminal_width w = Some width ->
  3 < width ->
  Forall (fun text => PyStr.len text <= width) (printed (log_of (cmd_list w gapi))).
Proof.
  intros Hwidth Hwide. unfold cmd_list, remote.
  destruct (api_list gapi) as [e|gists]; [constructor|].
  simpl. rewrite list_loop. simpl. rewrite printed_map_print, Hwidth.
  apply List.Forall_forall. intros text Hin.
  apply filter_In in Hin. destruct Hin as [Hin _].
  apply in_map_iff in Hin. destruct Hin as (info & <- & _).
  apply len_elide_le, Hwide.
Qed.

Lemma list_lines_fit_the_terminal_witness :
  let w := Sample.world true "" [] [] [] "" Sample.config [] in
  terminal_width w = Some 80 /\ 3 < 80 /\
  Forall (fun text => PyStr.len text <= 80) (printed (log_of (cmd_list w (Sample.api [])))).
Proof.
  cbv zeta. split; [reflexivity|]. split; [lia|].
  apply (list_lines_fit_the_terminal
           (Sample.world true "" [] [] [] "" Sample.config []) (Sample.api []) 80 eq_refl).
  lia.
Defined.

(** ** More on [content] *)

Lemma bind_remote_ok {A B : Type} (call : RemoteCall) (answer : exn + A) (a : A)
    (k : A -> M B) :
  answer = inr a ->
  bind (remote call answer) k = (EvRemote call :: log_of (k a), result_of (k a)).
Proof. intros ->. unfold remote. simpl. destruct (k a); reflexivity. Qed.

Lemma content_loop (w : World) (stored : list (string * string)) :
  Forall (fun file => stdout_encodable w (content_block (fst file) (snd file)) = true)
         stored ->
  for_each stored (fun '(name, lines) => py_print w (content_block name lines))
  = (map (fun file => EvPrint (content_block (fst file) (snd file))) stored, inr tt).
Proof.
  induction 1 as [|[name lines] stored Hok _ IH]; [reflexivity|].
  rewrite for_each_cons, IH. simpl in *. unfold py_print. rewrite Hok. reflexivity.
Qed.

Lemma decrypt_loop (w : World) (homedir : string) (stored : list (string * string))
    (plain : list string) :
  Forall2 (fun file text =>
             gpg_decrypt w homedir (snd file) = inr text /\
             stdout_encodable w (decrypted_block (fst file) text) = true)
          stored plain ->
  for_each stored (fun '(name, lines) =>
    emit (EvDecrypt homedir lines) ;;
    lines <- lift (gpg_decrypt w homedir lines) ;;
    py_print w (decrypted_block name lines))
  = (concat (zip_with (fun file text =>
                         [EvDecrypt homedir (snd file);
                          EvPrint (decrypted_block (fst file) text)])
                      stored plain),
     inr tt).
Proof.
  induction 1 as [|[name lines] text stored plain [Hdec Hok] _ IH]; [reflexivity|].
  rewrite for_each_cons, IH. simpl in *. rewrite Hdec. simpl.
  unfold py_print. rewrite Hok. reflexivity.
Qed.

(** X11. [content] without a file name prints every file of the gist, in
    the order of the remote answer, each as its name, a colon and a line
    break, then its content and a line break. *)
Theorem content_prints_every_file_in_order (w : World) (args : gmap string value)
    (config : Config) (gapi : GistAPI) (gist_id decrypt : value)
    (stored : list (string * string)) :
  args !! "<id>" = Some gist_id ->
  args !! "<filename>" = Some VNone ->
  args !! "--decrypt" = Some decrypt ->
  truthy decrypt = false ->
  api_content gapi gist_id = inr stored ->
  Forall (fun file => stdout_encodable w (content_block (fst file) (snd file)) = true)
         stored ->
  cmd_content w args config gapi
  = (EvRemote (CallContent gist_id) ::
     map (fun file => EvPrint (content_block (fst file) (snd file))) stored,
     inr tt).
Proof.
  intros Hid Hname Hflag Hplain Hstored Hok.
  unfold cmd_content, arg, remote. rewrite Hid, bind_ret.
  rewrite Hstored, Hname, Hflag. simpl. rewrite Hplain.
  rewrite (content_loop w stored Hok). reflexivity.
Qed.

Lemma content_prints_every_file_in_order_witness :
  let w := Sample.world true "" [] [] [] "" Sample.config [] in
  let args := Sample.parsed [("content", VBool true); ("<id>", VStr "abc123")] in
  let stored := [("a.txt", "hello"); ("b.txt", "world")] in
  args !! "<id>" = Some (VStr "abc123") /\
  args !! "<filename>" = Some VNone /\
  args !! "--decrypt" = Some (VBool false) /\
  api_content (Sample.api stored) (VStr "abc123") = inr stored /\
  cmd_content w args Sample.config (Sample.api stored)
  = ([EvRemote (CallContent (VStr "abc123"));
      EvPrint (content_block "a.txt" "hello");
      EvPrint (content_block "b.txt" "world")],
     inr tt).
Proof.
  cbv zeta. do 4 (split; [reflexivity|]).
  apply (content_prints_every_file_in_order
           (Sample.world true "" [] [] [] "" Sample.config [])
           (Sample.parsed [("content", VBool true); ("<id>", VStr "abc123")])
           Sample.config (Sample.api [("a.txt", "hello"); ("b.txt", "world")])
           (VStr "abc123") (VBool false) [("a.txt", "hello"); ("b.txt", "world")]);
    try reflexivity.
  repeat constructor.
Defined.

(** X12. [content --decrypt] with no [gnupg-homedir] in the configuration
    raises its [GistError] only after the gist has been fetched from the
    remote: unlike [create], the check does not come first. *)
Theorem content_checks_homedir_after_fetching (w : World) (args : gmap string value)
    (config : Config) (gapi : GistAPI) (gist_id decrypt : value) (filename : option string)
    (stored : list (string * string)) :
  args !! "<id>" = Some gist_id ->
  args !! "<filename>" = Some (match filename with Some f => VStr f | None => VNone end) ->
  args !! "--decrypt" = Some decrypt ->
  truthy decrypt = true ->
  api_content gapi gist_id = inr stored ->
  ConfigParser.has_option config "gist" "gnupg-homedir" = false ->
  cmd_content w args config gapi
  = ([EvRemote (CallContent gist_id)],
     inl (GistError "gnupg-homedir missing from config file")).
Proof.
  intros Hid Hname Hflag Hdecrypt Hstored Hmissing.
  unfold cmd_content, arg, remote. rewrite Hid, bind_ret.
  rewrite Hstored, Hname, Hflag. destruct filename; simpl;
    rewrite Hdecrypt, Hmissing; reflexivity.
Qed.

Lemma content_checks_homedir_after_fetching_witness :
  let w := Sample.world true "" [] [] [] "" Sample.config [] in
  let args := Sample.parsed [("content", VBool true); ("<id>", VStr "abc123");
                             ("--decrypt", VBool true)] in
  args !! "<id>" = Some (VStr "abc123") /\
  args !! "<filename>" = Some VNone /\
  args !! "--decrypt" = Some (VBool true) /\
  api_content (Sample.api [("a.txt", "hello")]) (VStr "abc123") = inr [("a.txt", "hello")] /\
  ConfigParser.has_option Sample.config "gist" "gnupg-homedir" = false /\
  cmd_content w args Sample.config (Sample.api [("a.txt", "hello")])
  = ([EvRemote (CallContent (VStr "abc123"))],
     inl (GistError "gnupg-homedir missing from config file")).
Proof.
  cbv zeta. do 5 (split; [reflexivity|]).
  apply (content_checks_homedir_after_fetching
           (Sample.world true "" [] [] [] "" Sample.config [])
           (Sample.parsed [("content", VBool true); ("<id>", VStr "abc123");
                           ("--decrypt", VBool true)])
           Sample.config (Sample.api [("a.txt", "hello")])
           (VStr "abc123") (VBool true) None [("a.txt", "hello")]);
    reflexivity.
Defined.

(** X13. [content --decrypt] without a file name decrypts the files one
    by one in the order of the remote answer, with the configured home
    directory, and prints each under its name and the mark [(decrypted)]
    before it turns to the next. *)
Theorem content_decrypts_file_by_file (w : World) (args : gmap string value)
    (config : Config) (gapi : GistAPI)
    (gist_id decrypt : value) (homedir : string)
    (stored : list (string * string)) (plain : list string) :
  args !! "<id>" = Some gist_id ->
  args !! "<filename>" = Some VNone ->
  args !! "--decrypt" = Some decrypt ->
  truthy decrypt = true ->
  api_content gapi gist_id = inr stored ->
  ConfigParser.get config "gist" "gnupg-homedir" = inr homedir ->
  Forall2 (fun file text =>
             gpg_decrypt w homedir (snd file) = inr text /\
             stdout_encodable w (decrypted_block (fst file) text) = true)
          stored plain ->
  cmd_content w args config gapi
  = (EvRemote (CallContent gist_id) ::
     concat (zip_with (fun file text =>
                         [EvDecrypt homedir (snd file);
                          EvPrint (decrypted_block (fst file) text)])
                      stored plain),
     inr tt).
Proof.
  intros Hid Hname Hflag Hdecrypt Hstored Hhome Hplain.
  unfold cmd_content, arg. rewrite Hid, bind_ret, Hname, Hflag.
  rewrite (bind_remote_ok _ _ _ _ Hstored). cbv beta. rewrite !bind_ret.
  simpl dict_get. rewrite bind_lift. cbv iota beta. rewrite bind_ret, Hdecrypt.
  rewrite (get_has_option _ _ _ _ Hhome), Hhome.
  simpl negb. cbv iota. rewrite bind_lift.
  rewrite (decrypt_loop w homedir stored plain Hplain). reflexivity.
Qed.

Lemma content_decrypts_file_by_file_witness :
  let w := Sample.world true "" [] [] [] "" Sample.config [] in
  let args := Sample.parsed [("content", VBool true); ("<id>", VStr "abc123");
                             ("--decrypt", VBool true)] in
  let opts : gmap string string := {[ "token" := "t0ken"; "gnupg-homedir" := "/keys" ]} in
  let config : Config := {[ "gist" := opts ]} in
  let stored := [("a.txt.asc", "xx"); ("b.txt.asc", "yy")] in
  args !! "<id>" = Some (VStr "abc123") /\
  ConfigParser.get config "gist" "gnupg-homedir" = inr "/keys" /\
  cmd_content w args config (Sample.api stored)
  = ([EvRemote (CallContent (VStr "abc123"));
      EvDecrypt "/keys" "xx"; EvPrint (decrypted_block "a.txt.asc" "plain(xx)");
      EvDecrypt "/keys" "yy"; EvPrint (decrypted_block "b.txt.asc" "plain(yy)")],
     inr tt).
Proof.
  cbv zeta. do 2 (split; [reflexivity|]).
  apply (content_decrypts_file_by_file
           (Sample.world true "" [] [] [] "" Sample.config [])
           (Sample.parsed [("content", VBool true); ("<id>", VStr "abc123");
                           ("--decrypt", VBool true)])
           {[ "gist" := {[ "token" := "t0ken"; "gnupg-homedir" := "/keys" ]} ]}
           (Sample.api [("a.txt.asc", "xx"); ("b.txt.asc", "yy")])
           (VStr "abc123") (VBool true) "/keys"
           [("a.txt.asc", "xx"); ("b.txt.asc", "yy")] ["plain(xx)"; "plain(yy)"]);
    try reflexivity.
  repeat constructor.
Defined.

(** ** The remote calls of a run *)

Lemma remote_calls_app (l1 l2 : list Event) :
  remote_calls (l1 ++ l2) = (remote_calls l1 ++ remote_calls l2)%list.
Proof.
  induction l1 as [|ev l1 IH]; [reflexivity|].
  destruct ev; simpl; rewrite IH; reflexivity.
Qed.

Lemma remote_calls_local (log : list Event) :
  Forall (fun ev => is_remote ev = false) log -> remote_calls log = [].
Proof.
  induction 1 as [|ev log Hev _ IH]; [reflexivity|].
  destruct ev; simpl in *; try exact IH. discriminate Hev.
Qed.

Lemma remote_calls_bind {A B : Type} (c : M A) (k : A -> M B) :
  remote_calls (log_of (bind c k)) =
    (remote_calls (log_of c) ++
     match result_of c with
     | inl _ => []
     | inr a => remote_calls (log_of (k a))
     end)%list.
Proof.
  rewrite log_of_bind. destruct (result_of c); [|apply remote_calls_app].
  rewrite app_nil_r. reflexivity.
Qed.

Lemma quiet_bind {A B : Type} (c : M A) (k : A -> M B) :
  remote_calls (log_of c) = [] ->
  (forall a, remote_calls (log_of (k a)) = []) ->
  remote_calls (log_of (bind c k)) = [].
Proof.
  intros Hc Hk. rewrite remote_calls_bind, Hc.
  destruct (result_of c); [reflexivity | apply Hk].
Qed.

Lemma quiet_lift {A : Type} (r : exn + A) : remote_calls (log_of (lift r)) = [].
Proof. reflexivity. Qed.

Lemma quiet_arg (args : gmap string value) (k : string) :
  remote_calls (log_of (arg args k)) = [].
Proof. unfold arg. destruct (args !! k); reflexivity. Qed.

Lemma quiet_print (w : World) (text : string) :
  remote_calls (log_of (py_print w text)) = [].
Proof. unfold py_print. destruct (stdout_encodable w text); reflexivity. Qed.

Lemma quiet_for_each {A : Type} (l : list A) (body : A -> M unit) :
  (forall x, remote_calls (log_of (body x)) = []) ->
  remote_calls (log_of (for_each l body)) = [].
Proof.
  intros Hbody. induction l as [|x l IH]; [reflexivity|].
  rewrite for_each_cons. apply quiet_bind; [apply Hbody | intros _; exact IH].
Qed.

Lemma quiet_fold_m {A S : Type} (f : S -> A -> M S) (l : list A) (s : S) :
  (forall s x, remote_calls (log_of (f s x)) = []) ->
  remote_calls (log_of (fold_m f l s)) = [].
Proof.
  intros Hf. revert s. induction l as [|x l IH]; intros s; [reflexivity|].
  simpl. apply quiet_bind; [apply Hf | intros s'; apply IH].
Qed.

(** A step that talks to the remote once, then steps that do not. *)
Lemma one_call_then_quiet {A B : Type} (call : RemoteCall) (answer : exn + A)
    (k : A -> M B) :
  (forall a, remote_calls (log_of (k a)) = []) ->
  (length (remote_calls (log_of (bind (remote call answer) k))) <= 1)%nat.
Proof.
  intros Hk. rewrite remote_calls_bind. unfold remote.
  destruct answer as [e|a]; simpl; [lia|]. rewrite Hk. simpl. lia.
Qed.

(** Steps that do not talk to the remote, then the rest. *)
Lemma quiet_then {A B : Type} (c : M A) (k : A -> M B) (n : nat) :
  remote_calls (log_of c) = [] ->
  (forall a, (length (remote_calls (log_of (k a))) <= n)%nat) ->
  (length (remote_calls (log_of (bind c k))) <= n)%nat.
Proof.
  intros Hc Hk. rewrite remote_calls_bind, Hc.
  destruct (result_of c); simpl; [lia | apply Hk].
Qed.

Lemma quiet_encrypt_files (w : World) (config : Config) (files : list FileInfo) :
  remote_calls (log_of (encrypt_files w config files)) = [].
Proof.
  unfold encrypt_files.
  apply quiet_bind; [apply quiet_lift|]. intros fingerprint.
  apply quiet_bind; [apply quiet_lift|]. intros gnupghome.
  apply quiet_fold_m. intros data file.
  apply quiet_bind; [reflexivity|]. intros _.
  apply quiet_bind; [apply quiet_lift|]. intros cypher. reflexivity.
Qed.

Lemma quiet_plain_files (files : list FileInfo) :
  remote_calls (log_of (plain_files files)) = [].
Proof.
  unfold plain_files. apply quiet_fold_m. intros data file.
  destruct (hashable (name file)); reflexivity.
Qed.

Lemma quiet_check_not_empty (files : list FileInfo) :
  remote_calls (log_of (check_not_empty files)) = [].
Proof.
  unfold check_not_empty. apply quiet_for_each. intros file.
  destruct (PyStr.len (content file) =? 0); reflexivity.
Qed.

Lemma submit_calls_once (w : World) (args : gmap string value) (config : Config)
    (gapi : GistAPI) (files : list FileInfo) :
  (length (remote_calls (log_of (submit w args config gapi files))) <= 1)%nat.
Proof.
  unfold submit.
  apply quiet_then; [apply quiet_check_not_empty|]. intros _.
  apply quiet_then; [apply quiet_arg|]. intros description.
  apply quiet_then; [apply quiet_arg|]. intros public.
  apply quiet_then; [apply quiet_arg|]. intros encrypt.
  apply quiet_then.
  { destruct (truthy encrypt); [apply quiet_encrypt_files | apply quiet_plain_files]. }
  intros data. apply one_call_then_quiet. intros result. apply quiet_print.
Qed.

Lemma create_calls_once (w : World) (args : gmap string value) (config : Config)
    (editor : string) (gapi : GistAPI) :
  (length (remote_calls (log_of (cmd_create w args config editor gapi))) <= 1)%nat.
Proof.
  unfold cmd_create.
  apply quiet_then; [rewrite check_encryption_log; reflexivity|]. intros _.
  apply quiet_then; [apply remote_calls_local, acquire_log_local|]. intros files.
  apply submit_calls_once.
Qed.

Lemma content_calls_once (w : World) (args : gmap string value) (config : Config)
    (gapi : GistAPI) :
  (length (remote_calls (log_of (cmd_content w args config gapi))) <= 1)%nat.
Proof.
  unfold cmd_content.
  apply quiet_then; [apply quiet_arg|]. intros gist_id.
  apply one_call_then_quiet. intros stored.
  apply quiet_bind; [apply quiet_arg|]. intros filename.
  apply quiet_bind; [apply quiet_lift|]. intros gist_file.
  apply quiet_bind; [apply quiet_arg|]. intros decrypt.
  destruct (truthy decrypt).
  - destruct (negb (ConfigParser.has_option config "gist" "gnupg-homedir")); [reflexivity|].
    apply quiet_bind; [apply quiet_lift|]. intros homedir.
    destruct gist_file as [gist_file|].
    + apply quiet_bind; [reflexivity|]. intros _.
      apply quiet_bind; [apply quiet_lift|]. intros text. apply quiet_print.
    + apply quiet_for_each. intros [name lines].
      apply quiet_bind; [reflexivity|]. intros _.
      apply quiet_bind; [apply quiet_lift|]. intros text. apply quiet_print.
  - destruct gist_file as [gist_file|]; [apply quiet_print|].
    apply quiet_for_each. intros [name lines]. apply quiet_print.
Qed.

Lemma list_calls_once (w : World) (gapi : GistAPI) :
  (length (remote_calls (log_of (cmd_list w gapi))) <= 1)%nat.
Proof.
  unfold cmd_list. apply one_call_then_quiet. intros gists.
  apply quiet_for_each. intros info. cbv zeta. unfold try_except, py_print.
  destruct (stdout_encodable w _); reflexivity.
Qed.

Lemma single_call_once {A : Type} (call : RemoteCall) (answer : exn + A) :
  (length (remote_calls (log_of (remote call answer))) <= 1)%nat.
Proof. unfold remote. destruct answer; simpl; lia. Qed.

Lemma dispatch_calls_once (args : gmap string value) (table : list (string * M unit)) :
  Forall (fun entry => selected args (fst entry) = true ->
                       (length (remote_calls (log_of (snd entry))) <= 1)%nat) table ->
  (length (remote_calls (log_of (dispatch args table))) <= 1)%nat.
Proof.
  induction 1 as [|[command routine] table Hentry _ IH]; [simpl; lia|].
  simpl dispatch. unfold selected in Hentry. simpl in Hentry. unfold arg.
  destruct (args !! command) as [v|]; [|simpl; lia].
  rewrite bind_ret. destruct (truthy v); [apply Hentry; reflexivity | exact IH].
Qed.

(** X14. Unless the command is [delete], a run of [main] makes at most
    one call to the remote API, whatever the arguments, the configuration
    and the answers of the world. *)
Theorem at_most_one_remote_call (w : World) (args : gmap string value)
    (config0 : option Config) :
  selected args "delete" = false ->
  (length (remote_calls (log_of (main w args config0))) <= 1)%nat.
Proof.
  intros Hdelete. unfold main. apply quiet_then.
  { rewrite startup_log. apply remote_calls_local.
    eapply Forall_impl; [apply load_config_log|]. intros ev [_ Hev]. exact Hev. }
  intros [[config editor] gapi]. apply dispatch_calls_once. unfold commands.
  repeat match goal with
         | |- Forall _ (_ :: _) => apply List.Forall_cons
         | |- Forall _ [] => apply List.Forall_nil
         end; simpl fst; simpl snd; intros Hsel.
  - apply list_calls_once.
  - unfold cmd_info. apply quiet_then; [apply quiet_arg|]. intros gist_id.
    apply one_call_then_quiet. intros info. apply quiet_print.
  - unfold cmd_edit. apply quiet_then; [apply quiet_arg|]. intros gist_id.
    apply single_call_once.
  - unfold cmd_description. apply quiet_then; [apply quiet_arg|]. intros gist_id.
    apply quiet_then; [apply quiet_arg|]. intros description. apply single_call_once.
  - unfold cmd_fork. apply quiet_then; [apply quiet_arg|]. intros gist_id.
    apply single_call_once.
  - unfold cmd_clone. apply quiet_then; [apply quiet_arg|]. intros gist_id.
    apply quiet_then; [apply quiet_arg|]. intros gist_name. apply single_call_once.
  - apply content_calls_once.
  - unfold cmd_files. apply quiet_then; [apply quiet_arg|]. intros gist_id.
    apply one_call_then_quiet. intros files. apply quiet_for_each. intros f.
    apply quiet_print.
  - unfold cmd_archive. apply quiet_then; [apply quiet_arg|]. intros gist_id.
    apply single_call_once.
  - rewrite Hdelete in Hsel. discriminate Hsel.
  - unfold cmd_version. rewrite quiet_print. simpl. lia.
  - apply create_calls_once.
Qed.

Lemma at_most_one_remote_call_witness :
  let w := Sample.world true "" [] [] [] "" Sample.config
             [("a.txt", "hello"); ("b.txt", "world")] in
  let args := Sample.parsed [("content", VBool true); ("<id>", VStr "abc123")] in
  selected args "delete" = false /\
  (length (remote_calls (log_of (main w args (Some Sample.config)))) <= 1)%nat.
Proof.
  cbv zeta. split; [reflexivity|].
  apply (at_most_one_remote_call
           (Sample.world true "" [] [] [] "" Sample.config
              [("a.txt", "hello"); ("b.txt", "world")])
           (Sample.parsed [("content", VBool true); ("<id>", VStr "abc123")])
           (Some Sample.config) eq_refl).
Defined.

(** ** [create]: the payload *)

Lemma dict_lookup_set {K V : Type} `{EqDecision K} (k k' : K) (v : V) (d : list (K * V)) :
  dict_lookup k' (dict_set k v d) = if decide (k' = k) then Some v else dict_lookup k' d.
Proof.
  induction d as [|[k0 v0] d IH]; simpl.
  - destruct (decide (k' = k)); reflexivity.
  - destruct (decide (k = k0)) as [->|Hne]; simpl.
    + destruct (decide (k' = k0)); reflexivity.
    + rewrite IH. destruct (decide (k' = k0)) as [->|]; [|reflexivity].
      destruct (decide (k0 = k)); [congruence | reflexivity].
Qed.

Lemma dict_lookup_app {K V : Type} `{EqDecision K} (k : K) (d1 d2 : list (K * V)) :
  dict_lookup k (d1 ++ d2) =
    match dict_lookup k d1 with
    | Some v => Some v
    | None => dict_lookup k d2
    end.
Proof.
  induction d1 as [|[k0 v0] d1 IH]; simpl; [reflexivity|].
  destruct (decide (k = k0)); [reflexivity | exact IH].
Qed.

Lemma dict_set_keys {K V : Type} `{EqDecision K} (k : K) (v : V) (d : list (K * V)) :
  k ∈ map fst d -> map fst (dict_set k v d) = map fst d.
Proof.
  induction d as [|[k0 v0] d IH]; simpl; intros Hk.
  - apply elem_of_nil in Hk. contradiction.
  - destruct (decide (k = k0)) as [->|Hne]; [reflexivity|]. simpl.
    apply elem_of_cons in Hk. destruct Hk as [Hk|Hk]; [contradiction|].
    rewrite (IH Hk). reflexivity.
Qed.

Lemma dict_set_fresh {K V : Type} `{EqDecision K} (k : K) (v : V) (d : list (K * V)) :
  k ∉ map fst d -> dict_set k v d = (d ++ [(k, v)])%list.
Proof.
  induction d as [|[k0 v0] d IH]; simpl; intros Hk; [reflexivity|].
  apply not_elem_of_cons in Hk. destruct Hk as [Hne Hk].
  destruct (decide (k = k0)); [contradiction|]. rewrite (IH Hk). reflexivity.
Qed.

Lemma dict_set_NoDup {K V : Type} `{EqDecision K} (k : K) (v : V) (d : list (K * V)) :
  NoDup (map fst d) -> NoDup (map fst (dict_set k v d)).
Proof.
  intros Hd. destruct (decide (k ∈ map fst d)) as [Hin|Hin].
  - rewrite (dict_set_keys k v d Hin). exact Hd.
  - rewrite (dict_set_fresh k v d Hin), map_app. simpl.
    apply NoDup_app. split; [exact Hd|]. split.
    + intros x Hx Hx'. apply list_elem_of_singleton in Hx'. subst x. contradiction.
    + apply NoDup_singleton.
Qed.

(** The dictionary comprehension, as a left fold. *)
Lemma plain_files_fold (files : list FileInfo) (data : list (value * string)) :
  Forall (fun f => hashable (name f) = true) files ->
  fold_m (fun data file =>
            if hashable (name file) then ret (dict_set (name file) (content file) data)
            else raise (TypeError "unhashable type: 'list'"))
         files data
  = ret (fold_left (fun data file => dict_set (name file) (content file) data) files data).
Proof.
  intros Hfiles. revert data.
  induction Hfiles as [|f files Hf _ IH]; intros data; [reflexivity|].
  simpl. rewrite Hf, bind_ret. apply IH.
Qed.

Lemma payload_fold_spec (files : list FileInfo) (data : list (value * string)) :
  NoDup (map fst data) ->
  NoDup (map fst (fold_left (fun data file => dict_set (name file) (content file) data)
                            files data)) /\
  forall k : value,
    dict_lookup k (fold_left (fun data file => dict_set (name file) (content file) data)
                             files data)
    = match dict_lookup k (rev (map (fun f => (name f, content f)) files)) with
      | Some v => Some v
      | None => dict_lookup k data
      end.
Proof.
  revert data. induction files as [|f files IH]; intros data Hdata.
  - split; [exact Hdata | reflexivity].
  - simpl fold_left.
    destruct (IH (dict_set (name f) (content f) data) (dict_set_NoDup _ _ _ Hdata))
      as [Hnodup Hlookup].
    split; [exact Hnodup|]. intros k. rewrite Hlookup. simpl map. simpl rev.
    rewrite dict_lookup_app, dict_lookup_set. simpl.
    destruct (dict_lookup k (rev (map (fun f => (name f, content f)) files)));
      [reflexivity|].
    destruct (decide (k = name f)); reflexivity.
Qed.

(** X15. The payload built from files that are not encrypted has each
    name once, and under every name the content of the last file that
    carries it: of two files with one name, the later one is submitted. *)
Theorem plain_payload_last_file_wins (files : list FileInfo) :
  Forall (fun f => hashable (name f) = true) files ->
  exists data : list (value * string),
    plain_files files = ret data /\
    NoDup (map fst data) /\
    forall k : value,
      dict_lookup k data = dict_lookup k (rev (map (fun f => (name f, content f)) files)).
Proof.
  intros Hfiles. eexists. split; [apply (plain_files_fold files [] Hfiles)|].
  destruct (payload_fold_spec files [] (NoDup_nil_2)) as [Hnodup Hlookup].
  split; [exact Hnodup|]. intros k. rewrite Hlookup.
  destruct (dict_lookup k (rev _)); reflexivity.
Qed.

Lemma plain_payload_last_file_wins_witness :
  let files := [ {| name := VStr "x.txt"; content := "first" |};
                 {| name := VStr "y.txt"; content := "other" |};
                 {| name := VStr "x.txt"; content := "second" |} ] in
  Forall (fun f => hashable (name f) = true) files /\
  exists data : list (value * string),
    plain_files files = ret data /\
    NoDup (map fst data) /\
    forall k : value,
      dict_lookup k data = dict_lookup k (rev (map (fun f => (name f, content f)) files)).
Proof.
  cbv zeta.
  assert (Hfiles : Forall (fun f => hashable (name f) = true)
                     [ {| name := VStr "x.txt"; content := "first" |};
                       {| name := VStr "y.txt"; content := "other" |};
                       {| name := VStr "x.txt"; content := "second" |} ]).
  { repeat constructor. }
  split; [exact Hfiles|].
  exact (plain_payload_last_file_wins _ Hfiles).
Defined.

Example payload_of_a_name_clash :
  plain_files [ {| name := VStr "x.txt"; content := "first" |};
                {| name := VStr "y.txt"; content := "other" |};
                {| name := VStr "x.txt"; content := "second" |} ]
  = ret [(VStr "x.txt", "second"); (VStr "y.txt", "other")].
Proof. vm_compute. reflexivity. Qed.

Lemma payload_fold_distinct (files : list FileInfo) (data : list (value * string)) :
  NoDup (map fst data ++ map name files) ->
  fold_left (fun data file => dict_set (name file) (content file) data) files data
  = (data ++ map (fun f => (name f, content f)) files)%list.
Proof.
  revert data. induction files as [|f files IH]; intros data Hnodup.
  - simpl. rewrite app_nil_r. reflexivity.
  - simpl fold_left. simpl map in *.
    assert (Hfresh : name f ∉ map fst data).
    { apply NoDup_app in Hnodup. destruct Hnodup as (_ & Hdisj & _).
      intros Hin. apply (Hdisj _ Hin). apply list_elem_of_here. }
    rewrite (dict_set_fresh _ _ _ Hfresh), IH.
    + rewrite <- app_assoc. reflexivity.
    + rewrite map_app. simpl. rewrite <- app_assoc. exact Hnodup.
Qed.

(** X16. When the files have pairwise distinct names, the payload of an
    unencrypted [create] lists them in the order they were gathered, each
    name with its content. *)
Theorem plain_payload_keeps_order (files : list FileInfo) :
  Forall (fun f => hashable (name f) = true) files ->
  NoDup (map name files) ->
  plain_files files = ret (map (fun f => (name f, content f)) files).
Proof.
  intros Hfiles Hnodup. unfold plain_files.
  rewrite (plain_files_fold files [] Hfiles).
  rewrite (payload_fold_distinct files [] Hnodup). reflexivity.
Qed.

Lemma plain_payload_keeps_order_witness :
  let files := [ {| name := VStr "foo.txt"; content := "foo" |};
                 {| name := VStr "bar.txt"; content := "bar" |} ] in
  Forall (fun f => hashable (name f) = true) files /\
  NoDup (map name files) /\
  plain_files files = ret [(VStr "foo.txt", "foo"); (VStr "bar.txt", "bar")].
Proof.
  cbv zeta.
  assert (Hfiles : Forall (fun f => hashable (name f) = true)
                     [ {| name := VStr "foo.txt"; content := "foo" |};
                       {| name := VStr "bar.txt"; content := "bar" |} ]).
  { repeat constructor. }
  assert (Hnodup : NoDup (map name
                     [ {| name := VStr "foo.txt"; content := "foo" |};
                       {| name := VStr "bar.txt"; content := "bar" |} ])).
  { simpl. apply NoDup_cons. split; [|apply NoDup_singleton].
    intros Hin. apply list_elem_of_singleton in Hin. discriminate Hin. }
  split; [exact Hfiles|]. split; [exact Hnodup|].
  exact (plain_payload_keeps_order _ Hfiles Hnodup).
Defined.

(** ** [create]: from the command line to the remote *)

Lemma check_encryption_off (args : gmap string value) (config : Config) (encrypt : value) :
  args !! "--encrypt" = Some encrypt -> truthy encrypt = false ->
  check_encryption args config = ret tt.
Proof.
  intros Hflag Hoff. unfold check_encryption, arg. rewrite Hflag, bind_ret, Hoff.
  reflexivity.
Qed.

Lemma acquire_files_run (w : World) (args : gmap string value) (config : Config)
    (editor : string) (paths texts : list string) :
  stdin_isatty w = true ->
  args !! "FILES" = Some (VList paths) ->
  paths <> [] ->
  Forall2 (fun path text => read_utf8 w path = inr text) paths texts ->
  acquire w args config editor =
    (map EvReadFile paths,
     inr (zip_with (fun path text =>
                      {| name := VStr (path_basename w path); content := text |})
                   paths texts)).
Proof.
  intros Htty HFILES Hpaths Hreads. unfold acquire, arg.
  rewrite Htty, HFILES, bind_ret.
  destruct paths as [|path paths]; [contradiction|]. simpl truthy. cbv iota.
  simpl iterate. rewrite bind_lift. apply read_files_run, Hreads.
Qed.

Lemma gathered_names (w : World) (paths texts : list string) :
  length paths = length texts ->
  map name (zip_with (fun path text =>
                        {| name := VStr (path_basename w path); content := text |})
                     paths texts)
  = map (fun path => VStr (path_basename w path)) paths.
Proof.
  revert texts. induction paths as [|path paths IH]; intros [|text texts] Hlen;
    try discriminate Hlen; [reflexivity|].
  simpl. rewrite IH; [reflexivity|]. simpl in Hlen. lia.
Qed.

Lemma gathered_payload (w : World) (paths texts : list string) :
  map (fun f => (name f, content f))
      (zip_with (fun path text =>
                   {| name := VStr (path_basename w path); content := text |})
                paths texts)
  = zip_with (fun path text => (VStr (path_basename w path), text)) paths texts.
Proof.
  revert texts. induction paths as [|path paths IH]; intros [|text texts];
    try reflexivity.
  simpl. rewrite IH. reflexivity.
Qed.

Lemma gathered_contents (w : World) (paths texts : list string) :
  Forall (fun text => text <> "") texts ->
  Forall (fun f => content f <> "")
         (zip_with (fun path text =>
                      {| name := VStr (path_basename w path); content := text |})
                   paths texts).
Proof.
  intros Htexts. revert paths.
  induction Htexts as [|text texts Htext _ IH]; intros [|path paths];
    try constructor; [exact Htext | apply IH].
Qed.

Lemma gathered_hashable (w : World) (paths texts : list string) :
  Forall (fun f => hashable (name f) = true)
         (zip_with (fun path text =>
                      {| name := VStr (path_basename w path); content := text |})
                   paths texts).
Proof.
  revert texts. induction paths as [|path paths IH]; intros [|text texts];
    try constructor; [reflexivity | apply IH].
Qed.

(** Submitting files that are not empty, without encryption. *)
Lemma submit_plain_run (w : World) (args : gmap string value) (config : Config)
    (gapi : GistAPI) (files : list FileInfo) (description public encrypt : value)
    (result : string) :
  Forall (fun f => content f <> "") files ->
  Forall (fun f => hashable (name f) = true) files ->
  NoDup (map name files) ->
  args !! "<desc>" = Some description ->
  args !! "--public" = Some public ->
  args !! "--encrypt" = Some encrypt ->
  truthy encrypt = false ->
  api_create gapi description (map (fun f => (name f, content f)) files) public
  = inr result ->
  stdout_encodable w result = true ->
  submit w args config gapi files
  = ([EvRemote (CallCreate description (map (fun f => (name f, content f)) files) public);
      EvPrint result],
     inr tt).
Proof.
  intros Hfull Hhash Hnodup Hdesc Hpublic Hflag Hoff Hcreate Hok.
  unfold submit, arg. rewrite (check_not_empty_pass files Hfull), bind_ret.
  rewrite Hdesc, Hpublic, Hflag, !bind_ret, Hoff.
  unfold plain_files. rewrite (plain_files_fold files [] Hhash), bind_ret.
  rewrite (payload_fold_distinct files [] Hnodup). simpl app.
  rewrite (bind_remote_ok _ _ _ _ Hcreate). cbv beta.
  unfold py_print. rewrite Hok. reflexivity.
Qed.

(** X17. [create] at a terminal, without encryption, with file paths that
    all read as non-empty text and have pairwise distinct base names:
    the files are read in the order given, then one [create] call carries
    the description, the visibility flag and one entry per path, in that
    order, named by the base name; its result is printed. *)
Theorem create_from_files (w : World) (args : gmap string value) (config : Config)
    (editor : string) (gapi : GistAPI) (paths texts : list string)
    (description public encrypt : value) (result : string) :
  stdin_isatty w = true ->
  args !! "FILES" = Some (VList paths) ->
  paths <> [] ->
  args !! "--encrypt" = Some encrypt ->
  truthy encrypt = false ->
  args !! "<desc>" = Some description ->
  args !! "--public" = Some public ->
  Forall2 (fun path text => read_utf8 w path = inr text) paths texts ->
  Forall (fun text => text <> "") texts ->
  NoDup (map (path_basename w) paths) ->
  api_create gapi description
    (zip_with (fun path text => (VStr (path_basename w path), text)) paths texts) public
  = inr result ->
  stdout_encodable w result = true ->
  cmd_create w args config editor gapi
  = ((map EvReadFile paths ++
      [EvRemote (CallCreate description
                   (zip_with (fun path text => (VStr (path_basename w path), text))
                             paths texts)
                   public);
       EvPrint result])%list,
     inr tt).
Proof.
  intros Htty HFILES Hpaths Hflag Hoff Hdesc Hpublic Hreads Htexts Hnames Hcreate Hok.
  unfold cmd_create.
  rewrite (check_encryption_off args config encrypt Hflag Hoff), bind_ret.
  rewrite (acquire_files_run w args config editor paths texts Htty HFILES Hpaths Hreads).
  unfold bind.
  rewrite (submit_plain_run w args config gapi _ description public encrypt result);
    try assumption.
  - rewrite gathered_payload. reflexivity.
  - apply gathered_contents, Htexts.
  - apply gathered_hashable.
  - rewrite gathered_names by (eapply Forall2_length, Hreads).
    assert (Hinj : Inj eq eq VStr) by (intros x y Hxy; inversion Hxy; reflexivity).
    apply (NoDup_fmap_2 VStr) in Hnames. rewrite <- list_fmap_compose in Hnames.
    exact Hnames.
  - rewrite gathered_payload. exact Hcreate.
Qed.

Lemma create_from_files_witness :
  let w := Sample.world true "" [] []
             [("foo.txt", "foo"); ("notes/bar.txt", "bar")] "" Sample.config [] in
  let args := Sample.parsed [("create", VBool true); ("<desc>", VStr "desc");
                             ("FILES", VList ["foo.txt"; "notes/bar.txt"])] in
  stdin_isatty w = true /\
  args !! "FILES" = Some (VList ["foo.txt"; "notes/bar.txt"]) /\
  Forall2 (fun path text => read_utf8 w path = inr text)
          ["foo.txt"; "notes/bar.txt"] ["foo"; "bar"] /\
  NoDup (map (path_basename w) ["foo.txt"; "notes/bar.txt"]) /\
  cmd_create w args Sample.config "vim" (Sample.api [])
  = ([EvReadFile "foo.txt"; EvReadFile "notes/bar.txt";
      EvRemote (CallCreate (VStr "desc")
                  [(VStr "foo.txt", "foo"); (VStr "bar.txt", "bar")] (VBool false));
      EvPrint "https://gist.github.com/abc123"],
     inr tt).
Proof.
  cbv zeta.
  assert (Hnames : NoDup (map Posix.basename ["foo.txt"; "notes/bar.txt"])).
  { apply NoDup_cons. split; [|apply NoDup_singleton].
    intros Hin. apply list_elem_of_singleton in Hin. discriminate Hin. }
  split; [reflexivity|]. split; [reflexivity|]. split; [repeat constructor|].
  split; [exact Hnames|].
  apply (create_from_files
           (Sample.world true "" [] []
              [("foo.txt", "foo"); ("notes/bar.txt", "bar")] "" Sample.config [])
           (Sample.parsed [("create", VBool true); ("<desc>", VStr "desc");
                           ("FILES", VList ["foo.txt"; "notes/bar.txt"])])
           Sample.config "vim" (Sample.api []) ["foo.txt"; "notes/bar.txt"] ["foo"; "bar"]
           (VStr "desc") (VBool false) (VBool false) "https://gist.github.com/abc123");
    try reflexivity.
  - discriminate.
  - repeat constructor.
  - repeat constructor; discriminate.
  - exact Hnames.
Defined.

(** ** [create]: encryption *)

Lemma str_app_inv_tail (s s' t : string) : s ++ t = s' ++ t -> s = s'.
Proof.
  revert s'. induction s as [|c s IH]; intros [|c' s'] Heq; try reflexivity.
  - apply (f_equal String.length) in Heq.
    rewrite !str_length_app in Heq. simpl in Heq. lia.
  - apply (f_equal String.length) in Heq.
    rewrite !str_length_app in Heq. simpl in Heq. lia.
  - simpl in Heq. inversion Heq; subst. rewrite (IH s' H1). reflexivity.
Qed.

Lemma encrypted_names_distinct (files : list FileInfo) :
  NoDup (map (fun f => py_str (name f)) files) ->
  NoDup (map (fun f => VStr (py_str (name f) ++ ".asc")) files).
Proof.
  intros Hnames.
  assert (Hinj : Inj eq eq (fun s => VStr (s ++ ".asc"))).
  { intros x y Hxy. inversion Hxy as [Heq]. apply (str_app_inv_tail _ _ _ Heq). }
  apply (NoDup_fmap_2 (fun s => VStr (s ++ ".asc"))) in Hnames.
  rewrite <- list_fmap_compose in Hnames. exact Hnames.
Qed.

Lemma encrypt_loop (w : World) (gnupghome fingerprint : string)
    (files : list FileInfo) (cyphers : list string) (data : list (value * string)) :
  Forall2 (fun file cypher =>
             gpg_encrypt w gnupghome (content file) fingerprint = inr cypher)
          files cyphers ->
  NoDup (map fst data ++ map (fun f => VStr (py_str (name f) ++ ".asc")) files) ->
  fold_m (fun data file =>
            emit (EvEncrypt gnupghome (content file) fingerprint) ;;
            cypher <- lift (gpg_encrypt w gnupghome (content file) fingerprint) ;;
            ret (dict_set (VStr (py_str (name file) ++ ".asc")) cypher data))
         files data
  = (map (fun file => EvEncrypt gnupghome (content file) fingerprint) files,
     inr (data ++ zip_with (fun file cypher =>
                              (VStr (py_str (name file) ++ ".asc"), cypher))
                           files cyphers)%list).
Proof.
  intros Hall. revert data.
  induction Hall as [|file cypher files cyphers Hone _ IH]; intros data Hnodup.
  - simpl. rewrite app_nil_r. reflexivity.
  - assert (Hfresh : VStr (py_str (name file) ++ ".asc") ∉ map fst data).
    { apply NoDup_app in Hnodup. destruct Hnodup as (_ & Hdisj & _).
      intros Hin. apply (Hdisj _ Hin). apply list_elem_of_here. }
    simpl fold_m. rewrite Hone. simpl.
    rewrite (dict_set_fresh _ _ _ Hfresh), IH.
    + simpl. rewrite <- app_assoc. reflexivity.
    + rewrite map_app. simpl. rewrite <- app_assoc. exact Hnodup.
Qed.

(** X18. When GnuPG encrypts every file, the encrypted payload is built
    with one [encrypt] call per file, in order, for the configured
    fingerprint and home directory; each entry is named by the file name
    followed by [.asc] and holds the cipher text, in the order of the
    files (whose names are pairwise distinct). *)
Theorem encrypted_payload (w : World) (config : Config)
    (fingerprint gnupghome : string) (files : list FileInfo) (cyphers : list string) :
  ConfigParser.get config "gist" "gnupg-fingerprint" = inr fingerprint ->
  ConfigParser.get config "gist" "gnupg-homedir" = inr gnupghome ->
  Forall2 (fun file cypher =>
             gpg_encrypt w gnupghome (content file) fingerprint = inr cypher)
          files cyphers ->
  NoDup (map (fun f => py_str (name f)) files) ->
  encrypt_files w config files
  = (map (fun file => EvEncrypt gnupghome (content file) fingerprint) files,
     inr (zip_with (fun file cypher => (VStr (py_str (name file) ++ ".asc"), cypher))
                   files cyphers)).
Proof.
  intros Hfp Hhome Hall Hnames.
  unfold encrypt_files. rewrite Hfp, Hhome, !bind_lift.
  apply (encrypt_loop w gnupghome fingerprint files cyphers [] Hall).
  simpl. apply encrypted_names_distinct, Hnames.
Qed.

Lemma encrypted_payload_witness :
  let w := Sample.world true "" [] [] [] "" Sample.config [] in
  let opts : gmap string string :=
    {[ "token" := "t0ken"; "gnupg-fingerprint" := "F00D"; "gnupg-homedir" := "/keys" ]} in
  let config : Config := {[ "gist" := opts ]} in
  let files := [ {| name := VStr "foo.txt"; content := "foo" |};
                 {| name := VStr "bar.txt"; content := "bar" |} ] in
  ConfigParser.get config "gist" "gnupg-fingerprint" = inr "F00D" /\
  ConfigParser.get config "gist" "gnupg-homedir" = inr "/keys" /\
  encrypt_files w config files
  = ([EvEncrypt "/keys" "foo" "F00D"; EvEncrypt "/keys" "bar" "F00D"],
     inr [(VStr "foo.txt.asc", "gpg(F00D,foo)"); (VStr "bar.txt.asc", "gpg(F00D,bar)")]).
Proof.
  cbv zeta. do 2 (split; [reflexivity|]).
  apply (encrypted_payload
           (Sample.world true "" [] [] [] "" Sample.config [])
           {[ "gist" := {[ "token" := "t0ken"; "gnupg-fingerprint" := "F00D";
                           "gnupg-homedir" := "/keys" ]} ]}
           "F00D" "/keys"
           [ {| name := VStr "foo.txt"; content := "foo" |};
             {| name := VStr "bar.txt"; content := "bar" |} ]
           ["gpg(F00D,foo)"; "gpg(F00D,bar)"]);
    try reflexivity.
  - repeat constructor.
  - simpl. apply NoDup_cons. split; [|apply NoDup_singleton].
    intros Hin. apply list_elem_of_singleton in Hin. discriminate Hin.
Defined.

(** X19. When the encryption of [create] fails, on whichever file, the
    exception leaves [create] and nothing is sent to the remote. *)
Theorem failed_encryption_sends_nothing (w : World) (args : gmap string value)
    (config : Config) (gapi : GistAPI) (files : list FileInfo) (encrypt : value)
    (e : exn) :
  args !! "--encrypt" = Some encrypt ->
  truthy encrypt = true ->
  result_of (encrypt_files w config files) = inl e ->
  (exists e', result_of (submit w args config gapi files) = inl e') /\
  remote_calls (log_of (submit w args config gapi files)) = [].
Proof.
  intros Hflag Hon Hfail. unfold submit, arg.
  destruct (check_not_empty files) as [log [e0|[]]] eqn:Hcheck.
  { pose proof (quiet_check_not_empty files) as Hq. rewrite Hcheck in Hq.
    split; [eexists; reflexivity | exact Hq]. }
  assert (Hlog : remote_calls log = []).
  { pose proof (quiet_check_not_empty files) as Hq. rewrite Hcheck in Hq. exact Hq. }
  rewrite remote_calls_bind, result_of_bind. simpl result_of. simpl log_of.
  rewrite Hlog. simpl app.
  destruct (args !! "<desc>") as [description|]; [|split; [eexists|]; reflexivity].
  rewrite bind_ret.
  destruct (args !! "--public") as [public|]; [|split; [eexists|]; reflexivity].
  rewrite bind_ret, Hflag, bind_ret, Hon.
  rewrite (bind_err _ _ _ Hfail). simpl.
  split; [eexists; reflexivity | apply quiet_encrypt_files].
Qed.

Lemma failed_encryption_sends_nothing_witness :
  let w := Sample.world true "" [] [] [] "" Sample.config [] in
  let args := Sample.parsed [("create", VBool true); ("<desc>", VStr "desc");
                             ("--encrypt", VBool true)] in
  let files := [ {| name := VStr "foo.txt"; content := "foo" |} ] in
  args !! "--encrypt" = Some (VBool true) /\
  result_of (encrypt_files w Sample.config files)
  = inl (NoOptionError "gnupg-fingerprint" "gist") /\
  remote_calls (log_of (submit w args Sample.config (Sample.api []) files)) = [].
Proof.
  cbv zeta. split; [reflexivity|]. split; [reflexivity|].
  apply (proj2
    (failed_encryption_sends_nothing
       (Sample.world true "" [] [] [] "" Sample.config [])
       (Sample.parsed [("create", VBool true); ("<desc>", VStr "desc");
                       ("--encrypt", VBool true)])
       Sample.config (Sample.api [])
       [ {| name := VStr "foo.txt"; content := "foo" |} ]
       (VBool true) (NoOptionError "gnupg-fingerprint" "gist") eq_refl eq_refl eq_refl)).
Defined.

(** ** [create]: what reaches the remote *)

Lemma check_not_empty_inv (files : list FileInfo) :
  result_of (check_not_empty files) = inr tt ->
  Forall (fun f => content f <> "") files.
Proof.
  unfold check_not_empty. induction files as [|f files IH]; [constructor|].
  rewrite for_each_cons, result_of_bind.
  destruct (PyStr.len (content f) =? 0) eqn:Hlen; [discriminate|].
  simpl. intros Hrest. constructor; [|apply IH, Hrest].
  intros Hempty. apply len_zero in Hempty. rewrite Hempty in Hlen. discriminate Hlen.
Qed.

Lemma dict_set_values {K V : Type} `{EqDecision K} (P : V -> Prop) (k : K) (v : V)
    (d : list (K * V)) :
  P v -> Forall (fun entry => P (snd entry)) d ->
  Forall (fun entry => P (snd entry)) (dict_set k v d).
Proof.
  intros Hv. induction 1 as [|[k0 v0] d H0 Hd IH]; simpl.
  - repeat constructor. exact Hv.
  - destruct (decide (k = k0)); constructor; simpl; assumption.
Qed.

Lemma plain_files_values (P : string -> Prop) (files : list FileInfo)
    (data0 data : list (value * string)) :
  Forall (fun f => P (content f)) files ->
  Forall (fun entry => P (snd entry)) data0 ->
  result_of (fold_m (fun data file =>
                       if hashable (name file)
                       then ret (dict_set (name file) (content file) data)
                       else raise (TypeError "unhashable type: 'list'"))
                    files data0) = inr data ->
  Forall (fun entry => P (snd entry)) data.
Proof.
  intros Hfiles. revert data0.
  induction Hfiles as [|f files Hf _ IH]; intros data0 Hdata0; simpl.
  - intros Heq. inversion Heq; subst. exact Hdata0.
  - destruct (hashable (name f)); [|discriminate].
    rewrite bind_ret. apply IH, dict_set_values; assumption.
Qed.

(** What [submit] sends when encryption is off. *)
Lemma submit_plain_calls (w : World) (args : gmap string value) (config : Config)
    (gapi : GistAPI) (files : list FileInfo) (call : RemoteCall) :
  selected args "--encrypt" = false ->
  In call (remote_calls (log_of (submit w args config gapi files))) ->
  exists (description public : value) (data : list (value * string)),
    call = CallCreate description data public /\
    Forall (fun entry => snd entry <> "") data.
Proof.
  intros Hoff. unfold submit.
  rewrite remote_calls_bind, quiet_check_not_empty. simpl app.
  destruct (result_of (check_not_empty files)) as [e|[]] eqn:Hcheck; [intros []|].
  pose proof (check_not_empty_inv files Hcheck) as Hfull.
  unfold arg.
  destruct (args !! "<desc>") as [description|]; [|intros []]. rewrite bind_ret.
  destruct (args !! "--public") as [public|]; [|intros []]. rewrite bind_ret.
  unfold selected in Hoff.
  destruct (args !! "--encrypt") as [encrypt|]; [|intros []].
  rewrite bind_ret, Hoff, remote_calls_bind, quiet_plain_files. simpl app.
  destruct (result_of (plain_files files)) as [e|data] eqn:Hdata; [intros []|].
  intros Hin. exists description, public, data.
  assert (Hcall : call = CallCreate description data public).
  { destruct (api_create gapi description data public) as [e|result]; simpl in Hin.
    - destruct Hin as [Heq|[]]. symmetry. exact Heq.
    - pose proof (quiet_print w result) as Hquiet.
      destruct (py_print w result) as [log' r]. simpl in Hquiet, Hin.
      rewrite Hquiet in Hin. destruct Hin as [Heq|[]]. symmetry. exact Heq. }
  split; [exact Hcall|].
  apply (plain_files_values (fun text => text <> "") files [] data Hfull);
    [constructor | exact Hdata].
Qed.

(** X20. Without encryption, whatever [create] sends to the remote is a
    [create] call in which no entry has empty content. *)
Theorem create_never_sends_an_empty_file (w : World) (args : gmap string value)
    (config : Config) (editor : string) (gapi : GistAPI) (call : RemoteCall) :
  selected args "--encrypt" = false ->
  In call (remote_calls (log_of (cmd_create w args config editor gapi))) ->
  exists (description public : value) (data : list (value * string)),
    call = CallCreate description data public /\
    Forall (fun entry => snd entry <> "") data.
Proof.
  intros Hoff. unfold cmd_create.
  rewrite remote_calls_bind, check_encryption_log. simpl app.
  destruct (result_of (check_encryption args config)); [intros []|].
  rewrite remote_calls_bind.
  rewrite (remote_calls_local _ (acquire_log_local w args config editor)). simpl app.
  destruct (result_of (acquire w args config editor)) as [e|files]; [intros []|].
  apply submit_plain_calls, Hoff.
Qed.

Lemma create_never_sends_an_empty_file_witness :
  let w := Sample.world false "hello" [] [] [] "" Sample.config [] in
  let args := Sample.parsed [("create", VBool true); ("<desc>", VStr "desc");
                             ("--filename", VBool true); ("<filename>", VStr "foo.md")] in
  let call := CallCreate (VStr "desc") [(VStr "foo.md", "hello")] (VBool false) in
  selected args "--encrypt" = false /\
  In call (remote_calls (log_of (cmd_create w args Sample.config "vim" (Sample.api [])))) /\
  exists (description public : value) (data : list (value * string)),
    call = CallCreate description data public /\
    Forall (fun entry => snd entry <> "") data.
Proof.
  cbv zeta.
  assert (Hin : In (CallCreate (VStr "desc") [(VStr "foo.md", "hello")] (VBool false))
                   (remote_calls (log_of
                      (cmd_create
                         (Sample.world false "hello" [] [] [] "" Sample.config [])
                         (Sample.parsed [("create", VBool true); ("<desc>", VStr "desc");
                                         ("--filename", VBool true);
                                         ("<filename>", VStr "foo.md")])
                         Sample.config "vim" (Sample.api []))))).
  { vm_compute. left. reflexivity. }
  split; [reflexivity|]. split; [exact Hin|].
  exact (create_never_sends_an_empty_file
           (Sample.world false "hello" [] [] [] "" Sample.config [])
           (Sample.parsed [("create", VBool true); ("<desc>", VStr "desc");
                           ("--filename", VBool true); ("<filename>", VStr "foo.md")])
           Sample.config "vim" (Sample.api [])
           (CallCreate (VStr "desc") [(VStr "foo.md", "hello")] (VBool false))
           eq_refl Hin).
Defined.

(** ** [create]: the temporary file *)

(** X21. In the editor mode of [create], a [delete-tempfiles] option that
    [getboolean] cannot turn into a boolean stops the command before the
    temporary file is made and before the editor is started: with the
    interpolation error when the value cannot be interpolated, with
    [ValueError('Not a boolean: ...')] when the interpolated value is not
    a boolean word. *)
Theorem bad_delete_tempfiles_stops_before_the_editor (w : World)
    (args : gmap string value) (config : Config) (editor : string) (FILES : value) :
  stdin_isatty w = true ->
  args !! "FILES" = Some FILES ->
  truthy FILES = false ->
  ConfigParser.has_option config "gist" "delete-tempfiles" = true ->
  (forall e : exn,
     ConfigParser.getboolean config "gist" "delete-tempfiles" = inl e ->
     acquire w args config editor = raise e) /\
  (forall e : exn,
     ConfigParser.get config "gist" "delete-tempfiles" = inl e ->
     acquire w args config editor = raise e) /\
  (forall setting : string,
     ConfigParser.get config "gist" "delete-tempfiles" = inr setting ->
     ConfigParser.assoc (PyStr.lower setting) ConfigParser.BOOLEAN_STATES = None ->
     acquire w args config editor = raise (ValueError ("Not a boolean: " ++ setting))).
Proof.
  intros Htty HFILES Hnone Hopt.
  assert (Hfail : forall e : exn,
            ConfigParser.getboolean config "gist" "delete-tempfiles" = inl e ->
            acquire w args config editor = raise e).
  { intros e Hbool. unfold acquire, arg. rewrite Htty, HFILES, bind_ret, Hnone.
    unfold read_editor. rewrite Hopt, Hbool. reflexivity. }
  split; [exact Hfail|]. split.
  - intros e Hget. apply Hfail. unfold ConfigParser.getboolean. rewrite Hget.
    reflexivity.
  - intros setting Hget Hbad. apply Hfail. unfold ConfigParser.getboolean.
    rewrite Hget, Hbad. reflexivity.
Qed.

Lemma bad_delete_tempfiles_stops_before_the_editor_witness :
  let w := Sample.world true "" [] [] [] "typed" Sample.config [] in
  let args := Sample.parsed [("create", VBool true); ("<desc>", VStr "desc")] in
  let config : Config :=
    {[ "gist" := {[ "token" := "t0ken"; "delete-tempfiles" := "maybe" ]} ]} in
  stdin_isatty w = true /\
  args !! "FILES" = Some (VList []) /\
  ConfigParser.has_option config "gist" "delete-tempfiles" = true /\
  ConfigParser.get config "gist" "delete-tempfiles" = inr "maybe" /\
  ConfigParser.assoc (PyStr.lower "maybe") ConfigParser.BOOLEAN_STATES = None /\
  acquire w args config "vim" = raise (ValueError "Not a boolean: maybe").
Proof.
  cbv zeta. do 5 (split; [reflexivity|]).
  refine (proj2 (proj2
    (bad_delete_tempfiles_stops_before_the_editor
       (Sample.world true "" [] [] [] "typed" Sample.config [])
       (Sample.parsed [("create", VBool true); ("<desc>", VStr "desc")])
       {[ "gist" := {[ "token" := "t0ken"; "delete-tempfiles" := "maybe" ]} ]}
       "vim" (VList []) _ _ _ _)) "maybe" _ _);
    reflexivity.
Defined.

Example delete_tempfiles_with_a_bare_percent :
  acquire (Sample.world true "" [] [] [] "typed" Sample.config [])
          (Sample.parsed [("create", VBool true); ("<desc>", VStr "desc")])
          {[ "gist" := {[ "token" := "t0ken"; "delete-tempfiles" := "50%" ]} ]} "vim"
  = raise (InterpolationSyntaxError "delete-tempfiles" "gist"
             "'%' must be followed by '%' or '(', found: '%'").
Proof. vm_compute. reflexivity. Qed.

(** ** The entry point *)

(** X22. Started as a program with a configuration file that cannot be
    read, the client ends with exit status 1 whatever the command; the
    failure goes to the logger, not to the [GIST:] line of the error
    stream, and nothing but the opening of the file has happened. *)
Theorem script_without_configuration (w : World) (args : gmap string value) (e : string) :
  read_config w (config_location w) = inl e ->
  script w args =
    ([EvOpenConfig (config_location w)],
     ExitLogged (ValueError ("Unable to load configuration file: " ++ e))) /\
  exit_status (snd (script w args)) = 1.
Proof.
  intros Hread.
  assert (Hrun : script w args =
                 ([EvOpenConfig (config_location w)],
                  ExitLogged (ValueError ("Unable to load configuration file: " ++ e)))).
  { unfold script, main, startup, load_config. rewrite Hread. reflexivity. }
  rewrite Hrun. split; reflexivity.
Qed.

Lemma script_without_configuration_witness :
  let w := Sample.world true "" [] [] [] "" Sample.config [] in
  read_config w (config_location w) = inl "No such file or directory: /home/user/.gist" /\
  exit_status (snd (script w (Sample.parsed [("list", VBool true)]))) = 1.
Proof.
  cbv zeta. split; [reflexivity|].
  apply (proj2 (script_without_configuration
                  (Sample.world true "" [] [] [] "" Sample.config [])
                  (Sample.parsed [("list", VBool true)])
                  "No such file or directory: /home/user/.gist" eq_refl)).
Defined.

(** ** Which routine runs *)




(** ** [files] *)

(** X24. [files] asks the remote once and prints the file names of the
    gist one per line, in the order of the answer. *)
Theorem files_prints_the_names_in_order (w : World) (args : gmap string value)
    (gapi : GistAPI) (gist_id : value) (names : list string) :
  args !! "<id>" = Some gist_id ->
  api_files gapi gist_id = inr names ->
  Forall (fun f => stdout_encodable w f = true) names ->
  cmd_files w args gapi = (EvRemote (CallFiles gist_id) :: map EvPrint names, inr tt).
Proof.
  intros Hid Hfiles Hok. unfold cmd_files, arg. rewrite Hid, bind_ret.
  rewrite (bind_remote_ok _ _ _ _ Hfiles). cbv beta.
  rewrite (for_each_print w names Hok). reflexivity.
Qed.

Lemma files_prints_the_names_in_order_witness :
  let w := Sample.world true "" [] [] [] "" Sample.config [] in
  let args := Sample.parsed [("files", VBool true); ("<id>", VStr "abc123")] in
  let gapi := Sample.api [("a.txt", "hello"); ("b.txt", "world")] in
  args !! "<id>" = Some (VStr "abc123") /\
  api_files gapi (VStr "abc123") = inr ["a.txt"; "b.txt"] /\
  cmd_files w args gapi
  = ([EvRemote (CallFiles (VStr "abc123")); EvPrint "a.txt"; EvPrint "b.txt"], inr tt).
Proof.
  cbv zeta. split; [reflexivity|]. split; [reflexivity|].
  apply (files_prints_the_names_in_order
           (Sample.world true "" [] [] [] "" Sample.config [])
           (Sample.parsed [("files", VBool true); ("<id>", VStr "abc123")])
           (Sample.api [("a.txt", "hello"); ("b.txt", "world")])
           (VStr "abc123") ["a.txt"; "b.txt"]);
    [reflexivity | reflexivity | repeat constructor].
Defined.
